(* ===== verification/_CoqProject ===== *)
-Q . S2P
Prelude.v
PyStr.v
Html.v
XPath.v
Paths.v
DateTime.v
World.v
Runs.v
Logging.v
Fetcher.v
Retry.v
Listing.v
Detail.v
Json.v
Loads.v
Slack.v
Main.v
Script.v
Inputs.v
