(* ===== verification/Prelude.v ===== *)
(** * Verification of zerodaynewsletter.py

    The program (src/zerodaynewsletter.py, one Python module) is a polling
    job: it fetches the Zero Day Initiative listing of published advisories,
    keeps the rows dated within the last 24 hours, fetches the detail page of
    each, builds a Slack message per advisory and posts it (or posts a single
    "no new advisories" message).

    ** Files, in dependency order

    - [Prelude] (this file): Python exceptions as values ([exn], [res]), the
      error monad of pure fallible code, list indexing that raises
      [IndexError] ([getitem]), the tactics and the hint database [py] shared
      by all files.
    - [PyStr]: the [str] operations the program uses: [strip], the slice
      [s[:n]], formatting of [None] and of integers in f-strings, with the
      lemmas that characterise [strip].
    - [Html]: the element tree returned by [lxml.html.fromstring]
      ([node]), [text_content], document order ([descendants]) and the XPath
      queries the program evaluates ([xpath_root], [xpath_desc],
      [xpath_child], [xpath_desc_attr], [find_desc]).
    - [XPath]: location paths and their evaluation on node sets, as XPath
      1.0 defines it: positions in the tree ([atpos], [locate]), document
      order, node sets ([normalise]), axes, node tests and steps
      ([eval_step], [eval]).
    - [Paths]: the text of an expression: the lexer ([lex]), the parser of
      the abbreviated syntax ([parse_path]), the printer ([print]) and the
      methods [el.xpath(text)] and [el.find(text)] ([xpath], [find]).
    - [DateTime]: naive [datetime] values, the proleptic Gregorian ordinal
      ([ymd2ord], [ord2ymd]), [strptime] for the format [%Y-%m-%d],
      subtraction of [timedelta(hours=24)] and the comparison [>=].
    - [World]: the effects. The environment [Env] holds what the program
      cannot control (the network, the random generator, the Slack API, the
      HTML parser and the variables of the process, [os.environ]); the
      state [World] holds the clock, the call counters and the trace of
      observable events (requests, log records, sleeps, Slack posts). [M] is
      the state-and-exception monad of effectful code; [try_except] is
      [try: ... except C: ...]. The globals of lines 18-20 are [os_getenv]
      of their variable.
    - [Runs]: relations between the state at the start and at the end of a
      run. A computation is [closed] under a relation when every run of it
      is in the relation; the classes [Primitives] and [Posting] say that
      the primitives respect a relation, and every function of the program
      is then closed under it. The instances are [extends] (the state only
      grows), [silent] (nothing is posted), [advances] (the state is the
      start advanced by the trace) and [only P] (every event of the run
      satisfies [P]). [spends] bounds the requests, the Slack calls and the
      sleep between two states.
    - [Logging]: the configuration of [logging] (lines 13-16): the
      threshold ([isEnabledFor]), the [%] format ([parse_format],
      [render]), the time stamp ([asctime]) and what a trace writes to the
      stream ([written]).
    - [Fetcher]: [makerequest] (lines 22-51), the retry loop, and the retry
      policy [fetch_spec] with its trace [fetch_trace].
    - [Retry]: the same loop as a machine that makes one iteration per
      step ([step], [next], [run]).
    - [Listing]: [retrieve_advisories] (lines 53-83) with the text of its
      six XPath expressions, and the specification of a row ([row_spec])
      and of the loop ([rows_spec]).
    - [Detail]: [retrieve_advisory_info] (lines 85-114) with the text of
      its six expressions, and the decision table of the extraction
      ([information_spec]).
    - [Json]: [json.dumps] with its default settings on the values the
      program serialises (lines 177, 199).
    - [Loads]: a reader of JSON texts, the reference against which the
      output of [dumps] is judged.
    - [Slack]: the two message builders and
      [send_slack_message_for_no_new_zero_day] (lines 117-181).
    - [Main]: [main] (lines 183-204), the runs of its loop as an
      inductive relation ([loop]) and the whole run as a function of the
      environment and of the state at the start ([job]).
    - [Script]: the module run as a program: the guard of lines 207-208
      ([run_module]) and the output of a run ([stdout]).
    - [Inputs]: the environments that agree on what a run can still
      consult ([same_future]) or on everything ([same_inputs]) and the
      computations that cannot tell them apart ([replays], [local]).

    ** How the model corresponds to the code

    Every Python function is one definition of the same name. A function that
    performs I/O is a computation in [World.M]; the statements of its body
    are the binds of the definition in the same order, so the trace records
    the events in program order. A loop is a recursion on the list it
    iterates over, its body a definition of its own ([attempt_body],
    [row_advisory], [iteration]). An exception is the value [Raise e]; it
    propagates through bind exactly as through Python statements and is
    caught only where the source has a [try]. Lists are Rocq lists, [l[i]]
    is [getitem l i]. Dictionaries with a fixed set of keys are records whose
    fields are named after the keys. The module variables [SLACK_API_KEY],
    [CHANNEL_ID] and [IMAGE_URL] are read from the variables of the
    process, which the program never writes; a variable that is not set is
    [None]. A log record in the trace is its level and its message; the
    line that it leaves on [sys.stdout] is computed from the trace, the
    time of a record being the time of the start plus the sleeps before
    it ([Logging.written]), which is the clock at the call
    ([Logging.logger_call_written]).

    The extractors navigate as the code does: each call [el.xpath(text)]
    is [Paths.xpath_elements] or [Paths.xpath_strings] of the text of the
    expression, which [Paths] reads and [XPath] evaluates, and
    [el.find(text)] is [Paths.find]. The queries of [Html], one function
    per shape of expression, are what these calls compute
    ([Detail.navigation_by_text]); the theorems on the extractors reason
    with them. An expression whose path is absolute is evaluated from the
    document node above the root element ([XPath.document]); the program
    applies such expressions to the tree that the parser returned.

    Strings are Rocq strings; a character is a code point below 256. Times
    are integers: the clock and every duration are counted in microseconds,
    the resolution of [datetime]; the clock advances by the sleeps of the
    program and by nothing else. [random.uniform(1, 5)] draws the next
    value of the environment's generator and maps it into the closed interval
    from one to five seconds. The outcome of the [n]-th request, random draw
    or Slack call is a function of [n], so that a run is determined by the
    environment and every theorem holds for all environments.

    ** What the theorems show

    - [Fetcher]: the loop implements the retry policy with its exact trace
      ([makerequest_refines]); the result, the number of requests and the
      sleeps after [k] transport failures, on exhaustion, on a response
      with any status, on an exception that is not a [RequestException], on a
      body that the parser refuses ([makerequest_unparsable]) and on a
      negative delay; the bounds on the requests and on the time slept.
    - [Retry]: every execution of the machine ends, after at most
      [retries + 1] steps ([retry_terminates]); it can only end in the
      result of [makerequest], which the step function computes
      ([machine_makerequest]); every configuration that it reaches leads
      there ([retry_eventually_done]).
    - [Logging]: the scanner of formats is the inverse of the printer of
      pieces ([parse_format_spec]); under the configuration of the program
      every call of the logger writes one line with the time of the call.
    - [Listing]: the loop over the rows implements [rows_spec]; a row is
      retained exactly when the midnight of its date is not more than 24
      hours before the clock read after the fetch; the records come in
      document order and are well formed ([for_rows_well_formed]: stripped
      texts, a link on the site, a date in the window); which exceptions
      the navigation and an unparsable date raise; what a missing anchor
      and a failed fetch lead to.
    - [Detail]: the fields of the record, the complete list of the
      exceptions of the extraction and the case of each; the navigation
      of both pages from the text of the expressions selects what the
      queries of [Html] select ([navigation_by_text]); the expressions of
      the program are written as [print] writes them
      ([expressions_canonical]).
    - [XPath]: a node set is in document order, without duplicates, and
      two node sets with the same nodes are equal ([ordered_unique]); the
      result of every path is a sublist of the nodes of the tree
      ([eval_steps_sublist]); the queries of [Html] are the evaluation of
      the paths [.//tag[ps]], [//tag[ps]], [./tag] and [.//tag/@name]
      ([eval_compiled]).
    - [Paths]: the lexer reads back the tokens and the parser the steps of
      every path that has a text ([read_print]); the elements that
      [el.xpath] returns are a sublist of the nodes of the document
      ([xpath_elements_sublist]).
    - [DateTime]: [ord2ymd] inverts [ymd2ord] and conversely, the ordinal
      is strictly monotone, [>=] is the order of the instants, the
      subtraction of a duration is exact or raises [OverflowError],
      [strptime] returns midnights of dates that exist and reads back every
      ISO date.
    - [Json]: the output is printable ASCII; the encoding of strings is
      injective.
    - [Loads]: the reader reads back every value from the text that
      [dumps] writes for it ([loads_dumps]), so [dumps] is injective.
    - [Slack]: the trace of the notification of a quiet day for each
      behaviour of Slack; the shape and the length of the summary.
    - [Main]: [main] computes [job] in every environment and from every
      state ([main_refines]): the specifications of the parts compose to
      the specification of the program, failures included. On a site that
      answers every request, [main] makes one request per page, pauses
      60 seconds and delivers exactly one message per retained row, in
      the order of the listing ([main_answers]). In
      general, [main] stops at once when the listing fails; on a quiet day
      it posts one message after the pause; otherwise it runs the loop,
      which never raises, comes to every advisory
      ([for_advisories_handles_all]), skips the advisories whose iteration
      fails and delivers the messages of the others in the order of the
      listing. The state at the end of every run is the state of the
      start advanced by the events of the run: the clock has moved by the
      sleeps and by nothing else ([main_accounted]). A run with [n]
      retained rows makes at most [3 (n + 1)] requests and sleeps at most
      [130 (n + 1) + 60] seconds ([main_spends]); every call of Slack is
      made with the token of [SLACK_API_KEY] and names the channel of
      [CHANNEL_ID] ([main_posts_addressed]).
    - [Script]: the lines that a run without failures writes to
      [sys.stdout] ([script_stdout]); in every run each record is one line
      and the times of the lines never go back
      ([script_stdout_in_order]).
    - [Inputs]: every function of the program [replays]: it only extends
      the state, and its run from a state depends on the parser, on the
      three variables of lines 18-20 and on the requests, draws and calls
      of Slack that have not been made in that state, and on nothing else
      ([main_same_future]). [same_inputs] and [same_future] are
      equivalences; [main] and [run_module] are [Proper] for
      [same_inputs].

    The examples at the end of each file apply the theorems to a concrete
    site ([World.Fixture], [Listing.ListingFixture], [Detail.DetailFixture],
    [Main.MainFixture], [XPath.XPathFixture]).

    ** Bounds

    No definition of the functions of the program uses fuel: the retry loop
    recurses on the list [range(retries)], the other loops on the list they
    iterate over, the tree functions on the tree. The step function of
    [Retry] is iterated with fuel ([Retry.run]); [retries + 1] units are
    enough for every environment ([Retry.machine_makerequest]). The reader
    of [Loads] descends with fuel; the length of the text is enough for
    every text that [dumps] writes ([Loads.json_size_length]). The lexer
    and the parser of [Paths] recurse on the text and on the tokens; the
    evaluation of a path recurses on its steps. Years range over 1..9999
    as in Python ([MINYEAR], [MAXYEAR]). The number of attempts is a
    natural number: a negative [retries] gives Python the empty range,
    which is the case [retries = 0] ([Fetcher.makerequest_no_attempts]);
    the delay is an integer of any sign. Two facts are established by
    evaluation over a
    finite range: the month and the day of each of the 365 or 366 days of a
    year ([DateTime.ord2md_ok], through [DateTime.all_from] with that many
    steps), and the escapes of the 256 characters ([Json.prefix_free],
    [Loads.scan_string_escape_char]).

    ** Not modelled

    The HTML parser (the environment supplies the tree of a response body;
    comments and processing instructions are not part of the tree), the HTTP
    client and the Slack client (the environment supplies their outcomes;
    the client of line 186 is the value of its token), the parts of XPath
    that the program does not use (the axes that lead upwards or
    sideways, positional predicates, functions other than [contains],
    unions, the unabbreviated syntax, names with a prefix or a dot), the
    import
    statements (lines 1-11, which bind names), directives of a log format
    other than [%(key)s] and attributes of a log record other than the
    time, the name, the level and the message ([Logging.parse_format]
    and [Logging.attribute] return [None] for them), the time zone of the
    time stamps (the clock is local time), characters above U+00FF,
    numbers and booleans in JSON, [KeyboardInterrupt] and other
    exceptions outside [Exception], the time that a request or a call of
    Slack takes, and a call that never returns ([requests.get] is called
    without a timeout): every call of the environment returns or raises
    at once. *)

From Stdlib Require Ascii String.
From stdpp Require Export base tactics option list strings numbers pretty.

(** Characters: the Standard Library's 8-bit [ascii], read as the code
    points U+0000..U+00FF. *)
Abbreviation ascii := Stdlib.Strings.Ascii.ascii.
Abbreviation nat_of_ascii := Stdlib.Strings.Ascii.nat_of_ascii.
Abbreviation ascii_of_nat := Stdlib.Strings.Ascii.ascii_of_nat.

Declare Scope py_scope.
Delimit Scope py_scope with py.
#[global] Open Scope py_scope.

(** * Exceptions *)

(** The exception classes that the program can meet. [RequestException]
    stands for [requests.exceptions.RequestException] and its subclasses,
    [ParserError] for what [lxml] raises on a document it cannot parse,
    [XPathEvalError] for what it raises on an expression it cannot read. *)
Variant exn_class : Set :=
  | AttributeError
  | IndexError
  | KeyError
  | ValueError
  | OverflowError
  | RequestException
  | SlackApiError
  | ParserError
  | XPathEvalError.

#[export] Instance exn_class_eq_dec : EqDecision exn_class.
Proof. solve_decision. Defined.

(** An exception object: its class and [str(e)]. *)
Record exn : Set := Exn { exn_cls : exn_class; exn_msg : string }.

#[export] Instance exn_eq_dec : EqDecision exn.
Proof. solve_decision. Defined.

(** The outcome of an expression or a statement: a value or a raised
    exception. *)
Inductive res (A : Type) : Type :=
  | Ok (a : A)
  | Raise (e : exn).
Arguments Ok {A} a.
Arguments Raise {A} e.

#[export] Instance res_eq_dec `{EqDecision A} : EqDecision (res A).
Proof. solve_decision. Defined.

#[export] Instance res_ret : MRet res := @Ok.
#[export] Instance res_bind : MBind res := λ A B f m,
  match m with Ok a => f a | Raise e => Raise e end.
#[export] Instance res_fmap : FMap res := λ A B f m,
  match m with Ok a => Ok (f a) | Raise e => Raise e end.

Definition is_ok {A} (r : res A) : bool :=
  match r with Ok _ => true | Raise _ => false end.

(** The class of the exception a computation raised, if it raised one. *)
Definition raised {A} (r : res A) : option exn_class :=
  match r with Ok _ => None | Raise e => Some (exn_cls e) end.

(** [isinstance(e, c)]: the model has no subclass besides the ones merged
    into [RequestException]. *)
Definition isinstance (e : exn) (c : exn_class) : bool :=
  bool_decide (exn_cls e = c).

(** * Sequences *)

Definition index_error : exn := Exn IndexError "list index out of range".

(** [l[i]] for a non-negative literal [i]. *)
Definition getitem {A} (l : list A) (i : nat) : res A :=
  match l !! i with
  | Some x => Ok x
  | None => Raise index_error
  end.

(** [bool(l)] of a list: the truth value used by [if l] and [not l]. *)
Definition truthy {A} (l : list A) : bool :=
  match l with [] => false | _ => true end.

(** [range(n)]. *)
Definition range (n : nat) : list nat := seq 0 n.

(** * Tactics and hints *)

Create HintDb py discriminated.
Create Rewrite HintDb py.

(** Case analysis on the scrutinee of the first [match] of the goal. *)
Ltac case_res :=
  match goal with
  | |- context [match ?x with Ok _ => _ | Raise _ => _ end] =>
      let E := fresh "E" in destruct x eqn:E
  end.

(** * Lemmas *)

Section res_lemmas.
Context {A B C : Type}.
Implicit Types (m : res A) (f : A → res B) (g : B → res C).

Lemma res_bind_ok (a : A) f : Ok a ≫= f = f a.
Proof. done. Qed.

Lemma res_bind_raise e f : @Raise A e ≫= f = Raise e.
Proof. done. Qed.

Lemma res_bind_ret m : m ≫= mret = m.
Proof. by destruct m. Qed.

Lemma res_fmap_id (h : A → A) m : (∀ a, h a = a) → h <$> m = m.
Proof. intros Hh. destruct m; cbn; by rewrite ?Hh. Qed.

Lemma res_bind_assoc m f g : (m ≫= f) ≫= g = m ≫= (λ a, f a ≫= g).
Proof. by destruct m. Qed.

Lemma res_bind_Ok_inv m f (b : B) :
  m ≫= f = Ok b ↔ ∃ a, m = Ok a ∧ f a = Ok b.
Proof.
  destruct m as [a|e]; simpl.
  - split; [intros; by exists a|]. intros (? & ? & ?). by simplify_eq.
  - split; [done|]. by intros (? & ? & ?).
Qed.

Lemma res_bind_Raise_inv m f e :
  m ≫= f = Raise e ↔ m = Raise e ∨ ∃ a, m = Ok a ∧ f a = Raise e.
Proof.
  destruct m as [a|e']; simpl.
  - split; [intros; right; by exists a|]. intros [?|(? & ? & ?)]; by simplify_eq.
  - split; [intros [= ->]; by left|]. by intros [[= ->]|(? & ? & ?)].
Qed.

End res_lemmas.

#[export] Hint Rewrite @res_bind_ok @res_bind_raise : py.

Section list_lemmas.
Context {A : Type}.
Implicit Types (l : list A) (i : nat).

Lemma getitem_Ok l i x : getitem l i = Ok x ↔ l !! i = Some x.
Proof. unfold getitem. destruct (l !! i); split; congruence. Qed.

Lemma getitem_lt l i : i < length l → ∃ x, getitem l i = Ok x.
Proof.
  intros [x Hx]%lookup_lt_is_Some_2. exists x. by apply getitem_Ok.
Qed.

Lemma getitem_ge l i : length l ≤ i → getitem l i = Raise index_error.
Proof. intros H. unfold getitem. by rewrite lookup_ge_None_2. Qed.

Lemma getitem_raise l i e :
  getitem l i = Raise e → e = index_error ∧ length l ≤ i.
Proof.
  unfold getitem. destruct (l !! i) eqn:E; [done|].
  intros [= <-]. split; [done|]. by apply lookup_ge_None.
Qed.

Lemma range_length n : length (range n) = n.
Proof. apply length_seq. Qed.

Lemma range_S n : range (S n) = 0 :: (S <$> range n).
Proof. unfold range. simpl. f_equal. by rewrite <- fmap_S_seq. Qed.

Lemma replicate_pred_snoc n (x : A) :
  0 < n → replicate (n - 1) x ++ [x] = replicate n x.
Proof.
  intros Hn. destruct n as [|n]; [lia|].
  by rewrite Nat.sub_succ, Nat.sub_0_r, <- replicate_S_end.
Qed.

End list_lemmas.
