(* ===== verification/PyStr.v ===== *)
(** * PyStr: the [str] operations of the program

    [strip()] (lines 66, 71-78, 95-109), the slice [s[:75]] (line 118) and
    the conversions an f-string applies to [None] and to integers (lines 41,
    44, 79, 185). A character is a code point below 256. *)

From S2P Require Import Prelude.

(** ** Definitions *)

(** [c.isspace()] on the code points below 256: the ASCII white space, the
    four separators U+001C..U+001F, U+0085 and U+00A0. *)
Definition isspace (c : ascii) : bool :=
  let n := nat_of_ascii c in
  ((9 <=? n) && (n <=? 13)) || ((28 <=? n) && (n <=? 32))
  || (n =? 133) || (n =? 160).

(** [all(p(c) for c in s)]. *)
Fixpoint str_forall (p : ascii → bool) (s : string) : bool :=
  match s with
  | EmptyString => true
  | String c s' => p c && str_forall p s'
  end.

Definition str_head (s : string) : option ascii :=
  match s with EmptyString => None | String c _ => Some c end.

Fixpoint str_last (s : string) : option ascii :=
  match s with
  | EmptyString => None
  | String c EmptyString => Some c
  | String _ s' => str_last s'
  end.

(** [s.lstrip()]. *)
Fixpoint lstrip (s : string) : string :=
  match s with
  | EmptyString => EmptyString
  | String c s' => if isspace c then lstrip s' else s
  end.

(** [s.rstrip()]. *)
Fixpoint rstrip (s : string) : string :=
  match s with
  | EmptyString => EmptyString
  | String c s' =>
      match rstrip s' with
      | EmptyString => if isspace c then EmptyString else String c EmptyString
      | r => String c r
      end
  end.

(** [s.strip()]. *)
Definition strip (s : string) : string := rstrip (lstrip s).

(** [s[:n]] for a non-negative literal [n]. *)
Fixpoint slice_to (n : nat) (s : string) : string :=
  match n, s with
  | S n', String c s' => String c (slice_to n' s')
  | _, _ => EmptyString
  end.

(** [s.startswith(p)]. *)
Fixpoint startswith (p s : string) : bool :=
  match p, s with
  | EmptyString, _ => true
  | String a p', String b s' => bool_decide (a = b) && startswith p' s'
  | String _ _, EmptyString => false
  end.

(** [sub in s], which is also XPath's [contains(s, sub)]. *)
Fixpoint contains (s sub : string) : bool :=
  startswith sub s ||
  match s with
  | EmptyString => false
  | String _ s' => contains s' sub
  end.

(** The text an f-string substitutes for a value that is a [str] or
    [None]. *)
Definition format_opt (o : option string) : string :=
  match o with Some s => s | None => "None" end.

(** The text an f-string substitutes for an [int]. *)
Definition format_int (z : Z) : string := pretty z.

(** The character with the code [n]. *)
Definition is_char (n : nat) (c : ascii) : bool :=
  bool_decide (nat_of_ascii c = n).

(** A string with no character that [strip] removes at either end. *)
Definition stripped (s : string) : Prop :=
  (∀ c, str_head s = Some c → isspace c = false) ∧
  (∀ c, str_last s = Some c → isspace c = false).

(** ** White space *)

Abbreviation blank s := (str_forall isspace s = true).

Lemma is_char_eq n c : is_char n c = true → c = ascii_of_nat n.
Proof.
  unfold is_char. intros H%bool_decide_eq_true. subst n.
  by rewrite Ascii.ascii_nat_embedding.
Qed.

Lemma str_app_nil_l s : "" +:+ s = s.
Proof. done. Qed.

Lemma str_app_cons c s t : String c s +:+ t = String c (s +:+ t).
Proof. done. Qed.

Lemma str_forall_app p s t :
  str_forall p (s +:+ t) = str_forall p s && str_forall p t.
Proof.
  induction s as [|c s IH]; [done|].
  rewrite str_app_cons. simpl. by rewrite IH, andb_assoc.
Qed.

Lemma str_app_nil_r s : s +:+ "" = s.
Proof. induction s; rewrite ?str_app_cons; by f_equal. Qed.

Lemma str_app_assoc s t u : (s +:+ t) +:+ u = s +:+ (t +:+ u).
Proof. induction s; rewrite ?str_app_cons; by f_equal. Qed.

Lemma str_length_app s t :
  String.length (s +:+ t) = String.length s + String.length t.
Proof. induction s; rewrite ?str_app_cons; simpl; by f_equal. Qed.

Create Rewrite HintDb str.
#[export] Hint Rewrite str_app_nil_l str_app_cons str_app_nil_r str_app_assoc
  str_length_app str_forall_app : str.

(** ** [lstrip] and [rstrip] *)

Lemma lstrip_split s : ∃ l, s = l +:+ lstrip s ∧ blank l.
Proof.
  induction s as [|c s (l & Hs & Hl)]; [by exists ""|]. simpl.
  destruct (isspace c) eqn:Hc; [|by exists ""].
  exists (String c l). rewrite str_app_cons. simpl. rewrite Hc, Hl.
  split; [by f_equal|done].
Qed.

Lemma lstrip_head s c : str_head (lstrip s) = Some c → isspace c = false.
Proof.
  induction s as [|a s IH]; simpl; [done|].
  destruct (isspace a) eqn:Ha; [done|]. by intros [= <-].
Qed.

Lemma lstrip_id s :
  (∀ c, str_head s = Some c → isspace c = false) → lstrip s = s.
Proof. destruct s as [|a s]; simpl; [done|]. intros H. by rewrite (H a). Qed.

Lemma rstrip_cons c s :
  rstrip (String c s) =
    if decide (rstrip s = "") then (if isspace c then "" else String c "")
    else String c (rstrip s).
Proof. simpl. by destruct (rstrip s). Qed.

Lemma rstrip_split s : ∃ r, s = rstrip s +:+ r ∧ blank r.
Proof.
  induction s as [|c s (r & Hs & Hr)]; [by exists ""|].
  rewrite rstrip_cons. case_decide as E.
  - rewrite E, str_app_nil_l in Hs. subst r.
    destruct (isspace c) eqn:Hc.
    + exists (String c s). simpl. by rewrite Hc, Hr.
    + exists s. by rewrite Hr.
  - exists r. rewrite str_app_cons. split; [by f_equal|done].
Qed.

Lemma rstrip_last s c : str_last (rstrip s) = Some c → isspace c = false.
Proof.
  induction s as [|a s IH]; [done|]. rewrite rstrip_cons. case_decide as E.
  - destruct (isspace a) eqn:Ha; [done|]. by intros [= <-].
  - simpl. destruct (rstrip s); [done|]. apply IH.
Qed.

Lemma rstrip_head s c :
  str_head (rstrip s) = Some c → str_head s = Some c.
Proof.
  destruct s as [|a s]; [done|]. rewrite rstrip_cons.
  case_decide; [|done]. by destruct (isspace a).
Qed.

Lemma rstrip_id s :
  (∀ c, str_last s = Some c → isspace c = false) → rstrip s = s.
Proof.
  induction s as [|a s IH]; [done|]. intros H. rewrite rstrip_cons.
  destruct s as [|b s].
  - simpl. by rewrite (H a).
  - rewrite IH by (intros c Hc; by apply H). by rewrite decide_False.
Qed.

Lemma rstrip_blank s : blank s → rstrip s = "".
Proof.
  induction s as [|a s IH]; [done|]. simpl. intros [Ha Hs]%andb_true_iff.
  by rewrite IH, Ha.
Qed.

Lemma lstrip_blank s : blank s → lstrip s = "".
Proof.
  induction s as [|a s IH]; [done|]. simpl. intros [Ha Hs]%andb_true_iff.
  by rewrite Ha, IH.
Qed.

(** ** [slice_to] *)

Lemma slice_to_length n s : String.length (slice_to n s) = n `min` String.length s.
Proof.
  revert s. induction n as [|n IH]; intros [|c s]; simpl; [done..|].
  by rewrite IH.
Qed.

Lemma slice_to_all n s : String.length s ≤ n → slice_to n s = s.
Proof.
  revert s. induction n as [|n IH]; intros [|c s]; simpl; try done; [lia|].
  intros H. f_equal. apply IH. lia.
Qed.

Lemma slice_to_prefix n s : ∃ t, s = slice_to n s +:+ t.
Proof.
  revert s. induction n as [|n IH]; intros [|c s]; simpl; eauto.
  destruct (IH s) as [t Ht]. exists t. rewrite str_app_cons. by f_equal.
Qed.

(** ** [startswith] *)

Lemma startswith_app p s : startswith p (p +:+ s) = true.
Proof.
  induction p as [|a p IH]; [done|]. rewrite str_app_cons. simpl.
  by rewrite bool_decide_eq_true_2, IH.
Qed.

Lemma startswith_spec p s : startswith p s = true ↔ ∃ t, s = p +:+ t.
Proof.
  split; [|intros [t ->]; apply startswith_app].
  revert s. induction p as [|a p IH]; intros s; simpl; [by exists s|].
  destruct s as [|b s]; [done|].
  intros [->%bool_decide_eq_true Hp]%andb_true_iff.
  destruct (IH _ Hp) as [t ->]. by exists t.
Qed.

(** ** [strip] *)

Lemma lstrip_app_blank l s : blank l → lstrip (l +:+ s) = lstrip s.
Proof.
  induction l as [|a l IH]; [done|]. rewrite str_app_cons. simpl.
  intros [-> Hl]%andb_true_iff. auto.
Qed.

Lemma rstrip_app_blank s r : blank r → rstrip (s +:+ r) = rstrip s.
Proof.
  intros Hr. induction s as [|a s IH].
  - rewrite str_app_nil_l. by apply rstrip_blank.
  - by rewrite str_app_cons, !rstrip_cons, IH.
Qed.

Lemma strip_stripped s : stripped (strip s).
Proof.
  split; intros c Hc.
  - eapply lstrip_head, rstrip_head, Hc.
  - eapply rstrip_last, Hc.
Qed.

(** [strip] removes a run of white space at each end and nothing else. *)
Lemma strip_split s :
  ∃ l r, s = l +:+ strip s +:+ r ∧ blank l ∧ blank r ∧ stripped (strip s).
Proof.
  destruct (lstrip_split s) as (l & Hs & Hl).
  destruct (rstrip_split (lstrip s)) as (r & Hm & Hr).
  exists l, r. split_and!; [|done..|apply strip_stripped].
  unfold strip. by rewrite <- Hm.
Qed.

(** Conversely the trimmed middle of any such decomposition is what [strip]
    returns. *)
Lemma strip_unique s l t r :
  s = l +:+ t +:+ r → blank l → blank r → stripped t → strip s = t.
Proof.
  intros -> Hl Hr [Hh Ht]. unfold strip. rewrite lstrip_app_blank by done.
  destruct t as [|a t].
  - rewrite str_app_nil_l, lstrip_blank by done. done.
  - rewrite lstrip_id by (intros c; rewrite str_app_cons; apply Hh).
    rewrite rstrip_app_blank by done. by apply rstrip_id.
Qed.

Lemma strip_idemp s : strip (strip s) = strip s.
Proof.
  destruct (strip_stripped s) as [Hh Ht]. unfold strip at 1.
  rewrite lstrip_id by done. by apply rstrip_id.
Qed.

Lemma strip_id s : stripped s → strip s = s.
Proof. intros [Hh Ht]. unfold strip. rewrite lstrip_id by done. by apply rstrip_id. Qed.
