(* ===== verification/Html.v ===== *)
(** * Html: the element tree and the queries evaluated on it

    The value [lxml.html.fromstring] returns is modelled as a finite tree:
    an element has a tag, attributes and an ordered list of children, and a
    child is an element or a run of text ([lxml] stores the text of an element
    in the [text] and [tail] slots around its children; the list of children
    with text nodes between them is the same sequence).

    The queries are the ones the program evaluates (lines 55-58, 64, 69,
    88-91, 94, 98, 102, 104, 108): a step along the child or the descendant
    axis with a name test and attribute predicates, [text_content()],
    [find('.//a')] and [attrib['href']]. *)

From S2P Require Import Prelude PyStr.

(** ** The tree *)

#[warnings="-register-all"]
Inductive node : Type :=
  | Element (tag : string) (attrib : list (string * string))
      (children : list node)
  | Text (data : string).

(** Induction with the hypothesis on every child. *)
Section node_ind.
Context (P : node → Prop).
Context (Htext : ∀ s, P (Text s)).
Context (Helem : ∀ tag attrib cs, Forall P cs → P (Element tag attrib cs)).

Fixpoint node_ind' (n : node) : P n :=
  match n with
  | Text s => Htext s
  | Element tag attrib cs =>
      Helem tag attrib cs
        ((fix go (l : list node) : Forall P l :=
            match l with
            | [] => @List.Forall_nil node P
            | c :: l' => @List.Forall_cons node P c l' (node_ind' c) (go l')
            end) cs)
  end.
End node_ind.

Definition children_of (n : node) : list node :=
  match n with Element _ _ cs => cs | Text _ => [] end.

(** The value of an attribute: the first binding of the name. *)
Fixpoint assoc (name : string) (l : list (string * string)) : option string :=
  match l with
  | [] => None
  | (k, v) :: l' => if decide (k = name) then Some v else assoc name l'
  end.

Definition get_attr (name : string) (n : node) : option string :=
  match n with Element _ a _ => assoc name a | Text _ => None end.

(** [el.attrib[name]] (line 105). *)
Definition attrib_getitem (n : node) (name : string) : res string :=
  match get_attr name n with
  | Some v => Ok v
  | None => Raise (Exn KeyError ("'" +:+ name +:+ "'"))
  end.

(** [el.text_content()]: the text nodes below the element, concatenated in
    document order. *)
Fixpoint text_content (n : node) : string :=
  match n with
  | Text s => s
  | Element _ _ cs => foldr (λ c acc, text_content c +:+ acc) "" cs
  end.

(** The proper descendants of a node in document order. *)
Fixpoint descendants (n : node) : list node :=
  match n with
  | Text _ => []
  | Element _ _ cs => flat_map (λ c, c :: descendants c) cs
  end.

(** ** Predicates and steps *)

(** The predicates that occur between brackets in the program's queries. *)
Inductive predicate : Type :=
  | AttrEq (name value : string)        (* [@name="value"] *)
  | AttrContains (name sub : string)    (* [contains(@name, "sub")] *)
  | And (p q : predicate).                   (* [p and q] *)

(** An absent attribute is the empty node set: it equals no string and its
    string value is empty. *)
Fixpoint holds (p : predicate) (n : node) : bool :=
  match p with
  | AttrEq name value => bool_decide (get_attr name n = Some value)
  | AttrContains name sub => contains (default "" (get_attr name n)) sub
  | And p q => holds p n && holds q n
  end.

(** The name test [tag] followed by the predicates [ps]. *)
Definition matches (tag : string) (ps : list predicate) (n : node) : bool :=
  match n with
  | Element t _ _ => bool_decide (t = tag) && forallb (λ p, holds p n) ps
  | Text _ => false
  end.

(** [tree.xpath('//tag[ps]')]: the elements of the document of [tree]. The
    tree is the root element of its document. *)
Definition xpath_root (tag : string) (ps : list predicate) (tree : node)
    : list node :=
  filter (λ n, matches tag ps n) (tree :: descendants tree).

(** [ctx.xpath('.//tag[ps]')]. *)
Definition xpath_desc (tag : string) (ps : list predicate) (ctx : node)
    : list node :=
  filter (λ n, matches tag ps n) (descendants ctx).

(** [ctx.xpath('./tag')]. *)
Definition xpath_child (tag : string) (ctx : node) : list node :=
  filter (λ n, matches tag [] n) (children_of ctx).

(** [ctx.xpath('.//tag/@name')]: the values of the attribute on the
    descendants that carry it. *)
Definition xpath_desc_attr (tag name : string) (ctx : node) : list string :=
  omap (get_attr name) (xpath_desc tag [] ctx).

(** [ctx.find('.//tag')]: the first match or [None]. *)
Definition find_desc (tag : string) (ctx : node) : option node :=
  head (xpath_desc tag [] ctx).

(** [m] is [n] or lies below it. *)
Definition within (m n : node) : Prop := m = n ∨ m ∈ descendants n.

(** ** Lemmas *)

Lemma descendants_Element tag a cs :
  descendants (Element tag a cs) = cs ≫= (λ c, c :: descendants c).
Proof. simpl. induction cs as [|c cs IH]; [done|]. simpl. by rewrite IH. Qed.

Lemma text_content_Element tag a cs :
  text_content (Element tag a cs) =
    foldr String.app "" (text_content <$> cs).
Proof. simpl. induction cs as [|c cs IH]; [done|]. simpl. by rewrite IH. Qed.

Lemma elem_of_descendants m tag a cs :
  m ∈ descendants (Element tag a cs) ↔ ∃ c, c ∈ cs ∧ within m c.
Proof.
  rewrite descendants_Element, list_elem_of_bind. unfold within.
  setoid_rewrite elem_of_cons. split; intros (c & ? & ?); by exists c.
Qed.

(** Descent composes: a query evaluated on a result of a query stays inside
    the first context. *)
Lemma descendants_trans k m n :
  k ∈ descendants m → m ∈ descendants n → k ∈ descendants n.
Proof.
  intros Hk. induction n as [s|tag a cs IH] using node_ind'.
  { by intros ?%elem_of_nil. }
  rewrite !elem_of_descendants. intros (c & Hc & [->|Hm]).
  - exists c. split; [done|]. by right.
  - exists c. split; [done|]. right.
    rewrite Forall_forall in IH. by apply (IH c).
Qed.

Lemma within_trans k m n : within k m → within m n → within k n.
Proof.
  intros [->|Hk] [->|Hm]; unfold within; eauto using descendants_trans.
Qed.

Lemma elem_of_xpath_desc n tag ps ctx :
  n ∈ xpath_desc tag ps ctx ↔ matches tag ps n ∧ n ∈ descendants ctx.
Proof. unfold xpath_desc. by rewrite list_elem_of_filter. Qed.

Lemma elem_of_xpath_root n tag ps tree :
  n ∈ xpath_root tag ps tree ↔ matches tag ps n ∧ within n tree.
Proof.
  unfold xpath_root, within. by rewrite list_elem_of_filter, elem_of_cons.
Qed.

Lemma elem_of_xpath_child n tag ctx :
  n ∈ xpath_child tag ctx ↔ matches tag [] n ∧ n ∈ children_of ctx.
Proof. unfold xpath_child. by rewrite list_elem_of_filter. Qed.

Lemma children_descendants c n : c ∈ children_of n → c ∈ descendants n.
Proof.
  destruct n as [tag a cs|s]; [|by intros ?%elem_of_nil].
  intros Hc. apply elem_of_descendants. exists c. split; [done|by left].
Qed.

(** The results of a query come in document order. *)
Lemma xpath_desc_sublist tag ps ctx :
  xpath_desc tag ps ctx `sublist_of` descendants ctx.
Proof. apply sublist_filter. Qed.

Lemma matches_tag tag ps n :
  matches tag ps n → ∃ a cs, n = Element tag a cs.
Proof.
  destruct n as [t a cs|s]; simpl; [|done].
  intros [->%bool_decide_unpack _]%andb_prop_elim. eauto.
Qed.

Lemma find_desc_Some tag ctx n :
  find_desc tag ctx = Some n → matches tag [] n ∧ n ∈ descendants ctx.
Proof.
  unfold find_desc. intros H%head_Some_elem_of.
  by apply elem_of_xpath_desc.
Qed.

Lemma find_desc_None tag ctx :
  find_desc tag ctx = None ↔ xpath_desc tag [] ctx = [].
Proof. unfold find_desc. apply head_None. Qed.
