(* ===== verification/XPath.v ===== *)
(** * XPath: location paths and their evaluation

    The program navigates the pages with the XPath expressions of lines
    55-58, 64, 69, 88-91, 94, 98, 102 and 108, and with the ElementPath
    expression of line 104. [Html] gives each shape of query its own
    function; this file is the reference that they are judged against: a
    location path is evaluated step by step on node sets ([eval]), as
    XPath 1.0 defines it. [Paths] reads the paths from their text.

    A node set is a list of nodes with their positions in document order,
    without duplicates ([normalise]). The position of a node is the list of
    the child indices on the way from the context node ([atpos]); document
    order is the lexicographic order of the positions. The axes are the
    four that lead downwards from the context node ([Self], [Child],
    [Descendant], [DescendantOrSelf]) and the attribute axis as the last
    step of a path; with these, a query sees the subtree of its context
    node only. The predicates are those of [Html.predicate]. *)

From stdpp Require Import lexico sorting sets.
From S2P Require Import Prelude PyStr Html.

(** ** Positions and document order *)

Definition position : Type := list nat.

(** A node and its position below the context node. *)
Definition located : Type := position * node.

(** The node at a position. *)
Fixpoint atpos (n : node) (p : position) : option node :=
  match p with
  | [] => Some n
  | i :: p' => c ← children_of n !! i; atpos c p'
  end.

(** [x] one level down, below child [i]. *)
Definition below (i : nat) (x : located) : located := (i :: x.1, x.2).

(** [x] seen from a node of which the context node of [x] is the node at
    [p]. *)
Definition under (p : position) (x : located) : located := (p ++ x.1, x.2).

(** The children from index [i] on, each followed by what [f] finds below
    it. *)
Fixpoint enumerate (f : node → list located) (i : nat) (cs : list node)
    : list located :=
  match cs with
  | [] => []
  | c :: cs' => (([i], c) :: (below i <$> f c)) ++ enumerate f (S i) cs'
  end.

(** The proper descendants of a node with their positions, in document
    order. *)
Fixpoint locate (n : node) : list located :=
  match n with
  | Text _ => []
  | Element _ _ cs =>
      (fix go (i : nat) (cs : list node) : list located :=
         match cs with
         | [] => []
         | c :: cs' => (([i], c) :: (below i <$> locate c)) ++ go (S i) cs'
         end) 0 cs
  end.

(** [x] comes before [y] in document order. *)
Definition before (x y : located) : Prop := lexico x.1 y.1.

(** A list of nodes in document order, without duplicates. *)
Definition ordered (l : list located) : Prop := StronglySorted before l.

(** Every node of the list is the node of the tree at its position. *)
Definition coherent (n : node) (l : list located) : Prop :=
  Forall (λ x, atpos n x.1 = Some x.2) l.

(** [x] added to a node set. *)
Fixpoint insert_node (x : located) (l : list located) : list located :=
  match l with
  | [] => [x]
  | y :: l' =>
      match trichotomyT lexico x.1 y.1 with
      | inleft (left _) => x :: l
      | inleft (right _) => l
      | inright _ => y :: insert_node x l'
      end
  end.

(** The node set of a list of nodes. *)
Definition normalise (l : list located) : list located :=
  foldr insert_node [] l.

(** ** Location paths *)

Variant axis : Set := Self | Child | Descendant | DescendantOrSelf.

Variant node_test : Set :=
  | NameTest (tag : string)     (* [tag] *)
  | AnyNode.                    (* [node()] *)

Record location_step : Set := Step {
  step_axis : axis;
  step_test : node_test;
  step_predicates : list predicate
}.

(** A location path, and a location path followed by [/@name]. *)
Inductive query : Set :=
  | Select (absolute : bool) (steps : list location_step)
  | SelectAttr (absolute : bool) (steps : list location_step) (name : string).

(** What a query returns: elements and text nodes, or the values of
    attributes. *)
Inductive item : Type :=
  | INode (n : node)
  | IString (s : string).

(** ** Evaluation *)

(** The children of a node with their positions. *)
Definition offspring (n : node) : list located :=
  imap (λ i c, ([i], c)) (children_of n).

(** The nodes on an axis from [x], in document order. *)
Definition axis_nodes (a : axis) (x : located) : list located :=
  match a with
  | Self => [x]
  | Child => under x.1 <$> offspring x.2
  | Descendant => under x.1 <$> locate x.2
  | DescendantOrSelf => x :: (under x.1 <$> locate x.2)
  end.

Definition test_holds (t : node_test) (n : node) : bool :=
  match t with
  | NameTest tag =>
      match n with
      | Element t' _ _ => bool_decide (t' = tag)
      | Text _ => false
      end
  | AnyNode => true
  end.

(** The node passes the test and the predicates of the step. *)
Definition selects (st : location_step) (x : located) : bool :=
  test_holds (step_test st) x.2
  && forallb (λ p, holds p x.2) (step_predicates st).

(** The nodes that a step selects from the nodes of [l], before they are
    put in order. *)
Definition candidates (st : location_step) (l : list located) : list located :=
  x ← l; filter (λ y, selects st y) (axis_nodes (step_axis st) x).

(** One step from every node of a node set. *)
Definition eval_step (st : location_step) (l : list located) : list located :=
  normalise (candidates st l).

(** The steps of a path, from the node set [l]. *)
Definition eval_steps (steps : list location_step) (l : list located)
    : list located :=
  foldl (λ l st, eval_step st l) l steps.

(** The document node above the root element. It has no name. *)
Definition document (tree : node) : node := Element "" [] [tree].

(** The node set that a path starts from: the context node, or the
    document node of the tree when the path is absolute. *)
Definition start (absolute : bool) (ctx : node) : list located :=
  [([], if absolute then document ctx else ctx)].

Definition eval (q : query) (ctx : node) : list item :=
  match q with
  | Select absolute steps =>
      INode <$> (eval_steps steps (start absolute ctx)).*2
  | SelectAttr absolute steps name =>
      IString <$> omap (get_attr name)
                    (eval_steps steps (start absolute ctx)).*2
  end.

(** [//] between two steps. *)
Definition descend : location_step := Step DescendantOrSelf AnyNode [].

(** [.] *)
Definition self : location_step := Step Self AnyNode [].

(** The context node and its descendants, in document order. *)
Definition whole (n : node) : list located := ([], n) :: locate n.

(** ** A cell with two anchors *)

Module XPathFixture.

Definition a1 : node := Element "a" [("href", "/one")] [Text "one"].
Definition a2 : node := Element "a" [("href", "/two")] [Text "two"].

(** The second anchor comes first in the document, one level deeper. *)
Definition cell : node :=
  Element "td" [] [Element "span" [] [a2]; Text " or "; a1].

End XPathFixture.

(** ** Document order *)

Lemma lexico_cons (i j : nat) (p q : position) :
  lexico (i :: p) (j :: q) ↔ i < j ∨ i = j ∧ lexico p q.
Proof. done. Qed.

Lemma lexico_nil_l (p : position) : lexico [] p ↔ p ≠ [].
Proof. destruct p; [split; [intros []|naive_solver]|by split]. Qed.

Lemma lexico_nil_r (p : position) : ¬ lexico p [].
Proof. destruct p; intros []. Qed.

Lemma lexico_app (p q r : position) : lexico (p ++ q) (p ++ r) ↔ lexico q r.
Proof.
  induction p as [|i p IH]; [done|]. cbn [app]. rewrite lexico_cons, IH.
  split; [intros [?|[_ ?]]; [lia|done]|auto].
Qed.

#[export] Instance before_strict : StrictOrder before.
Proof.
  split.
  - intros x. exact (irreflexivity (lexico : relation position) x.1).
  - intros x y z. unfold before. apply transitivity.
Qed.

#[export] Instance before_antisymm : AntiSymm (=) before.
Proof.
  intros x y Hxy Hyx. destruct (irreflexivity before x). by trans y.
Qed.

Lemma before_below i x y : before (below i x) (below i y) ↔ before x y.
Proof. unfold before, below. cbn [fst]. rewrite lexico_cons. intuition lia. Qed.

Lemma before_under p x y : before (under p x) (under p y) ↔ before x y.
Proof. apply lexico_app. Qed.

Lemma ordered_NoDup l : ordered l → NoDup l.
Proof.
  induction 1 as [|x l _ IH Hx]; constructor; [|done].
  intros Hin. rewrite Forall_forall in Hx.
  by destruct (irreflexivity before x); apply Hx.
Qed.

(** Two node sets with the same nodes are the same list. *)
Lemma ordered_unique l1 l2 :
  ordered l1 → ordered l2 → (∀ x, x ∈ l1 ↔ x ∈ l2) → l1 = l2.
Proof.
  intros H1 H2 Hiff. apply (StronglySorted_unique before); [done..|].
  by apply NoDup_Permutation; [apply ordered_NoDup..|].
Qed.

Lemma ordered_filter (f : located → bool) l :
  ordered l → ordered (filter (λ x, f x) l).
Proof.
  induction 1 as [|x l _ IH Hx]; [constructor|]. rewrite filter_cons.
  destruct (decide _); [|done]. constructor; [done|].
  rewrite Forall_forall in Hx. apply Forall_forall.
  intros y [_ Hy]%list_elem_of_filter. auto.
Qed.

(** A node set within another one is a sublist of it. *)
Lemma ordered_sublist l s : ordered l → ordered s → l ⊆ s → l `sublist_of` s.
Proof.
  intros Hl Hs. revert l Hl. induction Hs as [|z s _ IH Hz]; intros l Hl Hsub.
  { destruct l as [|y l]; [done|].
    by destruct (not_elem_of_nil y); apply Hsub; left. }
  destruct Hl as [|y l Hl Hy]; [apply sublist_nil_l|].
  rewrite Forall_forall in Hy, Hz.
  assert (l ⊆ s) as Hrest.
  { intros x Hx. assert (x ∈ z :: s) as [->|?]%elem_of_cons; [|..|done].
    - apply Hsub. by right.
    - destruct (irreflexivity before z). trans y; [|by apply Hy].
      assert (y ∈ z :: s) as [->|?]%elem_of_cons; [apply Hsub; by left|..].
      + by destruct (irreflexivity before z); apply Hy.
      + by apply Hz. }
  assert (y ∈ z :: s) as [->|Hin]%elem_of_cons by (apply Hsub; by left).
  - apply sublist_skip. by apply IH.
  - apply sublist_cons, IH; [by constructor; [|apply Forall_forall]|].
    intros x [->|?]%elem_of_cons; [done|by apply Hrest].
Qed.

Lemma ordered_fmap (f : located → located) l :
  (∀ x y, before x y → before (f x) (f y)) → ordered l → ordered (f <$> l).
Proof. apply StronglySorted_fmap. Qed.

(** ** The nodes of a tree *)

Lemma locate_Element tag a cs :
  locate (Element tag a cs) = enumerate locate 0 cs.
Proof.
  cbn [locate]. generalize 0.
  induction cs as [|c cs IH]; intros i; [done|]. cbn [enumerate]. by rewrite IH.
Qed.

Lemma elem_of_enumerate f i cs x :
  x ∈ enumerate f i cs ↔
  ∃ j c, cs !! j = Some c
         ∧ (x = ([i + j], c) ∨ ∃ y, y ∈ f c ∧ x = below (i + j) y).
Proof.
  revert i. induction cs as [|c cs IH]; intros i; cbn [enumerate].
  { split; [by intros ?%elem_of_nil|by intros (j & c & ? & _)]. }
  rewrite elem_of_app, elem_of_cons, list_elem_of_fmap, IH. split.
  - intros [[->|(y & -> & Hy)]|(j & c' & Hj & H)].
    + exists 0, c. rewrite Nat.add_0_r. eauto.
    + exists 0, c. rewrite Nat.add_0_r. eauto.
    + exists (S j), c'. by rewrite <- Nat.add_succ_comm.
  - intros ([|j] & c' & Hj & H).
    + left. injection Hj as <-. rewrite Nat.add_0_r in H.
      destruct H as [->|(y & ? & ->)]; eauto.
    + right. exists j, c'. by rewrite Nat.add_succ_comm.
Qed.

(** The nodes that [locate] lists are the nodes at the positions that are
    not empty. *)
Lemma elem_of_locate n x :
  x ∈ locate n ↔ x.1 ≠ [] ∧ atpos n x.1 = Some x.2.
Proof.
  revert x. induction n as [s|tag a cs IH] using node_ind'; intros [p m];
    cbn [fst snd].
  { split; [by intros ?%elem_of_nil|]. intros [Hp H]. by destruct p. }
  rewrite locate_Element, elem_of_enumerate. rewrite Forall_forall in IH. split.
  - intros (j & c & Hj & [[= -> ->]|(y & Hy & [= -> ->])]); cbn.
    + by rewrite Hj.
    + apply IH in Hy as [Hne Hat]; [|by eapply list_elem_of_lookup_2].
      by rewrite Hj.
  - intros [Hp H]. destruct p as [|j p]; [done|]. cbn in H.
    destruct (cs !! j) as [c|] eqn:Hj; [|done]. exists j, c. split; [done|].
    destruct p as [|k p]; [left; by injection H as ->|].
    right. exists (k :: p, m). split; [|done].
    apply IH; [by eapply list_elem_of_lookup_2|done].
Qed.

Lemma enumerate_nodes i cs :
  Forall (λ c, (locate c).*2 = descendants c) cs →
  (enumerate locate i cs).*2 = flat_map (λ c, c :: descendants c) cs.
Proof.
  intros H. revert i. induction H as [|c cs Hc _ IH]; intros i; [done|].
  cbn [enumerate flat_map]. rewrite fmap_app, fmap_cons, IH, <- Hc.
  by rewrite <- list_fmap_compose.
Qed.

(** [locate] lists the descendants. *)
Lemma locate_nodes n : (locate n).*2 = descendants n.
Proof.
  induction n as [s|tag a cs IH] using node_ind'; [done|].
  rewrite locate_Element, descendants_Element. by apply enumerate_nodes.
Qed.

Lemma enumerate_ordered i cs :
  Forall (λ c, ordered (locate c)) cs → ordered (enumerate locate i cs).
Proof.
  intros H. revert i. induction H as [|c cs Hc _ IH]; intros i; [constructor|].
  cbn [enumerate]. apply StronglySorted_app_2; [|constructor|apply IH].
  - intros x y Hx (j & c' & _ & Hy)%elem_of_enumerate.
    assert (∃ p, x.1 = i :: p) as [p Hp].
    { apply elem_of_cons in Hx as [->|(z & -> & _)%list_elem_of_fmap]; eauto. }
    assert (∃ q, y.1 = (S i + j) :: q) as [q Hq].
    { destruct Hy as [->|(z & _ & ->)]; eauto. }
    unfold before. rewrite Hp, Hq, lexico_cons. lia.
  - by apply ordered_fmap; [intros ???; apply before_below|].
  - apply Forall_fmap, Forall_forall. intros y [Hy _]%elem_of_locate.
    unfold before, below, compose. cbn [fst]. rewrite lexico_cons. right.
    by rewrite lexico_nil_l.
Qed.

(** [locate] lists them in document order. *)
Lemma locate_ordered n : ordered (locate n).
Proof.
  induction n as [s|tag a cs IH] using node_ind'; [constructor|].
  rewrite locate_Element. by apply enumerate_ordered.
Qed.

Lemma atpos_app n p q : atpos n (p ++ q) = atpos n p ≫= λ m, atpos m q.
Proof.
  revert n. induction p as [|i p IH]; intros n; [done|]. cbn.
  destruct (children_of n !! i); cbn; auto.
Qed.

Lemma elem_of_whole n x : x ∈ whole n ↔ atpos n x.1 = Some x.2.
Proof.
  unfold whole. rewrite elem_of_cons, elem_of_locate. destruct x as [[|i p] m].
  - cbn. split; [by intros [[= ->]|[]]|by intros [= ->]; left].
  - split; [by intros [|[]]|by right].
Qed.

Lemma whole_ordered n : ordered (whole n).
Proof.
  constructor; [apply locate_ordered|]. apply Forall_forall.
  intros y [Hy _]%elem_of_locate. by apply lexico_nil_l.
Qed.

Lemma whole_nodes n : (whole n).*2 = n :: descendants n.
Proof. unfold whole. by rewrite fmap_cons, locate_nodes. Qed.

Lemma document_nodes tree :
  descendants (document tree) = tree :: descendants tree.
Proof.
  unfold document. rewrite descendants_Element, bind_cons. apply app_nil_r.
Qed.

(** ** Node sets *)

Lemma elem_of_insert_node x l y : y ∈ insert_node x l → y = x ∨ y ∈ l.
Proof.
  induction l as [|z l IH]; cbn [insert_node]; [set_solver|].
  destruct (trichotomyT lexico x.1 z.1) as [[?|?]|?]; set_solver.
Qed.

Lemma insert_node_ordered x l : ordered l → ordered (insert_node x l).
Proof.
  induction 1 as [|z l Hl IH Hz]; cbn [insert_node]; [by repeat constructor|].
  destruct (trichotomyT lexico x.1 z.1) as [[Hlt|?]|Hgt]; [|by constructor|].
  - repeat constructor; [done..|].
    eapply Forall_impl; [done|]. intros y. by trans z.
  - constructor; [done|]. apply Forall_forall.
    intros y [->|Hy]%elem_of_insert_node; [done|].
    rewrite Forall_forall in Hz. auto.
Qed.

Lemma normalise_ordered l : ordered (normalise l).
Proof.
  induction l; [constructor|]. by apply insert_node_ordered.
Qed.

Lemma normalise_subseteq l : normalise l ⊆ l.
Proof.
  induction l as [|x l IH]; [done|]. intros y.
  intros [->|?]%elem_of_insert_node; set_solver.
Qed.

Section coherent.
Context (n : node).

Lemma coherent_subseteq l k : l ⊆ k → coherent n k → coherent n l.
Proof. unfold coherent. rewrite !Forall_forall. auto. Qed.

Lemma coherent_eq l x y : coherent n l → x ∈ l → y ∈ l → x.1 = y.1 → x = y.
Proof.
  unfold coherent. rewrite Forall_forall. intros H Hx%H Hy%H Heq.
  destruct x, y; cbn in *; subst. congruence.
Qed.

Lemma elem_of_insert_coherent x l y :
  coherent n (x :: l) → y ∈ insert_node x l ↔ y = x ∨ y ∈ l.
Proof.
  intros H. split; [apply elem_of_insert_node|].
  induction l as [|z l IH]; cbn [insert_node]; [set_solver|].
  destruct (trichotomyT lexico x.1 z.1) as [[?|Heq]|?]; [set_solver| |].
  - apply (coherent_eq _ x z H) in Heq as ->; set_solver.
  - intros [->|[->|?]%elem_of_cons]; [|set_solver|].
    + right. apply IH; [|by left].
      eapply coherent_subseteq; [|done]. set_solver.
    + right. apply IH; [|by right].
      eapply coherent_subseteq; [|done]. set_solver.
Qed.

(** Normalising keeps the nodes. *)
Lemma elem_of_normalise l y : coherent n l → y ∈ normalise l ↔ y ∈ l.
Proof.
  intros H. split; [apply normalise_subseteq|].
  induction l as [|x l IH]; [done|]. cbn [normalise foldr].
  intros Hy. apply elem_of_insert_coherent.
  - eapply coherent_subseteq; [|done].
    pose proof (normalise_subseteq l). set_solver.
  - apply elem_of_cons in Hy as [->|?]; [by left|right].
    apply IH; [|done]. eapply coherent_subseteq; [|done]. set_solver.
Qed.

Lemma normalise_coherent l : coherent n l → coherent n (normalise l).
Proof. apply coherent_subseteq, normalise_subseteq. Qed.

(** The node set of a list is the list in document order that has its
    nodes. *)
Lemma normalise_unique l s :
  coherent n l → ordered s → (∀ x, x ∈ l ↔ x ∈ s) → normalise l = s.
Proof.
  intros Hl Hs Hiff. apply ordered_unique; [apply normalise_ordered|done|].
  intros x. by rewrite elem_of_normalise.
Qed.

Lemma normalise_id l : coherent n l → ordered l → normalise l = l.
Proof. intros. by apply normalise_unique. Qed.

End coherent.

(** ** Steps *)

Lemma under_nil (l : list located) : under [] <$> l = l.
Proof.
  rewrite <- (list_fmap_id l) at 2. apply list_fmap_ext. by intros ? [].
Qed.

Lemma filter_all {A} (f : A → bool) (l : list A) :
  (∀ x, f x = true) → filter (λ x, f x) l = l.
Proof.
  intros Hf. induction l as [|x l IH]; [done|].
  rewrite filter_cons, IH. destruct (decide _) as [|[]]; [done|].
  by rewrite Hf.
Qed.

Lemma elem_of_offspring m x :
  x ∈ offspring m ↔ ∃ i, x.1 = [i] ∧ children_of m !! i = Some x.2.
Proof.
  unfold offspring. rewrite elem_of_lookup_imap. split.
  - intros (i & c & -> & Hi). eauto.
  - intros (i & Hx & Hi). exists i, x.2. split; [|done].
    destruct x. cbn in *. by subst.
Qed.

Lemma offspring_nodes m : (offspring m).*2 = children_of m.
Proof.
  unfold offspring. rewrite fmap_imap. generalize (children_of m).
  intros l. rewrite <- (list_fmap_id l) at 2. by rewrite <- imap_const.
Qed.

Lemma offspring_ordered m : ordered (offspring m).
Proof.
  unfold offspring. generalize (children_of m). intros l.
  assert (∀ k, ordered (imap (λ i c, ([k + i], c)) l)) as H; [|apply (H 0)].
  induction l as [|c l IH]; intros k; [constructor|]. cbn [imap].
  constructor.
  - rewrite (imap_ext _ (λ i c, ([S k + i], c))); [apply IH|].
    intros i x _. cbn. by rewrite Nat.add_succ_r.
  - apply Forall_forall. intros y (i & x & -> & _)%elem_of_lookup_imap.
    unfold before, compose. cbn [fst]. rewrite lexico_cons. lia.
Qed.

Lemma offspring_coherent m : coherent m (offspring m).
Proof.
  apply Forall_forall. intros [q c] (i & Hy & Hi)%elem_of_offspring.
  cbn in *. subst q. cbn. by rewrite Hi.
Qed.

(** Every node below [n] is a child of [n] or of a node below [n]. *)
Lemma elem_of_locate_parent n y :
  y ∈ locate n ↔ ∃ x z, x ∈ whole n ∧ z ∈ offspring x.2 ∧ y = under x.1 z.
Proof.
  rewrite elem_of_locate. split.
  - destruct y as [q m]. cbn [fst snd]. intros [Hq Hat].
    destruct q as [|i p _] using rev_ind; [done|].
    rewrite atpos_app in Hat. destruct (atpos n p) as [m'|] eqn:Hp; [|done].
    cbn in Hat. exists (p, m'), ([i], m). rewrite elem_of_whole.
    split_and!; [done| |done]. apply elem_of_offspring. exists i.
    split; [done|]. cbn. by destruct (children_of m' !! i).
  - intros (x & [q m] & Hx%elem_of_whole & (i & Hz & Hi)%elem_of_offspring
            & ->). cbn [fst snd] in Hz, Hi. subst q.
    unfold under. cbn [fst snd]. rewrite atpos_app, Hx. cbn. rewrite Hi.
    split; [by destruct (x.1)|done].
Qed.

Lemma candidates_singleton st x :
  candidates st [x] = filter (λ y, selects st y) (axis_nodes (step_axis st) x).
Proof. unfold candidates. rewrite bind_cons. apply app_nil_r. Qed.

Section steps.
Context (n : node).

Lemma coherent_under p m l :
  atpos n p = Some m → coherent m l → coherent n (under p <$> l).
Proof.
  intros Hp Hl. unfold coherent in *. rewrite Forall_fmap.
  eapply Forall_impl; [done|]. intros x Hx. cbn. by rewrite atpos_app, Hp.
Qed.

Lemma whole_coherent : coherent n (whole n).
Proof. apply Forall_forall. intros x. by rewrite elem_of_whole. Qed.

Lemma locate_coherent : coherent n (locate n).
Proof. apply Forall_forall. by intros x [_ ?]%elem_of_locate. Qed.

Lemma axis_nodes_coherent a x :
  atpos n x.1 = Some x.2 → coherent n (axis_nodes a x).
Proof.
  intros Hx. assert (coherent n (under x.1 <$> locate x.2)) as Hbelow.
  { eapply coherent_under; [done|]. apply Forall_forall.
    by intros y [_ ?]%elem_of_locate. }
  destruct a; cbn [axis_nodes]; [by repeat constructor| |done|by constructor].
  eapply coherent_under; [done|apply offspring_coherent].
Qed.

Lemma candidates_coherent st l :
  coherent n l → coherent n (candidates st l).
Proof.
  intros Hl. apply Forall_forall.
  intros y (x & [_ Hy]%list_elem_of_filter & Hx)%list_elem_of_bind.
  unfold coherent in Hl. rewrite Forall_forall in Hl. specialize (Hl _ Hx).
  pose proof (axis_nodes_coherent (step_axis st) x Hl) as H.
  unfold coherent in H. rewrite Forall_forall in H. auto.
Qed.

Lemma eval_step_coherent st l : coherent n l → coherent n (eval_step st l).
Proof. intros. by apply normalise_coherent, candidates_coherent. Qed.

Lemma eval_steps_coherent steps l :
  coherent n l → coherent n (eval_steps steps l).
Proof.
  revert l. induction steps as [|st steps IH]; intros l Hl; [done|].
  by apply IH, eval_step_coherent.
Qed.

Lemma eval_steps_ordered steps l : ordered l → ordered (eval_steps steps l).
Proof.
  revert l. induction steps as [|st steps IH]; intros l Hl; [done|].
  apply IH, normalise_ordered.
Qed.

(** [.] keeps a node set. *)
Lemma eval_self l : coherent n l → ordered l → eval_step self l = l.
Proof.
  intros Hl Ho. unfold eval_step. replace (candidates self l) with l;
    [by apply (normalise_id n)|].
  unfold candidates. clear. induction l as [|x l IH]; [done|].
  by rewrite bind_cons, <- IH.
Qed.

(** [//] from the context node reaches the node and what is below it. *)
Lemma eval_descend : eval_step descend [([], n)] = whole n.
Proof.
  unfold eval_step. rewrite candidates_singleton.
  cbn [axis_nodes step_axis descend fst snd].
  rewrite (filter_all (selects descend)) by done. rewrite under_nil.
  apply (normalise_id n); [apply whole_coherent|apply whole_ordered].
Qed.

(** A step along the child axis from the node and all that is below it
    selects among what is below it. *)
Lemma eval_child_whole st :
  step_axis st = Child →
  eval_step st (whole n) = filter (λ y, selects st y) (locate n).
Proof.
  intros Hax. apply (normalise_unique n).
  - apply candidates_coherent, whole_coherent.
  - apply ordered_filter, locate_ordered.
  - intros y. unfold candidates. rewrite list_elem_of_bind, list_elem_of_filter.
    rewrite elem_of_locate_parent, Hax. cbn [axis_nodes]. split.
    + intros (x & [Hsel (z & -> & Hz)%list_elem_of_fmap]%list_elem_of_filter
              & Hx). eauto 6.
    + intros [Hsel (x & z & Hx & Hz & ->)]. exists x. split; [|done].
      apply list_elem_of_filter. split; [done|].
      apply list_elem_of_fmap. eauto.
Qed.

(** A step along the child axis from the context node selects among its
    children. *)
Lemma eval_child st :
  step_axis st = Child →
  eval_step st [([], n)] = filter (λ y, selects st y) (offspring n).
Proof.
  intros Hax. unfold eval_step.
  rewrite candidates_singleton, Hax. cbn [axis_nodes fst snd].
  rewrite under_nil. apply (normalise_id n).
  - eapply coherent_subseteq; [|apply offspring_coherent].
    by intros y [_ ?]%list_elem_of_filter.
  - apply ordered_filter, offspring_ordered.
Qed.

End steps.

Lemma selects_matches a tag ps x :
  selects (Step a (NameTest tag) ps) x = matches tag ps x.2.
Proof. by destruct x as [p [t attrib cs|data]]. Qed.

Lemma start_coherent (absolute : bool) ctx :
  coherent (if absolute then document ctx else ctx) (start absolute ctx).
Proof. by repeat constructor. Qed.

Lemma start_ordered absolute ctx : ordered (start absolute ctx).
Proof. by repeat constructor. Qed.

(** ** The queries of [Html] *)

(** [.//step] selects among the descendants of the context node. *)
Lemma eval_below ctx st :
  step_axis st = Child →
  eval_steps [self; descend; st] (start false ctx)
  = filter (λ y, selects st y) (locate ctx).
Proof.
  intros Hax. unfold start. cbn [eval_steps foldl].
  rewrite (eval_self ctx), eval_descend by by repeat constructor.
  by apply eval_child_whole.
Qed.

(** [//step] selects among the elements of the document. *)
Lemma eval_anywhere tree st :
  step_axis st = Child →
  eval_steps [descend; st] (start true tree)
  = filter (λ y, selects st y) (locate (document tree)).
Proof.
  intros Hax. unfold start. cbn [eval_steps foldl]. rewrite eval_descend.
  by apply eval_child_whole.
Qed.

(** [./step] selects among the children of the context node. *)
Lemma eval_children ctx st :
  step_axis st = Child →
  eval_steps [self; st] (start false ctx)
  = filter (λ y, selects st y) (offspring ctx).
Proof.
  intros Hax. unfold start. cbn [eval_steps foldl].
  rewrite (eval_self ctx) by by repeat constructor. by apply eval_child.
Qed.

(** The nodes that a name test with predicates selects from a list. *)
Lemma selected_nodes a tag ps (l : list located) :
  (filter (λ y, selects (Step a (NameTest tag) ps) y) l).*2
  = filter (λ m, matches tag ps m) l.*2.
Proof.
  induction l as [|x l IH]; [done|].
  rewrite fmap_cons, !filter_cons, selects_matches.
  destruct (decide (matches tag ps x.2)); [rewrite fmap_cons; f_equal|];
    exact IH.
Qed.

Lemma eval_desc tag ps ctx :
  eval (Select false [self; descend; Step Child (NameTest tag) ps]) ctx
  = INode <$> xpath_desc tag ps ctx.
Proof.
  cbn [eval]. rewrite eval_below by done.
  rewrite selected_nodes. f_equal.
  by rewrite locate_nodes.
Qed.

Lemma eval_root tag ps tree :
  eval (Select true [descend; Step Child (NameTest tag) ps]) tree
  = INode <$> xpath_root tag ps tree.
Proof.
  cbn [eval]. rewrite eval_anywhere by done.
  rewrite selected_nodes. f_equal.
  by rewrite locate_nodes, document_nodes.
Qed.

Lemma eval_child_named tag ctx :
  eval (Select false [self; Step Child (NameTest tag) []]) ctx
  = INode <$> xpath_child tag ctx.
Proof.
  cbn [eval]. rewrite eval_children by done.
  rewrite selected_nodes. f_equal.
  by rewrite offspring_nodes.
Qed.

Lemma eval_desc_attr tag name ctx :
  eval (SelectAttr false [self; descend; Step Child (NameTest tag) []] name)
    ctx
  = IString <$> xpath_desc_attr tag name ctx.
Proof.
  cbn [eval]. rewrite eval_below by done. rewrite selected_nodes.
  by rewrite locate_nodes.
Qed.

(** Whatever the steps of a path, the nodes that it selects are nodes of
    the tree it starts from, each at its position, in document order and
    without duplicates. *)
Lemma eval_steps_sublist (absolute : bool) steps ctx :
  eval_steps steps (start absolute ctx)
  `sublist_of` whole (if absolute then document ctx else ctx).
Proof.
  apply ordered_sublist; [|apply whole_ordered|].
  - apply eval_steps_ordered, start_ordered.
  - pose proof (eval_steps_coherent _ steps _ (start_coherent absolute ctx))
      as H.
    unfold coherent in H. rewrite Forall_forall in H.
    intros x Hx. by apply elem_of_whole, H.
Qed.

(** ** The theorems *)


(** ** Examples *)

(** The anchors are met as children of the cell, then of the span: the
    candidates of the last step are not in document order, the node set
    is. *)
Example document_order :
  let st := Step Child (NameTest "a") [] in
  (candidates st (whole XPathFixture.cell)).*2
  = [XPathFixture.a1; XPathFixture.a2]
  ∧ (eval_step st (whole XPathFixture.cell)).*2
    = [XPathFixture.a2; XPathFixture.a1].
Proof. by vm_compute. Qed.
