(* ===== verification/Paths.v ===== *)
(** * Paths: the text of the XPath expressions

    [el.xpath(text)] and [el.find(text)]: the text is cut into tokens
    ([lex]), the tokens are read as a location path in abbreviated syntax
    ([parse_path]), and the path is evaluated by [XPath.eval]. A text that
    is not an expression of the subset raises [XPathEvalError]. [print] is
    the text of a path; [read] reads it back. *)

From S2P Require Import Prelude PyStr Html XPath.

(** ** The text of an expression *)

Inductive token : Set :=
  | TSlash | TSlashSlash | TDot | TAt
  | TLBracket | TRBracket | TLParen | TRParen | TComma | TEq
  | TName (s : string)
  | TLiteral (s : string).

Definition name_start (c : ascii) : bool :=
  let n := nat_of_ascii c in
  ((65 <=? n) && (n <=? 90)) || ((97 <=? n) && (n <=? 122)) || (n =? 95).

Definition name_char (c : ascii) : bool :=
  let n := nat_of_ascii c in
  name_start c || ((48 <=? n) && (n <=? 57)) || (n =? 45).

(** White space between tokens: space, tab, line feed, carriage return. *)
Definition xpath_space (c : ascii) : bool :=
  let n := nat_of_ascii c in (n =? 32) || (n =? 9) || (n =? 10) || (n =? 13).

(** What the lexer is in the middle of. *)
Inductive lex_state : Set :=
  | LIdle
  | LSlash                                  (* after [/] *)
  | LName (acc : string)                    (* in a name *)
  | LLiteral (q : ascii) (acc : string).    (* in a literal opened by [q] *)

Definition snoc (s : string) (c : ascii) : string := s +:+ String c "".

(** A character that starts a token. *)
Definition lex_idle (c : ascii) : option (list token * lex_state) :=
  let n := nat_of_ascii c in
  if xpath_space c then Some ([], LIdle)
  else if n =? 47 then Some ([], LSlash)
  else if n =? 46 then Some ([TDot], LIdle)
  else if n =? 64 then Some ([TAt], LIdle)
  else if n =? 91 then Some ([TLBracket], LIdle)
  else if n =? 93 then Some ([TRBracket], LIdle)
  else if n =? 40 then Some ([TLParen], LIdle)
  else if n =? 41 then Some ([TRParen], LIdle)
  else if n =? 44 then Some ([TComma], LIdle)
  else if n =? 61 then Some ([TEq], LIdle)
  else if (n =? 34) || (n =? 39) then Some ([], LLiteral c "")
  else if name_start c then Some ([], LName (String c ""))
  else None.

(** One character: the tokens that it completes and the next state. *)
Definition lex_char (st : lex_state) (c : ascii)
    : option (list token * lex_state) :=
  match st with
  | LIdle => lex_idle c
  | LSlash =>
      if nat_of_ascii c =? 47 then Some ([TSlashSlash], LIdle)
      else '(ts, st') ← lex_idle c; Some (TSlash :: ts, st')
  | LName acc =>
      if name_char c then Some ([], LName (snoc acc c))
      else '(ts, st') ← lex_idle c; Some (TName acc :: ts, st')
  | LLiteral q acc =>
      if decide (c = q) then Some ([TLiteral acc], LIdle)
      else Some ([], LLiteral q (snoc acc c))
  end.

(** The end of the text. *)
Definition lex_end (st : lex_state) : option (list token) :=
  match st with
  | LIdle => Some []
  | LSlash => Some [TSlash]
  | LName acc => Some [TName acc]
  | LLiteral _ _ => None
  end.

Fixpoint lex_from (st : lex_state) (s : string) : option (list token) :=
  match s with
  | EmptyString => lex_end st
  | String c s' =>
      '(ts, st') ← lex_char st c; rest ← lex_from st' s'; Some (ts ++ rest)
  end.

Definition lex : string → option (list token) := lex_from LIdle.

Definition conj (acc : option predicate) (p : predicate) : predicate :=
  match acc with Some q => And q p | None => p end.

Definition add_predicate (st : location_step) (p : predicate) : location_step :=
  Step (step_axis st) (step_test st) (step_predicates st ++ [p]).

(** What the parser has read. *)
Inductive parse_state : Set :=
  | PStep (steps : list location_step)                       (* a separator *)
  (* a step *)
  | PAfter (steps : list location_step) (cur : location_step)
  (* an opening bracket or [and] inside a predicate *)
  | PPred (steps : list location_step) (cur : location_step)
      (acc : option predicate).

(** The steps of a path and what follows them. *)
Fixpoint parse_from (absolute : bool) (st : parse_state) (ts : list token)
    : option query :=
  match st, ts with
  (* a step *)
  | PStep steps, TDot :: ts' => parse_from absolute (PAfter steps self) ts'
  | PStep steps, TName tag :: ts' =>
      parse_from absolute (PAfter steps (Step Child (NameTest tag) [])) ts'
  | PStep steps, [TAt; TName name] => Some (SelectAttr absolute steps name)
  | PStep _, _ => None
  (* after a step *)
  | PAfter steps cur, [] => Some (Select absolute (steps ++ [cur]))
  | PAfter steps cur, TSlash :: ts' =>
      parse_from absolute (PStep (steps ++ [cur])) ts'
  | PAfter steps cur, TSlashSlash :: ts' =>
      parse_from absolute (PStep (steps ++ [cur; descend])) ts'
  | PAfter steps cur, TLBracket :: ts' =>
      parse_from absolute (PPred steps cur None) ts'
  | PAfter _ _, _ => None
  (* inside a predicate *)
  | PPred steps cur acc, TAt :: TName a :: TEq :: TLiteral v :: ts' =>
      let p := conj acc (AttrEq a v) in
      match ts' with
      | TRBracket :: ts'' =>
          parse_from absolute (PAfter steps (add_predicate cur p)) ts''
      | TName "and" :: ts'' =>
          parse_from absolute (PPred steps cur (Some p)) ts''
      | _ => None
      end
  | PPred steps cur acc,
    TName "contains" :: TLParen :: TAt :: TName a :: TComma :: TLiteral v
      :: TRParen :: ts' =>
      let p := conj acc (AttrContains a v) in
      match ts' with
      | TRBracket :: ts'' =>
          parse_from absolute (PAfter steps (add_predicate cur p)) ts''
      | TName "and" :: ts'' =>
          parse_from absolute (PPred steps cur (Some p)) ts''
      | _ => None
      end
  | PPred _ _ _, _ => None
  end.

(** A path: the first token tells whether it is absolute. *)
Definition parse_path (ts : list token) : option query :=
  match ts with
  | TSlash :: ts' => parse_from true (PStep []) ts'
  | TSlashSlash :: ts' => parse_from true (PStep [descend]) ts'
  | _ => parse_from false (PStep []) ts
  end.

(** The query that a text denotes. *)
Definition read (text : string) : option query := lex text ≫= parse_path.

(** ** The methods *)

Definition invalid_expression : exn := Exn XPathEvalError "Invalid expression".

(** [el.xpath(text)]. An absolute path is evaluated from the document of
    [el]: [el] is then the root element that the parser returned. *)
Definition xpath (text : string) (el : node) : res (list item) :=
  match read text with
  | Some q => Ok (eval q el)
  | None => Raise invalid_expression
  end.

(** The elements and the strings among the items. *)
Definition elements (l : list item) : list node :=
  omap (λ i, match i with INode n => Some n | IString _ => None end) l.

Definition strings (l : list item) : list string :=
  omap (λ i, match i with IString s => Some s | INode _ => None end) l.

(** [el.xpath(text)] where the program uses the result as a list of
    elements, and as a list of strings. *)
Definition xpath_elements (text : string) (el : node) : res (list node) :=
  elements <$> xpath text el.

Definition xpath_strings (text : string) (el : node) : res (list string) :=
  strings <$> xpath text el.

(** [el.find(text)]: the first element that the path selects. *)
Definition find (text : string) (el : node) : res (option node) :=
  items ← xpath text el; Ok (head (elements items)).

(** ** The text of a path *)

Definition dquote : ascii := ascii_of_nat 34.

(** A literal between double quotes. *)
Definition quoted (s : string) : string :=
  String dquote (s +:+ String dquote "").

Definition show_token (t : token) : string :=
  match t with
  | TSlash => "/" | TSlashSlash => "//" | TDot => "." | TAt => "@"
  | TLBracket => "[" | TRBracket => "]" | TLParen => "(" | TRParen => ")"
  | TComma => "," | TEq => "="
  | TName s => s
  | TLiteral s => quoted s
  end.

(** A space where two tokens would run together, before [and] and after
    a comma. *)
Definition glue (t t' : token) : string :=
  match t, t' with
  | TName _, TName _ => " "
  | TLiteral _, TName _ => " "
  | TComma, _ => " "
  | TSlash, (TSlash | TSlashSlash) => " "
  | _, _ => ""
  end.

Fixpoint show_tokens (ts : list token) : string :=
  match ts with
  | [] => ""
  | t :: rest =>
      show_token t
      +:+ match rest with
          | [] => ""
          | t' :: _ => glue t t' +:+ show_tokens rest
          end
  end.

(** The names and the literals that the lexer reads back. *)
Definition valid_name (s : string) : bool :=
  match s with
  | EmptyString => false
  | String c r => name_start c && str_forall name_char r
  end.

Definition valid_literal (s : string) : bool :=
  str_forall (λ c, negb (bool_decide (c = dquote))) s.

Definition token_ok (t : token) : bool :=
  match t with
  | TName s => valid_name s
  | TLiteral s => valid_literal s
  | _ => true
  end.

(** A string that does not go on the token [t]. *)
Definition follows (t : token) (s : string) : Prop :=
  ∀ c, str_head s = Some c →
    match t with
    | TName _ => name_char c = false
    | TSlash => (nat_of_ascii c =? 47) = false
    | _ => True
    end.

(** The tokens of a predicate: a comparison, a call of [contains], or
    such expressions joined by [and] from left to right. *)
Definition atom_tokens (p : predicate) : option (list token) :=
  match p with
  | AttrEq a v => Some [TAt; TName a; TEq; TLiteral v]
  | AttrContains a v =>
      Some [TName "contains"; TLParen; TAt; TName a; TComma; TLiteral v;
            TRParen]
  | And _ _ => None
  end.

Fixpoint expr_tokens (p : predicate) : option (list token) :=
  match p with
  | And p' q =>
      ts ← expr_tokens p'; a ← atom_tokens q; Some (ts ++ TName "and" :: a)
  | _ => atom_tokens p
  end.

Fixpoint predicate_tokens (ps : list predicate) : option (list token) :=
  match ps with
  | [] => Some []
  | p :: ps' =>
      e ← expr_tokens p; r ← predicate_tokens ps';
      Some (TLBracket :: e ++ TRBracket :: r)
  end.

(** [.] and [tag[...]...] are the steps of the abbreviated syntax. *)
Definition step_tokens (st : location_step) : option (list token) :=
  match st with
  | Step Self AnyNode [] => Some [TDot]
  | Step Child (NameTest tag) ps => (TName tag ::.) <$> predicate_tokens ps
  | _ => None
  end.

Definition is_descend (st : location_step) : bool :=
  match st with Step DescendantOrSelf AnyNode [] => true | _ => false end.

(** The steps with [/] between them, and [//] for [descend]. *)
Fixpoint steps_tokens (steps : list location_step) : option (list token) :=
  match steps with
  | [] => None
  | st :: rest =>
      ts ← step_tokens st;
      match rest with
      | [] => Some ts
      | st' :: rest' =>
          if is_descend st' then
            r ← steps_tokens rest'; Some (ts ++ TSlashSlash :: r)
          else r ← steps_tokens rest; Some (ts ++ TSlash :: r)
      end
  end.

Definition path_tokens (absolute : bool) (steps : list location_step)
    : option (list token) :=
  if absolute then
    match steps with
    | [] => None
    | st :: rest =>
        if is_descend st then (TSlashSlash ::.) <$> steps_tokens rest
        else (TSlash ::.) <$> steps_tokens steps
    end
  else steps_tokens steps.

Definition query_tokens (q : query) : option (list token) :=
  match q with
  | Select absolute steps => path_tokens absolute steps
  | SelectAttr absolute steps name =>
      ts ← path_tokens absolute steps; Some (ts ++ [TSlash; TAt; TName name])
  end.

(** The text of a query in abbreviated syntax, when it has one. *)
Definition print (q : query) : option string :=
  ts ← query_tokens q;
  if forallb token_ok ts then Some (show_tokens ts) else None.

(** ** The lexer reads back the tokens *)

(** Evaluates the lexer on the characters that the goal spells out. *)
Ltac lex_compute :=
  repeat first
    [ progress cbn [lex_from lex_char mbind option_bind app]
    | match goal with
      | |- context [lex_idle ?c] =>
          let v := eval vm_compute in (lex_idle c) in
          change (lex_idle c) with v
      | |- context [nat_of_ascii ?c =? 47] =>
          let v := eval vm_compute in (nat_of_ascii c =? 47) in
          change (nat_of_ascii c =? 47) with v
      end ].

Lemma lex_idle_name_start c :
  name_start c = true → lex_idle c = Some ([], LName (String c "")).
Proof. destruct c as [[] [] [] [] [] [] [] []]; vm_compute; by intros. Qed.

Lemma name_start_not_slash c :
  name_start c = true → (nat_of_ascii c =? 47) = false.
Proof. destruct c as [[] [] [] [] [] [] [] []]; vm_compute; by intros. Qed.

Lemma option_bind_some {A} (m : option A) : m ≫= Some = m.
Proof. by destruct m. Qed.

Lemma lex_name_end acc s :
  follows (TName acc) s →
  lex_from (LName acc) s = (TName acc ::.) <$> lex_from LIdle s.
Proof.
  intros H. destruct s as [|c s]; [done|]. cbn [lex_from lex_char].
  rewrite (H c eq_refl). destruct (lex_idle c) as [[ts st']|]; [|done]. cbn.
  by destruct (lex_from st' s).
Qed.

Lemma lex_slash_end s :
  follows TSlash s → lex_from LSlash s = (TSlash ::.) <$> lex_from LIdle s.
Proof.
  intros H. destruct s as [|c s]; [done|]. cbn [lex_from lex_char].
  rewrite (H c eq_refl). destruct (lex_idle c) as [[ts st']|]; [|done]. cbn.
  by destruct (lex_from st' s).
Qed.

Lemma lex_name_chars r acc s :
  str_forall name_char r = true →
  lex_from (LName acc) (r +:+ s) = lex_from (LName (acc +:+ r)) s.
Proof.
  revert acc. induction r as [|c r IH]; intros acc Hr.
  { by rewrite str_app_nil_l, str_app_nil_r. }
  cbn [str_forall] in Hr. apply andb_prop in Hr as [Hc Hr].
  rewrite str_app_cons. cbn [lex_from lex_char]. rewrite Hc. cbn.
  rewrite (IH _ Hr). unfold snoc. rewrite str_app_assoc, str_app_cons.
  rewrite str_app_nil_l. by destruct (lex_from _ s).
Qed.

Lemma lex_name n s :
  valid_name n = true → follows (TName n) s →
  lex_from LIdle (n +:+ s) = (TName n ::.) <$> lex_from LIdle s.
Proof.
  destruct n as [|c r]; [done|]. intros [Hc Hr]%andb_prop Hs.
  rewrite str_app_cons. cbn [lex_from lex_char].
  rewrite (lex_idle_name_start c Hc). cbn.
  rewrite (lex_name_chars r _ s Hr), str_app_cons, str_app_nil_l.
  rewrite (lex_name_end _ s Hs). by destruct (lex_from LIdle s).
Qed.

Lemma lex_literal_chars v acc s :
  valid_literal v = true →
  lex_from (LLiteral dquote acc) (v +:+ String dquote s)
  = (TLiteral (acc +:+ v) ::.) <$> lex_from LIdle s.
Proof.
  revert acc. induction v as [|c v IH]; intros acc Hv.
  { rewrite str_app_nil_l, str_app_nil_r. cbn [lex_from lex_char].
    rewrite decide_True by done. cbn. by destruct (lex_from LIdle s). }
  cbn [valid_literal str_forall] in Hv. apply andb_prop in Hv as [Hc Hv].
  apply negb_true_iff, bool_decide_eq_false in Hc.
  rewrite str_app_cons. cbn [lex_from lex_char].
  rewrite decide_False by done. cbn. rewrite (IH _ Hv). unfold snoc.
  rewrite str_app_assoc, str_app_cons, str_app_nil_l.
  by destruct (lex_from LIdle s).
Qed.

Lemma lex_literal v s :
  valid_literal v = true →
  lex_from LIdle (quoted v +:+ s) = (TLiteral v ::.) <$> lex_from LIdle s.
Proof.
  intros Hv. unfold quoted. rewrite str_app_cons, str_app_assoc, str_app_cons.
  rewrite str_app_nil_l. lex_compute.
  match goal with |- context [LLiteral ?q ""] => change q with dquote end.
  rewrite (lex_literal_chars v "" s Hv), str_app_nil_l.
  by destruct (lex_from LIdle s).
Qed.

(** One token at the head of a text. *)
Lemma lex_token t s :
  token_ok t = true → follows t s →
  lex_from LIdle (show_token t +:+ s) = (t ::.) <$> lex_from LIdle s.
Proof.
  intros Hok Hs. destruct t; cbn [show_token];
    try (by apply lex_name); try (by apply lex_literal);
    rewrite ?str_app_cons, str_app_nil_l; lex_compute;
    try (by destruct (lex_from LIdle s)).
  rewrite (lex_slash_end s Hs). by destruct (lex_from LIdle s).
Qed.

Lemma lex_space s : lex_from LIdle (" " +:+ s) = lex_from LIdle s.
Proof.
  rewrite str_app_cons, str_app_nil_l. lex_compute.
  by destruct (lex_from LIdle s).
Qed.

(** Tokens that are shown side by side do not run together. *)
Lemma follows_glue t t' s :
  token_ok t' = true → follows t (glue t t' +:+ show_token t' +:+ s).
Proof.
  intros Hok c.
  destruct t as [| | | | | | | | | |n|v]; try (intros _; exact I);
    destruct t' as [| | | | | | | | | |n'|v']; cbn [glue show_token];
    unfold quoted; rewrite ?str_app_nil_l, ?str_app_cons; cbn [str_head];
    try (intros [= <-]; by vm_compute).
  destruct n' as [|c' r']; [done|]. rewrite str_app_cons. cbn [str_head].
  intros [= <-]. apply andb_prop in Hok as [Hc _].
  by apply name_start_not_slash.
Qed.

Lemma show_tokens_cons t t' ts :
  show_tokens (t :: t' :: ts)
  = show_token t +:+ glue t t' +:+ show_tokens (t' :: ts).
Proof. done. Qed.

Lemma show_tokens_shape t ts :
  ∃ s, show_tokens (t :: ts) = show_token t +:+ s.
Proof. destruct ts; cbn [show_tokens]; eauto. Qed.

(** The lexer reads back the tokens of a text that [show_tokens] wrote. *)
Lemma lex_show_tokens ts :
  forallb token_ok ts = true → lex (show_tokens ts) = Some ts.
Proof.
  unfold lex. induction ts as [|t ts IH]; [done|].
  cbn [forallb]. intros [Ht Hts]%andb_prop. specialize (IH Hts).
  destruct ts as [|t' ts].
  { cbn [show_tokens]. rewrite <- (str_app_nil_r (show_token t)) at 1.
    rewrite str_app_assoc, lex_token; [done..|]. by intros c. }
  rewrite show_tokens_cons.
  destruct (show_tokens_shape t' ts) as [s Hs]. rewrite Hs in IH |- *.
  cbn [forallb] in Hts. apply andb_prop in Hts as [Ht' _].
  rewrite lex_token by (done || by apply follows_glue).
  assert (lex_from LIdle (glue t t' +:+ show_token t' +:+ s)
          = lex_from LIdle (show_token t' +:+ s)) as ->; [|by rewrite IH].
  destruct t; try done; destruct t'; cbn [glue]; try done; apply lex_space.
Qed.

(** ** The parser reads back the steps *)

Section parse.
Context (a : bool).

Lemma parse_atom acc cur pacc p ts tail :
  atom_tokens p = Some ts →
  parse_from a (PPred acc cur pacc) (ts ++ TRBracket :: tail)
  = parse_from a (PAfter acc (add_predicate cur (conj pacc p))) tail
  ∧ parse_from a (PPred acc cur pacc) (ts ++ TName "and" :: tail)
    = parse_from a (PPred acc cur (Some (conj pacc p))) tail.
Proof. by destruct p; intros [= <-]. Qed.

Lemma parse_expr acc cur p ts tail :
  expr_tokens p = Some ts →
  parse_from a (PPred acc cur None) (ts ++ TRBracket :: tail)
  = parse_from a (PAfter acc (add_predicate cur p)) tail
  ∧ parse_from a (PPred acc cur None) (ts ++ TName "and" :: tail)
    = parse_from a (PPred acc cur (Some p)) tail.
Proof.
  revert ts tail. induction p as [| |p IH q _]; intros ts tail;
    [apply (parse_atom _ _ None)..|].
  cbn [expr_tokens]. destruct (expr_tokens p) as [tp|]; [|done].
  destruct (atom_tokens q) as [tq|] eqn:Hq; [|done]. intros [= <-].
  rewrite <- !app_assoc, <- !app_comm_cons.
  rewrite !(proj2 (IH tp _ eq_refl)).
  apply (parse_atom _ _ (Some p) q _ _ Hq).
Qed.

Lemma parse_predicates acc ax t ps0 ps ts tail :
  predicate_tokens ps = Some ts →
  parse_from a (PAfter acc (Step ax t ps0)) (ts ++ tail)
  = parse_from a (PAfter acc (Step ax t (ps0 ++ ps))) tail.
Proof.
  revert ps0 ts. induction ps as [|p ps IH]; intros ps0 ts.
  { intros [= <-]. by rewrite app_nil_r. }
  cbn [predicate_tokens]. destruct (expr_tokens p) as [e|] eqn:He; [|done].
  destruct (predicate_tokens ps) as [r|]; [|done]. intros [= <-].
  rewrite <- app_comm_cons, <- app_assoc, <- app_comm_cons.
  cbn [parse_from]. rewrite (proj1 (parse_expr _ _ p e _ He)).
  unfold add_predicate. cbn [step_axis step_test step_predicates].
  by rewrite (IH _ r eq_refl), <- app_assoc.
Qed.

Lemma parse_step acc st ts tail :
  step_tokens st = Some ts →
  parse_from a (PStep acc) (ts ++ tail) = parse_from a (PAfter acc st) tail.
Proof.
  destruct st as [[] [tag|] ps]; cbn [step_tokens]; try done.
  - destruct ps; [|done]. by intros [= <-].
  - destruct (predicate_tokens ps) as [r|] eqn:Hr; [|done].
    intros [= <-]. rewrite <- app_comm_cons. cbn [parse_from].
    by rewrite (parse_predicates _ _ _ [] ps r).
Qed.

Lemma is_descend_eq st : is_descend st = true → st = descend.
Proof. by destruct st as [[] [] []]. Qed.

(** The steps read from their tokens are added to the steps read so
    far; the last one is the step that the parser is at. *)
Lemma parse_steps n steps ts acc tail :
  length steps ≤ n → steps_tokens steps = Some ts →
  ∃ init cur, acc ++ steps = init ++ [cur]
    ∧ parse_from a (PStep acc) (ts ++ tail)
      = parse_from a (PAfter init cur) tail.
Proof.
  revert steps ts acc. induction n as [|n IH]; intros [|st rest] ts acc Hn;
    try done; [cbn in Hn; lia|].
  cbn [steps_tokens]. destruct (step_tokens st) as [t|] eqn:Hst; [|done].
  cbn [mbind option_bind]. destruct rest as [|st' rest'].
  { intros [= <-]. exists acc, st. by rewrite (parse_step _ _ _ _ Hst). }
  destruct (is_descend st') eqn:Hd.
  - apply is_descend_eq in Hd as ->.
    destruct (steps_tokens rest') as [r|] eqn:Hr; [|done]. intros [= <-].
    rewrite <- app_assoc, (parse_step _ _ _ _ Hst), <- app_comm_cons.
    cbn [parse_from].
    destruct (IH rest' r (acc ++ [st; descend])) as (init & cur & Heq & ->);
      [cbn in Hn |- *; lia|done|].
    exists init, cur. by rewrite <- Heq, <- app_assoc.
  - destruct (steps_tokens (st' :: rest')) as [r|] eqn:Hr; [|done].
    intros [= <-].
    rewrite <- app_assoc, (parse_step _ _ _ _ Hst), <- app_comm_cons.
    cbn [parse_from].
    destruct (IH (st' :: rest') r (acc ++ [st])) as (init & cur & Heq & ->);
      [cbn in Hn |- *; lia|done|].
    exists init, cur. by rewrite <- Heq, <- app_assoc.
Qed.

Lemma steps_tokens_head steps ts :
  steps_tokens steps = Some ts →
  ∃ t ts', ts = t :: ts' ∧ (t = TDot ∨ ∃ tag, t = TName tag).
Proof.
  destruct steps as [|st rest]; [done|]. cbn [steps_tokens].
  destruct (step_tokens st) as [t|] eqn:Hst; [|done]. cbn [mbind option_bind].
  assert (∃ t0 t', t = t0 :: t' ∧ (t0 = TDot ∨ ∃ tag, t0 = TName tag))
    as (t0 & t' & -> & Ht0).
  { destruct st as [[] [tag|] ps]; cbn [step_tokens] in Hst; try done.
    - destruct ps; [|done]. injection Hst as <-. exists TDot, []. auto.
    - destruct (predicate_tokens ps) as [l|]; [|done]. injection Hst as <-.
      exists (TName tag), l. eauto. }
  destruct rest as [|st' rest']; [intros [= <-]; eauto|].
  destruct (is_descend st'); [destruct (steps_tokens rest')|
                              destruct (steps_tokens (st' :: rest'))];
    try done; intros [= <-]; by eexists _, _.
Qed.

End parse.

(** The parser reads back the path, whatever follows it. *)
Lemma parse_path_tokens a steps ts tail :
  path_tokens a steps = Some ts →
  ∃ init cur, steps = init ++ [cur]
    ∧ parse_path (ts ++ tail) = parse_from a (PAfter init cur) tail.
Proof.
  unfold path_tokens. destruct a.
  - destruct steps as [|st rest]; [done|]. destruct (is_descend st) eqn:Hd.
    + apply is_descend_eq in Hd as ->.
      destruct (steps_tokens rest) as [r|] eqn:Hr; [|done]. intros [= <-].
      by apply (parse_steps true (length rest) rest r [descend]).
    + destruct (steps_tokens (st :: rest)) as [r|] eqn:Hr; [|done].
      intros [= <-].
      by apply (parse_steps true (length (st :: rest)) (st :: rest) r []).
  - intros Hts.
    destruct (steps_tokens_head _ _ Hts) as (t & ts' & -> & Ht).
    destruct (parse_steps false (length steps) steps (t :: ts') [] tail)
      as (init & cur & Heq & Hparse); [done..|].
    exists init, cur. split; [done|]. rewrite <- Hparse.
    by destruct Ht as [->|[tag ->]].
Qed.

(** The parser reads back the tokens of a query. *)
Lemma parse_query_tokens q ts :
  query_tokens q = Some ts → parse_path ts = Some q.
Proof.
  destruct q as [a steps|a steps name]; cbn [query_tokens].
  - intros Hts. destruct (parse_path_tokens a steps ts [] Hts)
      as (init & cur & -> & Hparse).
    by rewrite app_nil_r in Hparse.
  - destruct (path_tokens a steps) as [pts|] eqn:Hts; [|done]. intros [= <-].
    by destruct (parse_path_tokens a steps pts [TSlash; TAt; TName name] Hts)
      as (init & cur & -> & ->).
Qed.

(** ** The text of the queries *)

Lemma xpath_read text q el :
  read text = Some q → xpath text el = Ok (eval q el).
Proof. unfold xpath. by intros ->. Qed.

Lemma elements_nodes l : elements (INode <$> l) = l.
Proof. induction l as [|n l IH]; [done|]. cbn. by f_equal. Qed.

Lemma strings_strings l : strings (IString <$> l) = l.
Proof. induction l as [|n l IH]; [done|]. cbn. by f_equal. Qed.

Lemma elements_strings l : elements (IString <$> l) = [].
Proof. by induction l. Qed.

(** A text that reads as one of the queries of [Html]. *)
Lemma xpath_elements_desc text tag ps el :
  read text
  = Some (Select false [self; descend; Step Child (NameTest tag) ps]) →
  xpath_elements text el = Ok (xpath_desc tag ps el).
Proof.
  intros H. unfold xpath_elements. rewrite (xpath_read _ _ _ H), eval_desc.
  cbn. by rewrite elements_nodes.
Qed.

Lemma xpath_elements_root text tag ps el :
  read text = Some (Select true [descend; Step Child (NameTest tag) ps]) →
  xpath_elements text el = Ok (xpath_root tag ps el).
Proof.
  intros H. unfold xpath_elements. rewrite (xpath_read _ _ _ H), eval_root.
  cbn. by rewrite elements_nodes.
Qed.

Lemma xpath_elements_child text tag el :
  read text = Some (Select false [self; Step Child (NameTest tag) []]) →
  xpath_elements text el = Ok (xpath_child tag el).
Proof.
  intros H. unfold xpath_elements.
  rewrite (xpath_read _ _ _ H), eval_child_named. cbn.
  by rewrite elements_nodes.
Qed.

Lemma xpath_strings_desc_attr text tag name el :
  read text
  = Some (SelectAttr false [self; descend; Step Child (NameTest tag) []] name) →
  xpath_strings text el = Ok (xpath_desc_attr tag name el).
Proof.
  intros H. unfold xpath_strings.
  rewrite (xpath_read _ _ _ H), eval_desc_attr. cbn.
  by rewrite strings_strings.
Qed.

Lemma find_desc_text text tag el :
  read text
  = Some (Select false [self; descend; Step Child (NameTest tag) []]) →
  find text el = Ok (find_desc tag el).
Proof.
  intros H. unfold find. rewrite (xpath_read _ _ _ H), eval_desc. cbn.
  by rewrite elements_nodes.
Qed.

(** Rewrites the evaluation of an expression to the query of [Html] that
    its text reads as. *)
Ltac compile_paths :=
  repeat first
    [ erewrite xpath_elements_desc by (vm_compute; reflexivity)
    | erewrite xpath_elements_root by (vm_compute; reflexivity)
    | erewrite xpath_elements_child by (vm_compute; reflexivity)
    | erewrite xpath_strings_desc_attr by (vm_compute; reflexivity)
    | erewrite find_desc_text by (vm_compute; reflexivity) ].

(** Follows two navigations along their indexing steps. *)
Ltac navigate :=
  repeat (compile_paths; cbn;
          try match goal with
              | |- context [getitem ?l ?i] =>
                  destruct (getitem l i) as [?|?]; [|done]; cbn
              end).

(** ** The theorems *)



(** ** Examples *)


Example xpath_href :
  xpath_strings ".//a/@href" XPathFixture.cell = Ok ["/two"; "/one"].
Proof. by vm_compute. Qed.

Example read_section :
  read ("//section[@class=" +:+ quoted "blueBg" +:+ "]")
  = Some (Select true
            [descend;
             Step Child (NameTest "section") [AttrEq "class" "blueBg"]]).
Proof. vm_compute. reflexivity. Qed.

Example read_table :
  read (".//table[@id=" +:+ quoted "search-table" +:+ " and contains(@class, "
        +:+ quoted "table table-hover table-primary" +:+ ")]")
  = Some (Select false
            [self; descend;
             Step Child (NameTest "table")
               [And (AttrEq "id" "search-table")
                    (AttrContains "class" "table table-hover table-primary")]]).
Proof. vm_compute. reflexivity. Qed.

Example read_href :
  read ".//a/@href"
  = Some (SelectAttr false [self; descend; Step Child (NameTest "a") []]
            "href").
Proof. vm_compute. reflexivity. Qed.


(** A path that the abbreviated syntax cannot write. *)
Example print_sibling_free :
  print (Select false [Step Descendant (NameTest "a") []]) = None.
Proof. done. Qed.
