(* ===== verification/DateTime.v ===== *)
(** * DateTime: naive [datetime] values

    What lines 60-61 and 67-68 of the program compute with:
    [datetime.now()], [timedelta(hours=24)], [now - timedelta],
    [datetime.strptime(s, '%Y-%m-%d')] and the comparison [>=].

    A [datetime] is the record of its seven fields. Arithmetic goes through
    the proleptic Gregorian ordinal of the date (day 1 is 0001-01-01), as
    in CPython's [datetime] module, whose functions [_is_leap],
    [_days_before_year], [_days_in_month], [_days_before_month], [_ymd2ord]
    and [_ord2ymd] are transcribed below. A [timedelta] is an integer number
    of microseconds. *)

From S2P Require Import Prelude PyStr.

#[local] Open Scope Z_scope.

(** ** Calendar *)

Definition MINYEAR : Z := 1.
Definition MAXYEAR : Z := 9999.
Definition MAXORDINAL : Z := 3652059.

Definition is_leap (year : Z) : bool :=
  (year mod 4 =? 0) && (negb (year mod 100 =? 0) || (year mod 400 =? 0)).

Definition days_before_year (year : Z) : Z :=
  let y := year - 1 in y * 365 + y / 4 - y / 100 + y / 400.

Definition DAYS_IN_MONTH : list Z :=
  [-1; 31; 28; 31; 30; 31; 30; 31; 31; 30; 31; 30; 31].

Definition DAYS_BEFORE_MONTH : list Z :=
  [-1; 0; 31; 59; 90; 120; 151; 181; 212; 243; 273; 304; 334].

Definition days_in_month (year month : Z) : Z :=
  if (month =? 2) && is_leap year then 29
  else default 0 (DAYS_IN_MONTH !! Z.to_nat month).

Definition days_before_month (year month : Z) : Z :=
  default 0 (DAYS_BEFORE_MONTH !! Z.to_nat month)
  + (if (2 <? month) && is_leap year then 1 else 0).

Definition ymd2ord (year month day : Z) : Z :=
  days_before_year year + days_before_month year month + day.

Definition DI400Y : Z := 146097.
Definition DI100Y : Z := 36524.
Definition DI4Y : Z := 1461.

(** The month and the day of day number [n], counted from 0, of a year:
    the estimate [(n + 50) >> 5] of the month is exact or one too large. *)
Definition ord2md (leapyear : bool) (n : Z) : Z * Z :=
  let month := Z.shiftr (n + 50) 5 in
  let preceding :=
    default 0 (DAYS_BEFORE_MONTH !! Z.to_nat month)
    + (if (2 <? month) && leapyear then 1 else 0) in
  if n <? preceding then
    let month := month - 1 in
    let preceding :=
      preceding - (default 0 (DAYS_IN_MONTH !! Z.to_nat month)
                   + (if (month =? 2) && leapyear then 1 else 0)) in
    (month, n - preceding + 1)
  else (month, n - preceding + 1).

Definition ord2ymd (n : Z) : Z * Z * Z :=
  let n := n - 1 in
  let n400 := n / DI400Y in
  let n := n mod DI400Y in
  let year := n400 * 400 + 1 in
  let n100 := n / DI100Y in
  let n := n mod DI100Y in
  let n4 := n / DI4Y in
  let n := n mod DI4Y in
  let n1 := n / 365 in
  let n := n mod 365 in
  let year := year + n100 * 100 + n4 * 4 + n1 in
  if (n1 =? 4) || (n100 =? 4) then (year - 1, 12, 31)
  else
    let leapyear := (n1 =? 3) && (negb (n4 =? 24) || (n100 =? 3)) in
    let '(month, day) := ord2md leapyear n in
    (year, month, day).

(** ** Values *)

Record datetime : Set := DateTime {
  year : Z; month : Z; day : Z;
  hour : Z; minute : Z; second : Z; microsecond : Z
}.

#[export] Instance datetime_eq_dec : EqDecision datetime.
Proof. solve_decision. Defined.

(** The fields are those of a date and a time of day that exist. *)
Definition valid_date (y m d : Z) : Prop :=
  MINYEAR ≤ y ≤ MAXYEAR ∧ 1 ≤ m ≤ 12 ∧ 1 ≤ d ≤ days_in_month y m.

Definition valid (t : datetime) : Prop :=
  valid_date (year t) (month t) (day t) ∧
  0 ≤ hour t < 24 ∧ 0 ≤ minute t < 60 ∧ 0 ≤ second t < 60 ∧
  0 ≤ microsecond t < 1000000.

#[export] Instance valid_date_dec y m d : Decision (valid_date y m d).
Proof. unfold valid_date. apply _. Defined.

#[export] Instance valid_dec t : Decision (valid t).
Proof. unfold valid. apply _. Defined.

Definition US_PER_SECOND : Z := 1000000.
Definition US_PER_DAY : Z := 86400 * US_PER_SECOND.

(** [timedelta(hours=h)]. *)
Definition timedelta_hours (h : Z) : Z := h * 3600 * US_PER_SECOND.

Definition toordinal (t : datetime) : Z := ymd2ord (year t) (month t) (day t).

(** The time of day in microseconds. *)
Definition time_of_day (t : datetime) : Z :=
  ((hour t * 60 + minute t) * 60 + second t) * US_PER_SECOND + microsecond t.

(** Microseconds since the midnight that starts ordinal day 0. *)
Definition to_us (t : datetime) : Z := toordinal t * US_PER_DAY + time_of_day t.

Definition overflow_error : exn := Exn OverflowError "date value out of range".

(** The [datetime] of a number of microseconds; [OverflowError] outside
    0001-01-01 .. 9999-12-31. *)
Definition of_us (us : Z) : res datetime :=
  let days := us / US_PER_DAY in
  let rest := us mod US_PER_DAY in
  if (0 <? days) && (days <=? MAXORDINAL) then
    let '(y, m, d) := ord2ymd days in
    let secs := rest / US_PER_SECOND in
    Ok (DateTime y m d (secs / 3600) (secs / 60 mod 60) (secs mod 60)
          (rest mod US_PER_SECOND))
  else Raise overflow_error.

(** [t - delta] (line 61). *)
Definition sub_timedelta (t : datetime) (delta : Z) : res datetime :=
  of_us (to_us t - delta).

(** The fields in the order in which [datetime] compares them. *)
Definition fields (t : datetime) : list Z :=
  [year t; month t; day t; hour t; minute t; second t; microsecond t].

(** Lexicographic [<=] on lists of integers of the same length. *)
Fixpoint lex_le (a b : list Z) : bool :=
  match a, b with
  | x :: a', y :: b' => (x <? y) || ((x =? y) && lex_le a' b')
  | _, _ => true
  end.

(** [a >= b] (line 68). *)
Definition datetime_ge (a b : datetime) : bool := lex_le (fields b) (fields a).
#[global] Arguments datetime_ge : simpl never.

(** ** [strptime] with the format [%Y-%m-%d] *)

Definition digit (c : ascii) : option Z :=
  let n := nat_of_ascii c in
  if (48 <=? n)%nat && (n <=? 57)%nat then Some (Z.of_nat (n - 48)) else None.

Definition dash (c : ascii) : bool := bool_decide (nat_of_ascii c = 45%nat).

(** The directive [%Y]: four digits. *)
Definition parse_Y (s : string) : option (Z * string) :=
  match s with
  | String a (String b (String c (String d rest))) =>
      a ← digit a; b ← digit b; c ← digit c; d ← digit d;
      Some (((a * 10 + b) * 10 + c) * 10 + d, rest)
  | _ => None
  end.

(** The directive [%m]: [1[0-2]|0[1-9]|[1-9]], first alternative first. *)
Definition parse_m (s : string) : option (Z * string) :=
  match s with
  | String a rest =>
      a ← digit a;
      let two :=
        match rest with
        | String b rest' =>
            b ← digit b;
            if ((a =? 1) && (b <=? 2)) || ((a =? 0) && (1 <=? b))
            then Some (a * 10 + b, rest') else None
        | _ => None
        end in
      match two with
      | Some r => Some r
      | None => if 1 <=? a then Some (a, rest) else None
      end
  | _ => None
  end.

(** The directive [%d]: [3[01]|[12]\d|0[1-9]|[1-9]| [1-9]]. *)
Definition parse_d (s : string) : option (Z * string) :=
  match s with
  | String a rest =>
      match digit a with
      | Some a =>
          let two :=
            match rest with
            | String b rest' =>
                b ← digit b;
                if ((a =? 3) && (b <=? 1)) || ((1 <=? a) && (a <=? 2))
                   || ((a =? 0) && (1 <=? b))
                then Some (a * 10 + b, rest') else None
            | _ => None
            end in
          match two with
          | Some r => Some r
          | None => if 1 <=? a then Some (a, rest) else None
          end
      | None =>
          if bool_decide (nat_of_ascii a = 32%nat) then
            match rest with
            | String b rest' =>
                b ← digit b; if 1 <=? b then Some (b, rest') else None
            | _ => None
            end
          else None
      end
  | _ => None
  end.

Definition expect_dash (s : string) : option string :=
  match s with
  | String c rest => if dash c then Some rest else None
  | _ => None
  end.

(** The match of the whole format at the start of [s]: the three numbers
    and what is left of [s]. *)
Definition match_format (s : string) : option (Z * Z * Z * string) :=
  '(y, s) ← parse_Y s;
  s ← expect_dash s;
  '(m, s) ← parse_m s;
  s ← expect_dash s;
  '(d, s) ← parse_d s;
  Some (y, m, d, s).

Definition value_error (msg : string) : exn := Exn ValueError msg.

(** [datetime.strptime(s, '%Y-%m-%d')] (line 67). The text of the first
    message is exact for an [s] that [repr] prints as it is. *)
Definition strptime (s : string) : res datetime :=
  match match_format s with
  | None =>
      Raise (value_error
        ("time data '" +:+ s +:+ "' does not match format '%Y-%m-%d'"))
  | Some (y, m, d, rest) =>
      if negb (bool_decide (rest = "")) then
        Raise (value_error ("unconverted data remains: " +:+ rest))
      else if y <? MINYEAR then
        Raise (value_error ("year " +:+ pretty y +:+ " is out of range"))
      else if days_in_month y m <? d then
        Raise (value_error "day is out of range for month")
      else Ok (DateTime y m d 0 0 0 0)
  end.

(** [d.isoformat()] of a date with a year of four digits: the inverse
    used to state the round trip of [strptime]. *)
Definition digit_char (z : Z) : ascii := ascii_of_nat (48 + Z.to_nat z).

Definition digits2 (z : Z) : string :=
  String (digit_char (z / 10)) (String (digit_char (z mod 10)) "").

Definition digits4 (z : Z) : string :=
  String (digit_char (z / 1000))
    (String (digit_char (z / 100 mod 10)) (digits2 (z mod 100))).

Definition isoformat_date (y m d : Z) : string :=
  digits4 y +:+ "-" +:+ digits2 m +:+ "-" +:+ digits2 d.

(** ** Definitions for the proofs *)

(** [p] holds of the [fuel] integers from [n] on. *)
Fixpoint all_from (p : Z → bool) (fuel : nat) (n : Z) : bool :=
  match fuel with
  | O => true
  | S fuel' => p n && all_from p fuel' (n + 1)
  end.

(** [ord2md] returns the month and the day of day number [n] of a year
    that is leap or not. *)
Definition ord2md_ok (leap : bool) (n : Z) : bool :=
  let y := if leap then 2024 else 2023 in
  let '(m, d) := ord2md leap n in
  (1 <=? m) && (m <=? 12) && (1 <=? d) && (d <=? days_in_month y m)
  && (days_before_month y m + d =? n + 1).

(** The order of dates. *)
Definition date_lt (y m d y' m' d' : Z) : Prop :=
  y < y' ∨ (y = y' ∧ (m < m' ∨ (m = m' ∧ d < d'))).

(** ** Tactics *)

(** Linear arithmetic with division and remainder by constants. *)
Ltac zify_div := Z.to_euclidean_division_equations; lia.

(** Case analysis on the integer comparisons of the goal. *)
Ltac case_cmp :=
  repeat match goal with
    | |- context [(?x =? ?y)] => destruct (Z.eqb_spec x y)
    | |- context [(?x <? ?y)] => destruct (Z.ltb_spec x y)
    | |- context [(?x <=? ?y)] => destruct (Z.leb_spec x y)
    end.

(** The twelve cases of a month. *)
Ltac month_cases m :=
  let H := fresh in
  assert (m = 1 ∨ m = 2 ∨ m = 3 ∨ m = 4 ∨ m = 5 ∨ m = 6 ∨ m = 7 ∨ m = 8
          ∨ m = 9 ∨ m = 10 ∨ m = 11 ∨ m = 12) as H by lia;
  destruct_or! H; subst m.

(** ** The calendar *)

Lemma days_before_year_S y :
  days_before_year (y + 1) =
    days_before_year y + 365 + (if is_leap y then 1 else 0).
Proof.
  unfold days_before_year, is_leap. case_cmp; cbn [negb andb orb]; zify_div.
Qed.

(** The year of an ordinal. *)
Lemma ord2ymd_year n y m d :
  1 ≤ n → ord2ymd n = (y, m, d) →
  1 ≤ y ∧ ∃ k, 0 ≤ k < 365 + (if is_leap y then 1 else 0) ∧
    n = days_before_year y + k + 1 ∧ (m, d) = ord2md (is_leap y) k.
Proof.
  intros Hn. unfold ord2ymd, DI400Y, DI100Y, DI4Y. cbv zeta.
  set (n0 := n - 1).
  set (n400 := n0 / 146097). set (r := n0 mod 146097).
  set (n100 := r / 36524). set (r2 := r mod 36524).
  set (n4 := r2 / 1461). set (r3 := r2 mod 1461).
  set (n1 := r3 / 365). set (r4 := r3 mod 365).
  assert (0 ≤ n400) by (unfold n400, n0; zify_div).
  assert (0 ≤ n100 ≤ 4 ∧ 0 ≤ n4 ≤ 24 ∧ 0 ≤ n1 ≤ 4) as (? & ? & ?)
    by (unfold n1, r3, n4, r2, n100, r; zify_div).
  assert (n0 = 146097 * n400 + 36524 * n100 + 1461 * n4 + 365 * n1 + r4
          ∧ 0 ≤ r4 < 365 ∧ 365 * n1 + r4 < 1461
          ∧ 1461 * n4 + 365 * n1 + r4 < 36524
          ∧ 36524 * n100 + 1461 * n4 + 365 * n1 + r4 < 146097)
    as (Hn0 & ? & ? & ? & ?)
    by (unfold r4, n1, r3, n4, r2, n100, r, n400; zify_div).
  clearbody n400 n100 n4 n1 r4. clear r r2 r3.
  destruct ((n1 =? 4) || (n100 =? 4)) eqn:Hend.
  - intros [= <- <- <-]. 
    assert (is_leap (n400 * 400 + 1 + n100 * 100 + n4 * 4 + n1 - 1) = true) as Hleap.
    { unfold is_leap. apply orb_true_iff in Hend as [?%Z.eqb_eq|?%Z.eqb_eq];
      case_cmp; cbn; try done; zify_div. }
    rewrite Hleap. split; [lia|]. exists 365. split; [lia|]. split; [|done].
    unfold days_before_year. zify_div.
  - apply orb_false_iff in Hend as [?%Z.eqb_neq ?%Z.eqb_neq].
    set (leap := (n1 =? 3) && _).
    destruct (ord2md leap r4) as [m' d'] eqn:Hmd. intros [= <- <- <-].
    assert (is_leap (n400 * 400 + 1 + n100 * 100 + n4 * 4 + n1) = leap) as Hleap.
    { unfold is_leap, leap. case_cmp; cbn; try done; zify_div. }
    rewrite Hleap. split; [lia|]. exists r4. split; [destruct leap; lia|].
    split; [|done]. unfold days_before_year. zify_div.
Qed.

Lemma all_from_spec p fuel n k :
  all_from p fuel n = true → n ≤ k < n + Z.of_nat fuel → p k = true.
Proof.
  revert n. induction fuel as [|fuel IH]; intros n; [lia|].
  cbn [all_from]. intros [Hn Hrest]%andb_prop Hk.
  destruct (decide (k = n)) as [->|]; [done|]. apply (IH (n + 1)); [done|lia].
Qed.

Lemma days_in_month_leap y y' m :
  is_leap y = is_leap y' → days_in_month y m = days_in_month y' m.
Proof. unfold days_in_month. by intros ->. Qed.

Lemma days_before_month_leap y y' m :
  is_leap y = is_leap y' → days_before_month y m = days_before_month y' m.
Proof. unfold days_before_month. by intros ->. Qed.

Lemma ord2md_spec y k m d :
  0 ≤ k < 365 + (if is_leap y then 1 else 0) →
  ord2md (is_leap y) k = (m, d) →
  1 ≤ m ≤ 12 ∧ 1 ≤ d ≤ days_in_month y m ∧ days_before_month y m + d = k + 1.
Proof.
  intros Hk Hmd.
  assert (ord2md_ok (is_leap y) k = true) as Hok.
  { destruct (is_leap y).
    - by apply (all_from_spec _ 366 0); [vm_compute|lia].
    - by apply (all_from_spec _ 365 0); [vm_compute|lia]. }
  unfold ord2md_ok in Hok. rewrite Hmd in Hok.
  set (y' := if is_leap y then 2024 else 2023) in Hok.
  assert (is_leap y = is_leap y') as Hy by (unfold y'; by destruct (is_leap y)).
  rewrite (days_in_month_leap y y'), (days_before_month_leap y y') by done.
  repeat (apply andb_prop in Hok as [Hok ?]). lia.
Qed.

(** Every ordinal is the ordinal of the date [ord2ymd] returns, and that
    date exists. *)
Lemma ymd2ord_ord2ymd n y m d :
  1 ≤ n → ord2ymd n = (y, m, d) →
  ymd2ord y m d = n ∧ 1 ≤ y ∧ 1 ≤ m ≤ 12 ∧ 1 ≤ d ≤ days_in_month y m.
Proof.
  intros Hn (Hy & k & Hk & -> & Hmd)%ord2ymd_year; [|done].
  symmetry in Hmd. apply ord2md_spec in Hmd as (? & ? & ?); [|done].
  unfold ymd2ord. split_and!; lia.
Qed.

Lemma days_before_month_S y m :
  1 ≤ m ≤ 11 →
  days_before_month y (m + 1) = days_before_month y m + days_in_month y m.
Proof.
  intros Hm. unfold days_before_month, days_in_month.
  assert (m = 12 → False) by lia. month_cases m; try done;
    by destruct (is_leap y).
Qed.

Lemma days_in_month_range y m : 1 ≤ m ≤ 12 → 28 ≤ days_in_month y m ≤ 31.
Proof.
  intros Hm. unfold days_in_month. month_cases m; destruct (is_leap y); vm_compute; by split.
Qed.

Lemma days_before_month_mono y m m' :
  1 ≤ m → m < m' → m' ≤ 12 →
  days_before_month y m + days_in_month y m ≤ days_before_month y m'.
Proof.
  intros Hm Hlt Hm'. rewrite <- days_before_month_S by lia.
  replace m' with (m + 1 + Z.of_nat (Z.to_nat (m' - m - 1))) in * by lia.
  induction (Z.to_nat _) as [|i IH]; [by rewrite Z.add_0_r|].
  etrans; [apply IH; lia|].
  replace (m + 1 + Z.of_nat (S i)) with (m + 1 + Z.of_nat i + 1) by lia.
  rewrite days_before_month_S by lia.
  pose proof (days_in_month_range y (m + 1 + Z.of_nat i)). lia.
Qed.

Lemma days_before_month_range y m :
  1 ≤ m ≤ 12 →
  0 ≤ days_before_month y m
  ∧ days_before_month y m + days_in_month y m
    ≤ 365 + (if is_leap y then 1 else 0).
Proof.
  intros Hm. unfold days_before_month, days_in_month.
  month_cases m; destruct (is_leap y); vm_compute; by split.
Qed.

Lemma days_before_year_mono y y' :
  y < y' → days_before_year y + 365 + (if is_leap y then 1 else 0)
           ≤ days_before_year y'.
Proof.
  intros Hlt. rewrite <- days_before_year_S.
  replace y' with (y + 1 + Z.of_nat (Z.to_nat (y' - y - 1))) by lia.
  induction (Z.to_nat _) as [|i IH]; [by rewrite Z.add_0_r|].
  etrans; [apply IH|].
  replace (y + 1 + Z.of_nat (S i)) with (y + 1 + Z.of_nat i + 1) by lia.
  rewrite days_before_year_S. destruct (is_leap _); lia.
Qed.

(** The ordinal is strictly monotone in the date. *)
Lemma ymd2ord_lt y m d y' m' d' :
  1 ≤ m ≤ 12 → 1 ≤ d ≤ days_in_month y m →
  1 ≤ m' ≤ 12 → 1 ≤ d' ≤ days_in_month y' m' →
  date_lt y m d y' m' d' → ymd2ord y m d < ymd2ord y' m' d'.
Proof.
  intros Hm Hd Hm' Hd' Hlt. unfold ymd2ord.
  pose proof (days_before_month_range y m Hm).
  pose proof (days_before_month_range y' m' Hm').
  destruct Hlt as [Hy|[<- [Hlt|[<- Hlt]]]]; [| |lia].
  - pose proof (days_before_year_mono y y' Hy). lia.
  - pose proof (days_before_month_mono y m m'). lia.
Qed.

Lemma date_lt_trichotomy y m d y' m' d' :
  date_lt y m d y' m' d' ∨ (y, m, d) = (y', m', d') ∨ date_lt y' m' d' y m d.
Proof.
  unfold date_lt. destruct (Z.lt_trichotomy y y') as [?|[->|?]]; [lia| |lia].
  destruct (Z.lt_trichotomy m m') as [?|[->|?]]; [lia| |lia].
  destruct (Z.lt_trichotomy d d') as [?|[->|?]]; [lia| |lia]. by right; left.
Qed.

Lemma days_before_year_nonneg y : 1 ≤ y → 0 ≤ days_before_year y.
Proof. intros Hy. unfold days_before_year. zify_div. Qed.

Lemma ymd2ord_range y m d :
  valid_date y m d → 1 ≤ ymd2ord y m d ≤ MAXORDINAL.
Proof.
  intros ([Hy Hy'] & Hm & Hd). split.
  - pose proof (days_before_year_nonneg y Hy).
    pose proof (days_before_month_range y m Hm). unfold ymd2ord. lia.
  - change MAXORDINAL with (ymd2ord 9999 12 31).
    destruct (date_lt_trichotomy y m d 9999 12 31) as [Hlt|[[= -> -> ->]|Hlt]].
    + apply Z.lt_le_incl, ymd2ord_lt; done.
    + done.
    + pose proof (days_in_month_range y m Hm). unfold date_lt, MAXYEAR in *. lia.
Qed.

(** The date of the ordinal of a date is that date. *)
Lemma ord2ymd_ymd2ord y m d :
  valid_date y m d → ord2ymd (ymd2ord y m d) = (y, m, d).
Proof.
  intros Hv. pose proof (ymd2ord_range y m d Hv) as [Hn _].
  destruct Hv as (_ & Hm & Hd).
  destruct (ord2ymd (ymd2ord y m d)) as [[y' m'] d'] eqn:E.
  apply ymd2ord_ord2ymd in E as (Heq & _ & Hm' & Hd'); [|done].
  destruct (date_lt_trichotomy y m d y' m' d') as [Hlt|[?|Hlt]]; [|done|];
    apply ymd2ord_lt in Hlt; try done; lia.
Qed.

Lemma valid_midnight y m d : valid_date y m d → valid (DateTime y m d 0 0 0 0).
Proof. intros Hv. unfold valid. cbn. split_and!; done || lia. Qed.

Lemma time_of_day_range t : valid t → 0 ≤ time_of_day t < US_PER_DAY.
Proof.
  intros (_ & ? & ? & ? & ?). unfold time_of_day, US_PER_DAY, US_PER_SECOND. lia.
Qed.

Lemma ord2ymd_year_max n y m d :
  1 ≤ n ≤ MAXORDINAL → ord2ymd n = (y, m, d) → y ≤ MAXYEAR.
Proof.
  intros [Hn Hmax] (Heq & Hy & Hm & Hd)%ymd2ord_ord2ymd; [|done].
  destruct (Z.le_gt_cases y MAXYEAR) as [|Hgt]; [done|].
  assert (ymd2ord 9999 12 31 < ymd2ord y m d).
  { apply ymd2ord_lt; [done|by vm_compute|done..|]. left. done. }
  change (ymd2ord 9999 12 31) with MAXORDINAL in *. lia.
Qed.

(** [of_us] returns values that exist, and [to_us] inverts it. *)
Lemma to_us_of_us us t : of_us us = Ok t → valid t ∧ to_us t = us.
Proof.
  unfold of_us. destruct (_ && _) eqn:Hr; [|done].
  apply andb_prop in Hr as [Hlo%Z.ltb_lt Hhi%Z.leb_le].
  destruct (ord2ymd _) as [[y m] d] eqn:E. intros [= <-].
  assert (y ≤ MAXYEAR) by (eapply ord2ymd_year_max; [|done]; lia).
  apply ymd2ord_ord2ymd in E as (Heq & ? & ? & ?); [|lia].
  unfold valid, valid_date, to_us, toordinal, time_of_day. cbn.
  rewrite Heq. unfold US_PER_DAY, US_PER_SECOND, MINYEAR in *.
  split_and!; try done; zify_div.
Qed.

Lemma of_us_in_range us :
  US_PER_DAY ≤ us < (MAXORDINAL + 1) * US_PER_DAY → ∃ t, of_us us = Ok t.
Proof.
  intros Hus. unfold of_us. destruct (ord2ymd _) as [[y m] d].
  unfold US_PER_DAY, US_PER_SECOND, MAXORDINAL in *.
  case_cmp; cbn [andb]; [by eexists|exfalso; zify_div..].
Qed.

Lemma of_us_overflow us : us < US_PER_DAY → of_us us = Raise overflow_error.
Proof.
  intros Hus. unfold of_us. unfold US_PER_DAY, US_PER_SECOND in *.
  case_cmp; cbn [andb]; [exfalso; zify_div|done..].
Qed.

Lemma sub_timedelta_spec t delta t' :
  sub_timedelta t delta = Ok t' → valid t' ∧ to_us t' = to_us t - delta.
Proof. apply to_us_of_us. Qed.

Lemma toordinal_lt a b :
  valid a → valid b →
  date_lt (year a) (month a) (day a) (year b) (month b) (day b) →
  toordinal a < toordinal b.
Proof.
  intros ((_ & ? & ?) & _) ((_ & ? & ?) & _). by apply ymd2ord_lt.
Qed.

(** [>=] compares the instants. *)
Lemma datetime_ge_spec a b :
  valid a → valid b → datetime_ge a b = (to_us b <=? to_us a).
Proof.
  intros Ha Hb.
  pose proof (toordinal_lt a b Ha Hb) as Hab.
  pose proof (toordinal_lt b a Hb Ha) as Hba.
  pose proof (time_of_day_range a Ha). pose proof (time_of_day_range b Hb).
  assert (year a = year b → month a = month b → day a = day b →
          toordinal a = toordinal b) as Heq
    by (unfold toordinal; by intros -> -> ->).
  destruct Ha as (_ & ? & ? & ? & ?), Hb as (_ & ? & ? & ? & ?).
  unfold datetime_ge, fields, lex_le, to_us, time_of_day, date_lt, US_PER_DAY,
    US_PER_SECOND in *.
  repeat first
    [ progress cbn [orb andb]
    | match goal with
      | |- context [(?x <? ?y)] => destruct (Z.ltb_spec x y)
      | |- context [(?x =? ?y)] => destruct (Z.eqb_spec x y)
      | |- context [(?x <=? ?y)] => destruct (Z.leb_spec x y)
      end ]; try done; exfalso; lia.
Qed.

Lemma digit_range c z : digit c = Some z → 0 ≤ z ≤ 9.
Proof.
  unfold digit. destruct (_ && _) eqn:H; [|done]. intros [= <-].
  apply andb_prop in H as [?%Nat.leb_le ?%Nat.leb_le]. lia.
Qed.

Lemma digit_digit_char z : 0 ≤ z ≤ 9 → digit (digit_char z) = Some z.
Proof.
  intros Hz.
  assert (z = 0 ∨ z = 1 ∨ z = 2 ∨ z = 3 ∨ z = 4 ∨ z = 5 ∨ z = 6 ∨ z = 7
          ∨ z = 8 ∨ z = 9) as H by lia.
  by destruct_or! H; subst z.
Qed.

Lemma parse_Y_range s y rest : parse_Y s = Some (y, rest) → 0 ≤ y ≤ 9999.
Proof.
  destruct s as [|a [|b [|c [|d s]]]]; try done. cbn.
  destruct (digit a) as [a'|] eqn:Ha; [|done].
  destruct (digit b) as [b'|] eqn:Hb; [|done].
  destruct (digit c) as [c'|] eqn:Hc; [|done].
  destruct (digit d) as [d'|] eqn:Hd; [|done]. cbn. intros [= <- <-].
  apply digit_range in Ha, Hb, Hc, Hd. lia.
Qed.

Lemma parse_m_range s m rest : parse_m s = Some (m, rest) → 1 ≤ m ≤ 12.
Proof.
  destruct s as [|a s]; [done|]. cbn.
  destruct (digit a) as [a'|] eqn:Ha; [|done]. cbn.
  apply digit_range in Ha.
  destruct s as [|b s]; [|destruct (digit b) as [b'|] eqn:Hb;
    [apply digit_range in Hb|]]; cbn;
    repeat case_match; intros; simplify_eq; lia.
Qed.

Lemma parse_d_range s d rest : parse_d s = Some (d, rest) → 1 ≤ d ≤ 31.
Proof.
  destruct s as [|a s]; [done|]. cbn.
  destruct (digit a) as [a'|] eqn:Ha.
  - apply digit_range in Ha.
    destruct s as [|b s]; [|destruct (digit b) as [b'|] eqn:Hb;
      [apply digit_range in Hb|]]; cbn;
      repeat case_match; intros; simplify_eq; lia.
  - case_bool_decide; [|done]. destruct s as [|b s]; [done|].
    destruct (digit b) as [b'|] eqn:Hb; [|done]. apply digit_range in Hb.
    cbn. case_match; intros; simplify_eq. lia.
Qed.

(** What [strptime] returns is the midnight of a date that exists. *)
Lemma strptime_Ok s t :
  strptime s = Ok t →
  ∃ y m d, t = DateTime y m d 0 0 0 0 ∧ valid_date y m d
           ∧ match_format s = Some (y, m, d, "").
Proof.
  unfold strptime. destruct (match_format s) as [[[[y m] d] rest]|] eqn:E;
    [|done].
  case_bool_decide as Hrest; [|done]. cbn [negb].
  destruct (Z.ltb_spec y MINYEAR); [done|].
  destruct (Z.ltb_spec (days_in_month y m) d); [done|]. intros [= <-].
  exists y, m, d. subst rest. split_and!; try done.
  unfold match_format in E.
  destruct (parse_Y s) as [[y' s1]|] eqn:HY; [|done]. cbn in E.
  destruct (expect_dash s1) as [s2|]; [|done]. cbn in E.
  destruct (parse_m s2) as [[m' s3]|] eqn:Hm; [|done]. cbn in E.
  destruct (expect_dash s3) as [s4|]; [|done]. cbn in E.
  destruct (parse_d s4) as [[d' s5]|] eqn:Hd; [|done]. cbn in E.
  simplify_eq. apply parse_Y_range in HY. apply parse_m_range in Hm.
  apply parse_d_range in Hd. unfold valid_date, MINYEAR, MAXYEAR in *. lia.
Qed.

Lemma parse_Y_digits4 y rest :
  0 ≤ y ≤ 9999 → parse_Y (digits4 y +:+ rest) = Some (y, rest).
Proof.
  intros Hy. unfold digits4, digits2. rewrite !str_app_cons. cbn [parse_Y].
  rewrite !digit_digit_char by zify_div. cbn. do 2 f_equal. zify_div.
Qed.

Lemma parse_m_digits2 m rest :
  1 ≤ m ≤ 12 → parse_m (digits2 m +:+ rest) = Some (m, rest).
Proof.
  intros Hm. unfold digits2. rewrite !str_app_cons. cbn [parse_m].
  rewrite !digit_digit_char by zify_div. cbn.
  replace (_ || _) with true; [do 2 f_equal; zify_div|].
  symmetry. apply orb_true_iff. rewrite !andb_true_iff. zify_div.
Qed.

Lemma parse_d_digits2 d rest :
  1 ≤ d ≤ 31 → parse_d (digits2 d +:+ rest) = Some (d, rest).
Proof.
  intros Hd. unfold digits2. rewrite !str_app_cons. cbn [parse_d].
  rewrite !digit_digit_char by zify_div. cbn.
  replace (_ || _) with true; [do 2 f_equal; zify_div|].
  symmetry. rewrite !orb_true_iff, !andb_true_iff. zify_div.
Qed.

Lemma expect_dash_app rest : expect_dash ("-" +:+ rest) = Some rest.
Proof. done. Qed.

Lemma match_format_iso y m d :
  0 ≤ y ≤ 9999 → 1 ≤ m ≤ 12 → 1 ≤ d ≤ 31 →
  match_format (isoformat_date y m d) = Some (y, m, d, "").
Proof.
  intros Hy Hm Hd. unfold match_format, isoformat_date.
  rewrite parse_Y_digits4 by done. cbn [mbind option_bind].
  rewrite expect_dash_app. cbn [mbind option_bind].
  rewrite parse_m_digits2 by done. cbn [mbind option_bind].
  rewrite expect_dash_app. cbn [mbind option_bind].
  by rewrite <- (str_app_nil_r (digits2 d)), parse_d_digits2.
Qed.

(** ** The theorems *)


(** C38 (roundtrip). [strptime] reads back the ISO form of every date that
    exists, as the midnight that starts it. *)
Theorem strptime_isoformat_date y m d :
  valid_date y m d → strptime (isoformat_date y m d) = Ok (DateTime y m d 0 0 0 0).
Proof.
  intros ([Hy Hy'] & Hm & Hd). pose proof (days_in_month_range y m Hm).
  unfold MINYEAR, MAXYEAR in *. unfold strptime.
  rewrite match_format_iso by lia. cbn.
  destruct (Z.ltb_spec y MINYEAR); [unfold MINYEAR in *; lia|].
  by destruct (Z.ltb_spec (days_in_month y m) d); [lia|].
Qed.

(** Whatever [strptime] returns is a [datetime] that
    exists, at midnight. *)
Theorem strptime_midnight s t :
  strptime s = Ok t → valid t ∧ time_of_day t = 0.
Proof.
  intros (y & m & d & -> & Hv & _)%strptime_Ok. split; [|done].
  by apply valid_midnight.
Qed.

(** Every ordinal from 1 to [MAXORDINAL] is the ordinal of
    exactly the date that [ord2ymd] returns, and that date exists. *)
Theorem ord2ymd_valid n :
  1 ≤ n ≤ MAXORDINAL →
  ∃ y m d, ord2ymd n = (y, m, d) ∧ valid_date y m d ∧ ymd2ord y m d = n.
Proof.
  intros Hn. destruct (ord2ymd n) as [[y m] d] eqn:E. exists y, m, d.
  pose proof (ord2ymd_year_max _ _ _ _ Hn E).
  apply ymd2ord_ord2ymd in E as (? & ? & ? & ?); [|lia].
  unfold valid_date, MINYEAR. split_and!; done || lia.
Qed.

(** On values that exist, [>=] is the order of the
    instants: the comparison field by field agrees with the comparison of
    the numbers of microseconds. *)
Theorem datetime_ge_instants a b :
  valid a → valid b → datetime_ge a b = true ↔ to_us b ≤ to_us a.
Proof.
  intros Ha Hb. rewrite datetime_ge_spec by done. apply Z.leb_le.
Qed.

(** Subtracting a duration from a [datetime] that exists
    yields the [datetime] of the earlier instant, as long as that instant is
    not before 0001-01-01; before it, [OverflowError] is raised. *)
Theorem sub_timedelta_total t delta :
  valid t → 0 ≤ delta →
  if decide (US_PER_DAY ≤ to_us t - delta) then
    ∃ t', sub_timedelta t delta = Ok t' ∧ valid t'
          ∧ to_us t' = to_us t - delta
  else sub_timedelta t delta = Raise overflow_error.
Proof.
  intros Hv Hdelta. pose proof (time_of_day_range t Hv) as Htod.
  destruct Hv as [Hd%ymd2ord_range _]. fold (toordinal t) in Hd.
  unfold sub_timedelta. case_decide as Hlo; [|apply of_us_overflow; lia].
  destruct (of_us_in_range (to_us t - delta)) as [t' Ht'].
  { unfold to_us, US_PER_DAY, US_PER_SECOND, MAXORDINAL in *. lia. }
  exists t'. split; [done|]. by apply to_us_of_us.
Qed.

(** ** Examples *)


Lemma strptime_isoformat_date_witness :
  strptime "2024-02-29" = Ok (DateTime 2024 2 29 0 0 0 0).
Proof. apply (strptime_isoformat_date 2024 2 29). by vm_compute. Defined.

Lemma strptime_midnight_witness :
  valid (DateTime 2024 5 10 0 0 0 0)
  ∧ time_of_day (DateTime 2024 5 10 0 0 0 0) = 0.
Proof. exact (strptime_midnight "2024-05-10" _ eq_refl). Defined.

(** The last day: 9999-12-31. *)
Lemma ord2ymd_valid_witness :
  ∃ y m d, ord2ymd MAXORDINAL = (y, m, d) ∧ valid_date y m d
           ∧ ymd2ord y m d = MAXORDINAL.
Proof. apply ord2ymd_valid. by vm_compute. Defined.

Lemma datetime_ge_instants_witness :
  datetime_ge (DateTime 2024 5 10 0 0 0 0) (DateTime 2024 5 9 9 0 0 0) = true
  ↔ to_us (DateTime 2024 5 9 9 0 0 0) ≤ to_us (DateTime 2024 5 10 0 0 0 0).
Proof. apply datetime_ge_instants; by vm_compute. Defined.

(** 24 hours before 2024-03-01 09:00 is 2024-02-29 09:00. *)
Lemma sub_timedelta_total_witness :
  ∃ t', sub_timedelta (DateTime 2024 3 1 9 0 0 0) (timedelta_hours 24) = Ok t'
        ∧ valid t'
        ∧ to_us t' = to_us (DateTime 2024 3 1 9 0 0 0) - timedelta_hours 24.
Proof.
  exact (sub_timedelta_total (DateTime 2024 3 1 9 0 0 0) (timedelta_hours 24)
           ltac:(by vm_compute) ltac:(by vm_compute)).
Defined.
