(* ===== verification/World.v ===== *)
(** * World: effects of the program

    The program talks to the network ([requests.get]), the clock
    ([time.sleep], [datetime.now]), the random generator
    ([random.uniform]), the log ([logger.info], [logger.error]) and Slack
    ([client.chat_postMessage]); it reads three environment variables when
    the module is loaded (lines 18-20).

    [Env] is what the outside decides: the outcome of the [n]-th HTTP
    request, the [n]-th random draw, the outcome of the [n]-th Slack call,
    the HTML parser and the variables of the process ([os.environ]). [World] is what the
    program changes: the clock, the three call counters and the trace of its
    observable actions in program order. A computation is a function of both
    that returns a value or an exception and the new state ([M]). The run
    lemmas at the end say how each primitive moves the state ([advance]);
    [mrun] runs a computation with them. *)

From S2P Require Import Prelude PyStr Html DateTime.

(** ** Events *)

Variant level : Set := INFO | ERROR.

#[export] Instance level_eq_dec : EqDecision level.
Proof. solve_decision. Defined.

(** A [slack_sdk.WebClient]: the token that it was created with. *)
Record WebClient : Set := { token : option string }.

#[export] Instance WebClient_eq_dec : EqDecision WebClient.
Proof. solve_decision. Defined.

(** What an observer of a run sees. *)
Variant event : Type :=
  | EvGet (url : string) (headers : list (string * string))
  | EvLog (lvl : level) (msg : string)
  | EvSleep (us : Z)
  | EvPost (client : WebClient) (channel : option string) (text : string)
      (blocks : string) (delivered : bool).

#[export] Instance event_eq_dec : EqDecision event.
Proof. solve_decision. Defined.

(** ** The environment *)

(** The attributes of a [requests.Response] that the program reads. *)
Record response : Type := Response {
  status_code : Z;
  text : string;
  content : string
}.

Record Env : Type := {
  (** [requests.get(url, ...)], by the number of earlier requests *)
  net : nat → string → res response;
  (** the random generator: the [n]-th draw, a number of millionths *)
  draw : nat → Z;
  (** [client.chat_postMessage(...)], by the number of earlier calls *)
  slack_api : nat → option exn;
  (** [lxml.html.fromstring]: the tree, or [None] for a document that the
      parser refuses *)
  fromstring : string → option node;
  (** [os.environ]: the variables of the process; the program never writes
      to it *)
  environ : string → option string
}.

(** [os.getenv(key)]: the value of the variable, [None] when it is not
    set. *)
Definition os_getenv (key : string) (env : Env) : option string :=
  environ env key.

(** Lines 18-20: the module globals. They are bound once, when the module is
    loaded; the process environment does not change afterwards, so every
    later use reads the same value. *)
Definition SLACK_API_KEY : Env → option string := os_getenv "SLACK_API_KEY".
Definition CHANNEL_ID : Env → option string := os_getenv "CHANNEL_ID".
Definition IMAGE_URL : Env → option string := os_getenv "IMAGE_URL".

(** ** The state *)

Record World : Type := {
  clock : Z;            (* microseconds, as [DateTime.to_us] counts them *)
  n_get : nat;          (* HTTP requests made *)
  n_draw : nat;         (* random numbers drawn *)
  n_post : nat;         (* Slack calls made *)
  trace : list event    (* oldest first *)
}.

Definition M (A : Type) : Type := Env → World → res A * World.

#[export] Instance M_ret : MRet M := λ A a _ w, (Ok a, w).
#[export] Instance M_bind : MBind M := λ A B f m env w,
  match m env w with
  | (Ok a, w') => f a env w'
  | (Raise e, w') => (Raise e, w')
  end.
#[export] Instance M_fmap : FMap M := λ A B f m env w,
  match m env w with
  | (Ok a, w') => (Ok (f a), w')
  | (Raise e, w') => (Raise e, w')
  end.

(** A pure expression that may raise. *)
Definition lift {A} (r : res A) : M A := λ _ w, (r, w).

Definition ask : M Env := λ env w, (Ok env, w).

(** [try: body except cls as e: handler e]; [cls = None] is
    [except Exception]. *)
Definition try_except {A} (body : M A) (cls : option exn_class)
    (handler : exn → M A) : M A := λ env w,
  match body env w with
  | (Ok a, w') => (Ok a, w')
  | (Raise e, w') =>
      if from_option (isinstance e) true cls then handler e env w'
      else (Raise e, w')
  end.

Definition emit (ev : event) : M unit := λ _ w,
  (Ok tt, {| clock := clock w; n_get := n_get w; n_draw := n_draw w;
             n_post := n_post w; trace := trace w ++ [ev] |}).

(** ** The primitives *)

Definition logger_info (msg : string) : M unit := emit (EvLog INFO msg).
Definition logger_error (msg : string) : M unit := emit (EvLog ERROR msg).

(** [requests.get(url, headers=headers)]. *)
Definition requests_get (url : string) (headers : list (string * string))
    : M response := λ env w,
  (net env (n_get w) url,
   {| clock := clock w; n_get := S (n_get w); n_draw := n_draw w;
      n_post := n_post w; trace := trace w ++ [EvGet url headers] |}).

(** [time.sleep(t)], [t] in microseconds. A negative argument raises
    [ValueError]. *)
Definition time_sleep (us : Z) : M unit := λ _ w,
  if (us <? 0)%Z then
    (Raise (value_error "sleep length must be non-negative"), w)
  else
    (Ok tt, {| clock := clock w + us; n_get := n_get w; n_draw := n_draw w;
               n_post := n_post w; trace := trace w ++ [EvSleep us] |}).

(** [random.uniform(a, b)] is [a + (b - a) * random()], [random()] in
    [0, 1); the bounds and the result count microseconds. *)
Definition random_uniform (a b : Z) : M Z := λ env w,
  (Ok (a + ((b - a) * (draw env (n_draw w) `mod` 1000000)) `div` 1000000)%Z,
   {| clock := clock w; n_get := n_get w; n_draw := S (n_draw w);
      n_post := n_post w; trace := trace w |}).

(** [datetime.now()]. *)
Definition datetime_now : M datetime := λ _ w, (of_us (clock w), w).

Definition parser_error : exn := Exn ParserError "Document is empty".

(** [html.fromstring(content)]. *)
Definition html_fromstring (content : string) : M node := λ env w,
  (match fromstring env content with
   | Some tree => Ok tree
   | None => Raise parser_error
   end, w).

(** [client.chat_postMessage(channel=..., text=..., blocks=...)]. *)
Definition chat_postMessage (client : WebClient) (channel : option string)
    (text blocks : string) : M unit := λ env w,
  let r := slack_api env (n_post w) in
  (match r with None => Ok tt | Some e => Raise e end,
   {| clock := clock w; n_get := n_get w; n_draw := n_draw w;
      n_post := S (n_post w);
      trace := trace w ++ [EvPost client channel text blocks
                              (bool_decide (r = None))] |}).

(** ** Reading a trace *)

Definition is_get (ev : event) : bool :=
  match ev with EvGet _ _ => true | _ => false end.

Definition slept (ev : event) : option Z :=
  match ev with EvSleep us => Some us | _ => None end.

(** The durations of the sleeps of a trace, in order. *)
Definition sleeps (tr : list event) : list Z := omap slept tr.

(** The URLs requested, in order. *)
Definition gets (tr : list event) : list string :=
  omap (λ ev, match ev with EvGet u _ => Some u | _ => None end) tr.

(** The messages handed to Slack that were delivered, in order. *)
Definition posts (tr : list event) : list (option string * string * string) :=
  omap (λ ev, match ev with
              | EvPost _ c t b true => Some (c, t, b)
              | _ => None
              end) tr.

(** The log records. *)
Definition logs (tr : list event) : list (level * string) :=
  omap (λ ev, match ev with EvLog l m => Some (l, m) | _ => None end) tr.

Definition sumZ (l : list Z) : Z := foldr Z.add 0%Z l.

(** The state after the events [evs] and [draws] random draws: every
    computation of the program moves the state this way
    ([Fetcher.makerequest_advance] and its like). *)
Definition advance (w : World) (evs : list event) (draws : nat) : World :=
  {| clock := clock w + sumZ (sleeps evs);
     n_get := n_get w + length (gets evs);
     n_draw := n_draw w + draws;
     n_post := n_post w + length (omap (λ ev, match ev with
                                              | EvPost _ _ _ _ _ => Some ()
                                              | _ => None
                                              end) evs);
     trace := trace w ++ evs |}.

(** The [n]-th random delay of [random.uniform(a, b)]. *)
Definition uniform_at (env : Env) (n : nat) (a b : Z) : Z :=
  (a + ((b - a) * (draw env n `mod` 1000000)) `div` 1000000)%Z.

(** ** A concrete environment for the examples *)

Module Fixture.

Definition page : node := Element "html" [] [Text "ok"].

Definition timed_out : exn := Exn RequestException "timed out".

(** The variables of the process of the examples. *)
Definition variables (key : string) : option string :=
  if decide (key = "SLACK_API_KEY") then Some "xoxb-token"
  else if decide (key = "CHANNEL_ID") then Some "C0123"
  else if decide (key = "IMAGE_URL") then Some "https://example.org/zdi.png"
  else None.

(** An environment with the given network, Slack behaviour and parser; the
    [n]-th random draw is [n * 250000] millionths. With [env_of] the parser
    refuses only the empty document. *)
Definition env_with (nets : nat → string → res response)
    (slk : nat → option exn) (parse : string → option node) : Env :=
  {| net := nets;
     draw := λ n, (Z.of_nat n * 250000)%Z;
     slack_api := slk;
     fromstring := parse;
     environ := variables |}.

Definition env_of (nets : nat → string → res response)
    (slk : nat → option exn) : Env :=
  env_with nets slk (λ s, if decide (s = "") then None else Some page).

(** The start of a run on 2024-05-10 at 09:00. *)
Definition w0 : World :=
  {| clock := to_us (DateTime 2024 5 10 9 0 0 0);
     n_get := 0; n_draw := 0; n_post := 0; trace := [] |}.

(** A network that fails the first [k] requests and then answers every
    request with [r]. *)
Definition flaky (k : nat) (r : response) : nat → string → res response :=
  λ n _, if n <? k then Raise timed_out else Ok r.

Definition ok_response : response :=
  {| status_code := 200; text := "<html>ok</html>";
     content := "<html>ok</html>" |}.

Definition not_found : response :=
  {| status_code := 404; text := "not found"; content := "not found" |}.

End Fixture.

(** ** The laws of [M] *)

Section laws.
Context {A B C : Type}.
Implicit Types (m : M A) (f : A → M B) (g : B → M C) (env : Env) (w : World).

Lemma run_bind m f env w :
  (m ≫= f) env w =
    match m env w with
    | (Ok a, w') => f a env w'
    | (Raise e, w') => (Raise e, w')
    end.
Proof. done. Qed.

Lemma run_ret (a : A) env w : mret (M := M) a env w = (Ok a, w).
Proof. done. Qed.

Lemma run_bind_ok m f env w a w' :
  m env w = (Ok a, w') → (m ≫= f) env w = f a env w'.
Proof. intros H. by rewrite run_bind, H. Qed.

Lemma run_bind_raise m f env w e w' :
  m env w = (Raise e, w') → (m ≫= f) env w = (Raise e, w').
Proof. intros H. by rewrite run_bind, H. Qed.

Lemma run_try_ok (body : M A) cls h env w a w' :
  body env w = (Ok a, w') → try_except body cls h env w = (Ok a, w').
Proof. intros H. unfold try_except. by rewrite H. Qed.

Lemma run_try_caught (body : M A) cls h env w e w' :
  body env w = (Raise e, w') → from_option (isinstance e) true cls = true →
  try_except body cls h env w = h e env w'.
Proof. intros H Hc. unfold try_except. by rewrite H, Hc. Qed.

Lemma run_try_uncaught (body : M A) cls h env w e w' :
  body env w = (Raise e, w') → from_option (isinstance e) true cls = false →
  try_except body cls h env w = (Raise e, w').
Proof. intros H Hc. unfold try_except. by rewrite H, Hc. Qed.

End laws.

(** ** The primitives move the state by [advance] *)

Lemma advance_nil w : advance w [] 0 = w.
Proof.
  destruct w. unfold advance. simpl. f_equal; try lia. apply app_nil_r.
Qed.

Lemma sumZ_app l1 l2 : sumZ (l1 ++ l2) = (sumZ l1 + sumZ l2)%Z.
Proof. unfold sumZ. induction l1 as [|x l1 IH]; simpl; lia. Qed.

Lemma advance_advance w e1 d1 e2 d2 :
  advance (advance w e1 d1) e2 d2 = advance w (e1 ++ e2) (d1 + d2).
Proof.
  unfold advance, sleeps, gets. simpl.
  rewrite !omap_app, !length_app, sumZ_app, (assoc_L (++)).
  f_equal; lia.
Qed.

Lemma run_emit ev env w :
  emit ev env w =
    (Ok tt, {| clock := clock w; n_get := n_get w; n_draw := n_draw w;
               n_post := n_post w; trace := trace w ++ [ev] |}).
Proof. done. Qed.

Lemma run_logger_info msg env w :
  logger_info msg env w = (Ok tt, advance w [EvLog INFO msg] 0).
Proof.
  unfold logger_info, emit, advance. simpl. do 2 f_equal; lia.
Qed.

Lemma run_logger_error msg env w :
  logger_error msg env w = (Ok tt, advance w [EvLog ERROR msg] 0).
Proof.
  unfold logger_error, emit, advance. simpl. do 2 f_equal; lia.
Qed.

Lemma run_requests_get url hs env w :
  requests_get url hs env w =
    (net env (n_get w) url, advance w [EvGet url hs] 0).
Proof. unfold requests_get, advance. simpl. do 2 f_equal; lia. Qed.

Lemma run_time_sleep us env w :
  (0 ≤ us)%Z → time_sleep us env w = (Ok tt, advance w [EvSleep us] 0).
Proof.
  intros H. unfold time_sleep, advance. simpl.
  destruct (Z.ltb_spec us 0); [lia|]. do 2 f_equal; lia.
Qed.

Lemma run_time_sleep_neg us env w :
  (us < 0)%Z →
  time_sleep us env w =
    (Raise (value_error "sleep length must be non-negative"), w).
Proof. intros H. unfold time_sleep. by destruct (Z.ltb_spec us 0); [|lia]. Qed.

Lemma run_random_uniform a b env w :
  random_uniform a b env w = (Ok (uniform_at env (n_draw w) a b), advance w [] 1).
Proof.
  unfold random_uniform, advance, uniform_at. simpl.
  rewrite app_nil_r. do 2 f_equal; lia.
Qed.

Lemma run_chat_postMessage k c t b env w :
  chat_postMessage k c t b env w =
    (match slack_api env (n_post w) with None => Ok tt | Some e => Raise e end,
     advance w [EvPost k c t b
                  (bool_decide (slack_api env (n_post w) = None))] 0).
Proof. unfold chat_postMessage, advance. simpl. do 2 f_equal; lia. Qed.

Lemma uniform_at_range env n a b :
  (a ≤ b)%Z → (a ≤ uniform_at env n a b ≤ b)%Z.
Proof.
  intros Hab. unfold uniform_at.
  pose proof (Z.mod_pos_bound (draw env n) 1000000 eq_refl) as Hu.
  set (u := (draw env n `mod` 1000000)%Z) in *.
  assert (0 ≤ ((b - a) * u) `div` 1000000)%Z by (apply Z.div_pos; nia).
  assert (((b - a) * u) `div` 1000000 ≤ b - a)%Z
    by (apply Z.div_le_upper_bound; nia).
  lia.
Qed.

Lemma run_lift {A} (r : res A) env w : lift r env w = (r, w).
Proof. done. Qed.

Lemma run_ask env w : ask env w = (Ok env, w).
Proof. done. Qed.

Lemma run_html_fromstring s env w :
  html_fromstring s env w =
    (match fromstring env s with
     | Some tree => Ok tree
     | None => Raise parser_error
     end, w).
Proof. done. Qed.

Lemma run_datetime_now env w : datetime_now env w = (of_us (clock w), w).
Proof. done. Qed.

Lemma n_get_advance w evs d : n_get (advance w evs d) = n_get w + length (gets evs).
Proof. done. Qed.

Lemma n_post_advance w evs d :
  n_post (advance w evs d) =
    n_post w + length (omap (λ ev, match ev with
                                   | EvPost _ _ _ _ _ => Some ()
                                   | _ => None
                                   end) evs).
Proof. done. Qed.

Lemma n_draw_advance w evs d : n_draw (advance w evs d) = n_draw w + d.
Proof. done. Qed.

Lemma trace_advance w evs d : trace (advance w evs d) = trace w ++ evs.
Proof. done. Qed.

Lemma clock_advance w evs d :
  clock (advance w evs d) = (clock w + sumZ (sleeps evs))%Z.
Proof. done. Qed.

Lemma posts_app tr1 tr2 : posts (tr1 ++ tr2) = posts tr1 ++ posts tr2.
Proof. apply omap_app. Qed.

Lemma sleeps_app e1 e2 : sleeps (e1 ++ e2) = sleeps e1 ++ sleeps e2.
Proof. apply omap_app. Qed.

Lemma gets_app e1 e2 : gets (e1 ++ e2) = gets e1 ++ gets e2.
Proof. apply omap_app. Qed.

Lemma logs_app e1 e2 : logs (e1 ++ e2) = logs e1 ++ logs e2.
Proof. apply omap_app. Qed.

Lemma sumZ_nonneg l : Forall (λ us, (0 ≤ us)%Z) l → (0 ≤ sumZ l)%Z.
Proof. induction 1; simpl; lia. Qed.

#[global] Opaque advance.

#[export] Hint Rewrite @run_bind @run_ret @run_lift run_ask
  run_logger_info
  run_logger_error run_requests_get run_random_uniform run_chat_postMessage
  run_html_fromstring run_datetime_now advance_advance advance_nil
  n_get_advance n_draw_advance trace_advance clock_advance : py.
(** Proves that the argument of a [time.sleep] is not negative. *)
Ltac solve_nonneg :=
  unfold US_PER_SECOND in *;
  first
    [ lia
    | match goal with
      | |- (0 ≤ uniform_at ?e ?n ?a ?b)%Z =>
          pose proof (uniform_at_range e n a b ltac:(lia)); lia
      end ].

#[export] Hint Rewrite run_time_sleep using solve_nonneg : py.
#[export] Hint Rewrite Nat.add_0_r @app_nil_r : py.

(** Runs a computation symbolically as far as the primitives decide it. *)
Ltac mrun :=
  repeat (progress (autorewrite with py; cbv beta iota;
                    cbn [from_option Nat.add app])).
