(* ===== verification/Runs.v ===== *)
(** * Runs: relations between the states of a run

    What the program guarantees of the state it leaves, whatever the outside
    does, is stated as a relation [R] between the state at the start and the
    state at the end. A computation is [closed R] when every run of it is in
    [R]; sequencing and [try]/[except] keep computations closed when [R] is
    a preorder, so a function of the program is closed as soon as the
    primitives it calls are ([Primitives], [Posting]).

    The relations: [extends] (the state only grows), [silent] (nothing is
    handed to Slack), [advances] (the state is the start advanced by the
    events since), [only P] (the events since all satisfy [P]). [spends]
    bounds the requests, the Slack calls and the sleep between two states;
    it adds up along a run. *)

From S2P Require Import Prelude PyStr Html DateTime World.

(** ** The relations *)

Definition closed (R : relation World) {A} (m : M A) : Prop :=
  ∀ env w, R w (m env w).2.

(** [R] holds across every primitive that changes the state, the call of
    Slack apart. *)
Class Primitives (R : relation World) : Prop := {
  #[global] primitives_po :: PreOrder R;
  closed_logger_info msg : closed R (logger_info msg);
  closed_logger_error msg : closed R (logger_error msg);
  closed_requests_get url hs : closed R (requests_get url hs);
  closed_time_sleep us : closed R (time_sleep us);
  closed_random_uniform a b : closed R (random_uniform a b)
}.

(** [R] holds across a call of Slack. *)
Class Posting (R : relation World) : Prop :=
  closed_chat_postMessage k c t b : closed R (chat_postMessage k c t b).

#[global] Hint Mode Primitives ! : typeclass_instances.
#[global] Hint Mode Posting ! : typeclass_instances.

(** [w'] is a state that a computation started in [w] can reach: the trace
    is extended, no counter and no clock goes back. *)
Record extends (w w' : World) : Prop := {
  ext_trace : trace w `prefix_of` trace w';
  ext_clock : (clock w ≤ clock w')%Z;
  ext_get : n_get w ≤ n_get w';
  ext_draw : n_draw w ≤ n_draw w';
  ext_post : n_post w ≤ n_post w'
}.

(** A computation that only extends the state, whatever it returns. *)
Abbreviation monotone := (closed extends).

(** Nothing was handed to Slack between [w] and [w']: the delivered
    messages and the number of Slack calls are the same. *)
Definition silent (w w' : World) : Prop :=
  posts (trace w') = posts (trace w) ∧ n_post w' = n_post w.

Abbreviation quiet := (closed silent).

(** [w'] is [w] after some events, none of them a sleep of negative length:
    the clock of [w'] is the clock of [w] plus the sleeps since, and the
    counters of requests and of Slack calls count the events since. *)
Definition advances (w w' : World) : Prop :=
  ∃ evs d, Forall (λ us, (0 ≤ us)%Z) (sleeps evs) ∧ w' = advance w evs d.

(** The events between [w] and [w'] all satisfy [P]. *)
Definition only (P : event → Prop) (w w' : World) : Prop :=
  ∃ evs, trace w' = trace w ++ evs ∧ Forall P evs.

(** A property of events that requests, log records and sleeps have. *)
Class Harmless (P : event → Prop) : Prop := {
  harmless_get url hs : P (EvGet url hs);
  harmless_log l msg : P (EvLog l msg);
  harmless_sleep us : P (EvSleep us)
}.

(** Between [w] and [w'] there are at most [g] requests, [p] calls of Slack
    and [t] microseconds of sleep. *)
Definition spends (g p : nat) (t : Z) (w w' : World) : Prop :=
  n_get w' ≤ n_get w + g ∧ n_post w' ≤ n_post w + p
  ∧ (clock w' ≤ clock w + t)%Z.

(** ** Closed computations *)

Section closed.
Context (R : relation World) `{!PreOrder R} {A B : Type}.

Lemma closed_ret (a : A) : closed R (mret a).
Proof. by intros env w. Qed.

Lemma closed_lift (r : res A) : closed R (lift r).
Proof. by intros env w. Qed.

Lemma closed_bind (m : M A) (f : A → M B) :
  closed R m → (∀ a, closed R (f a)) → closed R (m ≫= f).
Proof.
  intros Hm Hf env w. rewrite run_bind. specialize (Hm env w).
  destruct (m env w) as [[a|e] w']; [|done]. etrans; [done|apply Hf].
Qed.

Lemma closed_try (body : M A) cls h :
  closed R body → (∀ e, closed R (h e)) → closed R (try_except body cls h).
Proof.
  intros Hm Hh env w. unfold try_except. specialize (Hm env w).
  destruct (body env w) as [[a|e] w']; [done|].
  destruct (from_option _ _ _); [|done]. etrans; [done|apply Hh].
Qed.

End closed.

Section reads.
Context (R : relation World) `{!PreOrder R}.

Lemma closed_ask : closed R ask.
Proof. by intros env w. Qed.

Lemma closed_datetime_now : closed R datetime_now.
Proof. by intros env w. Qed.

Lemma closed_html_fromstring s : closed R (html_fromstring s).
Proof. by intros env w. Qed.

End reads.

#[export] Hint Resolve closed_ret closed_lift closed_ask closed_datetime_now
  closed_html_fromstring closed_requests_get closed_time_sleep
  closed_random_uniform closed_chat_postMessage closed_logger_info
  closed_logger_error : py.

(** Proves that a computation built from the primitives is closed. *)
Ltac solve_closed :=
  repeat lazymatch goal with
  | |- closed ?R _ =>
      first
        [ apply (closed_bind R); [|intros ?]
        | apply (closed_try R); [|intros ?]
        | solve [eauto with py typeclass_instances]
        | case_match ]
  end.

(** ** Traces only grow *)

#[export] Instance extends_po : PreOrder extends.
Proof.
  split.
  - intros w. by split.
  - intros w1 w2 w3 [] []. split; by etrans.
Qed.

Lemma extends_advance w evs d :
  Forall (λ us, (0 ≤ us)%Z) (sleeps evs) → extends w (advance w evs d).
Proof.
  intros H%sumZ_nonneg.
  split;
    rewrite ?trace_advance, ?clock_advance, ?n_get_advance, ?n_draw_advance,
      ?n_post_advance; [by apply prefix_app_r|lia..].
Qed.

#[export] Instance extends_primitives : Primitives extends.
Proof.
  split; [apply _|..].
  - intros msg env w. rewrite run_logger_info. by apply extends_advance.
  - intros msg env w. rewrite run_logger_error. by apply extends_advance.
  - intros url hs env w. rewrite run_requests_get. by apply extends_advance.
  - intros us env w. destruct (Z.ltb_spec us 0).
    + by rewrite run_time_sleep_neg.
    + rewrite run_time_sleep by done. apply extends_advance.
      by repeat constructor.
  - intros a b env w. rewrite run_random_uniform. by apply extends_advance.
Qed.

#[export] Instance extends_posting : Posting extends.
Proof.
  intros k c t b env w. rewrite run_chat_postMessage. by apply extends_advance.
Qed.

(** ** Computations that post nothing *)

#[export] Instance silent_po : PreOrder silent.
Proof.
  split; [done|]. intros w1 w2 w3 [H1 H2] [H3 H4]. split; congruence.
Qed.

Lemma silent_advance w evs d :
  Forall (λ ev, match ev with EvPost _ _ _ _ _ => False | _ => True end) evs →
  silent w (advance w evs d).
Proof.
  intros H. split; rewrite ?trace_advance, ?n_post_advance.
  - rewrite posts_app. replace (posts evs) with (@nil (option string * string * string));
      [by rewrite app_nil_r|].
    induction H as [|[] evs Hev _ IH]; try done.
  - replace (length _) with 0; [lia|].
    induction H as [|[] evs Hev _ IH]; try done.
Qed.

#[export] Instance silent_primitives : Primitives silent.
Proof.
  split; [apply _|..].
  - intros msg env w. rewrite run_logger_info.
    apply silent_advance. by repeat constructor.
  - intros msg env w. rewrite run_logger_error.
    apply silent_advance. by repeat constructor.
  - intros url hs env w. rewrite run_requests_get.
    apply silent_advance. by repeat constructor.
  - intros us env w. destruct (Z.ltb_spec us 0).
    + by rewrite run_time_sleep_neg.
    + rewrite run_time_sleep by done. apply silent_advance.
      by repeat constructor.
  - intros a b env w. rewrite run_random_uniform. by apply silent_advance.
Qed.

(** ** The state is the start advanced by the trace *)

Lemma advances_by w evs d :
  Forall (λ us, (0 ≤ us)%Z) (sleeps evs) → advances w (advance w evs d).
Proof. intros H. by exists evs, d. Qed.

#[export] Instance advances_po : PreOrder advances.
Proof.
  split.
  - intros w. exists [], 0. by rewrite advance_nil.
  - intros w1 w2 w3 (e1 & d1 & H1 & ->) (e2 & d2 & H2 & ->).
    rewrite advance_advance. apply advances_by.
    rewrite sleeps_app. by apply Forall_app.
Qed.

#[export] Instance advances_primitives : Primitives advances.
Proof.
  split; [apply _|..].
  - intros msg env w. rewrite run_logger_info. by apply advances_by.
  - intros msg env w. rewrite run_logger_error. by apply advances_by.
  - intros url hs env w. rewrite run_requests_get. by apply advances_by.
  - intros us env w. destruct (Z.ltb_spec us 0).
    + by rewrite run_time_sleep_neg.
    + rewrite run_time_sleep by done. apply advances_by. by repeat constructor.
  - intros a b env w. rewrite run_random_uniform. by apply advances_by.
Qed.

#[export] Instance advances_posting : Posting advances.
Proof.
  intros k c t b env w. rewrite run_chat_postMessage. by apply advances_by.
Qed.

Lemma advances_extends w w' : advances w w' → extends w w'.
Proof. intros (evs & d & H & ->). by apply extends_advance. Qed.

(** ** The events of a run *)

#[export] Instance only_po P : PreOrder (only P).
Proof.
  split.
  - intros w. exists []. by rewrite app_nil_r.
  - intros w1 w2 w3 (e1 & H1 & ?) (e2 & H2 & ?). exists (e1 ++ e2).
    split; [by rewrite H2, H1, (assoc_L (++))|by apply Forall_app].
Qed.

Lemma only_advance P w evs d : Forall P evs → only P w (advance w evs d).
Proof. intros H. exists evs. by rewrite trace_advance. Qed.

#[export] Instance only_primitives `{!Harmless P} : Primitives (only P).
Proof.
  split; [apply _|..].
  - intros msg env w. rewrite run_logger_info. apply only_advance.
    repeat constructor. apply harmless_log.
  - intros msg env w. rewrite run_logger_error. apply only_advance.
    repeat constructor. apply harmless_log.
  - intros url hs env w. rewrite run_requests_get. apply only_advance.
    repeat constructor. apply harmless_get.
  - intros us env w. destruct (Z.ltb_spec us 0).
    + by rewrite run_time_sleep_neg.
    + rewrite run_time_sleep by done. apply only_advance.
      repeat constructor. apply harmless_sleep.
  - intros a b env w. rewrite run_random_uniform. by apply only_advance.
Qed.

(** ** What a run costs *)

Lemma spends_refl w : spends 0 0 0 w w.
Proof. unfold spends. lia. Qed.

Lemma spends_trans g1 p1 t1 g2 p2 t2 w1 w2 w3 :
  spends g1 p1 t1 w1 w2 → spends g2 p2 t2 w2 w3 →
  spends (g1 + g2) (p1 + p2) (t1 + t2) w1 w3.
Proof. unfold spends. lia. Qed.

Lemma spends_le g p t g' p' t' w w' :
  spends g p t w w' → g ≤ g' → p ≤ p' → (t ≤ t')%Z → spends g' p' t' w w'.
Proof. unfold spends. lia. Qed.

Lemma spends_advance w evs d :
  spends (length (gets evs))
    (length (omap (λ ev, match ev with
                         | EvPost _ _ _ _ _ => Some ()
                         | _ => None
                         end) evs))
    (sumZ (sleeps evs)) w (advance w evs d).
Proof.
  unfold spends. rewrite n_get_advance, n_post_advance, clock_advance. lia.
Qed.
