(* ===== verification/Logging.v ===== *)
(** * Logging: the configuration of lines 13-16 and what it writes

    [logging.basicConfig] gives the root logger one handler that writes to
    [sys.stdout], the threshold [INFO] and a format in the [%] style;
    [logging.getLogger(__name__)] is a logger of its own, without a level
    and without a handler, whose records reach the handler of the root.

    [basicConfig] and [logger] are the two statements. The rest of the file
    is what they mean for a call of [logger.info] or [logger.error]:
    [isEnabledFor] is the threshold, [parse_format] and [render] interpret
    the format, [asctime] is the time stamp of a record and [written] is
    what a trace leaves on the stream, one write per record. *)

From stdpp Require Import sorting.
From S2P Require Import Prelude PyStr DateTime World Runs.

(** ** The code *)

Variant stream : Set := Stdout | Stderr.

(** The numeric value of a level. *)
Definition levelno (l : level) : Z :=
  match l with INFO => 20 | ERROR => 40 end.

Definition levelname (l : level) : string :=
  match l with INFO => "INFO" | ERROR => "ERROR" end.

(** The level of a logger that has none of its own. *)
Definition NOTSET : Z := 0.

(** What [basicConfig] sets up: the stream of the handler and the format of
    its formatter, and the level of the root logger. *)
Record Config : Set := {
  config_stream : stream;
  config_level : Z;
  config_format : string
}.

(** Lines 13-15. *)
Definition basicConfig : Config :=
  {| config_stream := Stdout;
     config_level := levelno INFO;
     config_format := "%(asctime)s - %(name)s - %(levelname)s - %(message)s" |}.

Record Logger : Set := {
  logger_name : string;
  logger_level : Z
}.

(** [logging.getLogger(name)], the first time the name is asked for. *)
Definition getLogger (name : string) : Logger :=
  {| logger_name := name; logger_level := NOTSET |}.

(** Line 16: the logger of the module, named after it. *)
Definition logger (__name__ : string) : Logger := getLogger __name__.

(** ** Records *)

(** The attributes of a [LogRecord] that a format of the model can name. *)
Record LogRecord : Set := {
  created : Z;          (* the clock at the call, in microseconds *)
  name : string;
  level_of : level;
  message : string
}.

(** [Logger.getEffectiveLevel]: the level of the logger, or of the root when
    it has none. *)
Definition getEffectiveLevel (cfg : Config) (lg : Logger) : Z :=
  if (logger_level lg =? NOTSET)%Z then config_level cfg else logger_level lg.

(** [Logger.isEnabledFor(level)]. *)
Definition isEnabledFor (cfg : Config) (lg : Logger) (l : level) : bool :=
  (getEffectiveLevel cfg lg <=? levelno l)%Z.

(** ** The time stamp *)

Definition digits3 (z : Z) : string :=
  String (digit_char (z / 100)) (digits2 (z mod 100)).

(** [Formatter.formatTime] with its defaults: [%Y-%m-%d %H:%M:%S], a comma
    and the milliseconds. *)
Definition asctime (us : Z) : string :=
  let '(y, m, d) := ord2ymd (us / US_PER_DAY) in
  let secs := ((us mod US_PER_DAY) / US_PER_SECOND)%Z in
  isoformat_date y m d +:+ " "
  +:+ digits2 (secs / 3600) +:+ ":" +:+ digits2 ((secs / 60) mod 60)
  +:+ ":" +:+ digits2 (secs mod 60)
  +:+ "," +:+ digits3 ((us mod US_PER_SECOND) / 1000).

(** ** The format *)

(** A format is a sequence of literal characters and of fields
    [%(key)s]. *)
Variant piece : Set :=
  | Lit (c : ascii)
  | Field (key : string).

#[export] Instance piece_eq_dec : EqDecision piece.
Proof. solve_decision. Defined.

(** Where the scanner is: in the text, after a [%], inside the key of a
    field, or after its closing parenthesis. *)
Variant scan : Set :=
  | Text
  | Percent
  | Key (k : string)
  | Conv (k : string).

Definition percent : ascii := ascii_of_nat 37.

(** The pieces of a format, or [None] for a format outside the model: a
    conversion other than [s], flags or a width, a directive without a key,
    a parenthesis inside a key, or a directive that the end of the format
    cuts short. *)
Fixpoint scan_format (st : scan) (fmt : string) : option (list piece) :=
  match fmt with
  | EmptyString => match st with Text => Some [] | _ => None end
  | String c rest =>
      match st with
      | Text =>
          if is_char 37 c then scan_format Percent rest
          else (Lit c ::.) <$> scan_format Text rest
      | Percent =>
          if is_char 37 c then (Lit percent ::.) <$> scan_format Text rest
          else if is_char 40 c then scan_format (Key "") rest
          else None
      | Key k =>
          if is_char 41 c then scan_format (Conv k) rest
          else if is_char 40 c then None
          else scan_format (Key (k +:+ String c "")) rest
      | Conv k =>
          if is_char 115 c then (Field k ::.) <$> scan_format Text rest
          else None
      end
  end.

Definition parse_format (fmt : string) : option (list piece) :=
  scan_format Text fmt.

(** The format that scans to the pieces. *)
Definition print_piece (p : piece) : string :=
  match p with
  | Lit c => if is_char 37 c then "%%" else String c ""
  | Field k => "%(" +:+ k +:+ ")s"
  end.

Fixpoint print_format (ps : list piece) : string :=
  match ps with
  | [] => ""
  | p :: ps => print_piece p +:+ print_format ps
  end.

(** [fmt % values] on the pieces of [fmt]: [None] when a key is missing
    ([KeyError] in Python). *)
Fixpoint render (ps : list piece) (values : string → option string)
    : option string :=
  match ps with
  | [] => Some ""
  | Lit c :: ps => String c <$> render ps values
  | Field k :: ps =>
      match values k with
      | Some v => (λ s, v +:+ s) <$> render ps values
      | None => None
      end
  end.

(** The attributes of a record as the mapping that the format is applied
    to. *)
Definition attribute (r : LogRecord) (key : string) : option string :=
  if decide (key = "asctime") then Some (asctime (created r))
  else if decide (key = "name") then Some (name r)
  else if decide (key = "levelname") then Some (levelname (level_of r))
  else if decide (key = "levelno") then Some (format_int (levelno (level_of r)))
  else if decide (key = "message") then Some (message r)
  else None.

(** [Formatter.format(record)]. *)
Definition format_record (fmt : string) (r : LogRecord) : option string :=
  ps ← parse_format fmt; render ps (attribute r).

(** ** The handler *)

Definition terminator : string := String (ascii_of_nat 10) "".

(** [StreamHandler.emit]: the formatted record and a line feed, in one
    write. A record that cannot be formatted is reported on [sys.stderr]
    and leaves nothing on the stream. *)
Definition handler_emit (cfg : Config) (r : LogRecord) : list string :=
  match format_record (config_format cfg) r with
  | Some line => [line +:+ terminator]
  | None => []
  end.

(** [logger.info(msg)], [logger.error(msg)] at the time [now]: what the
    call writes to the stream. *)
Definition log (cfg : Config) (lg : Logger) (now : Z) (l : level)
    (msg : string) : list string :=
  if isEnabledFor cfg lg l then
    handler_emit cfg {| created := now; name := logger_name lg;
                        level_of := l; message := msg |}
  else [].

(** ** What a run writes *)

(** The writes to the stream of the events [tr], the first of which happens
    at the time [now]. The clock moves with the sleeps only. *)
Fixpoint written (cfg : Config) (lg : Logger) (now : Z) (tr : list event)
    : list string :=
  match tr with
  | [] => []
  | EvLog l msg :: tr => log cfg lg now l msg ++ written cfg lg now tr
  | EvSleep us :: tr => written cfg lg (now + us) tr
  | _ :: tr => written cfg lg now tr
  end.

(** The line of a record under the configuration of the program. *)
Definition line (lg : Logger) (now : Z) (l : level) (msg : string) : string :=
  asctime now +:+ " - " +:+ logger_name lg +:+ " - " +:+ levelname l
  +:+ " - " +:+ msg +:+ terminator.

(** The times of the log records of [tr], in order. *)
Fixpoint stamps (now : Z) (tr : list event) : list Z :=
  match tr with
  | [] => []
  | EvLog _ _ :: tr => now :: stamps now tr
  | EvSleep us :: tr => stamps (now + us) tr
  | _ :: tr => stamps now tr
  end.

(** The output of a run that started in [w0] and has reached [w]. *)
Definition output (cfg : Config) (lg : Logger) (w0 w : World) : list string :=
  written cfg lg (clock w0) (drop (length (trace w0)) (trace w)).

(** ** Definitions for the proofs *)

(** What the scanner has read of a directive that it has not finished. *)
Definition pending (st : scan) : string :=
  match st with
  | Text => ""
  | Percent => "%"
  | Key k => "%(" +:+ k
  | Conv k => "%(" +:+ k +:+ ")"
  end.

(** A key without parentheses. *)
Definition key_ok (k : string) : bool :=
  str_forall (λ c, negb (is_char 40 c) && negb (is_char 41 c)) k.

Definition piece_ok (p : piece) : bool :=
  match p with Lit _ => true | Field k => key_ok k end.

(** ** The format of the program *)

(** The pieces of [" - "]. *)
Definition separator : list piece :=
  [Lit (ascii_of_nat 32); Lit (ascii_of_nat 45); Lit (ascii_of_nat 32)].

Lemma parse_format_basicConfig :
  parse_format (config_format basicConfig) =
    Some ([Field "asctime"] ++ separator ++ [Field "name"] ++ separator
          ++ [Field "levelname"] ++ separator ++ [Field "message"]).
Proof. vm_compute. reflexivity. Qed.

Lemma format_record_basicConfig r :
  format_record (config_format basicConfig) r =
    Some (asctime (created r) +:+ " - " +:+ name r +:+ " - "
          +:+ levelname (level_of r) +:+ " - " +:+ message r).
Proof.
  unfold format_record. rewrite parse_format_basicConfig.
  rewrite <- (str_app_nil_r (message r)). reflexivity.
Qed.

Lemma log_basicConfig __name__ now l msg :
  log basicConfig (logger __name__) now l msg =
    [line (logger __name__) now l msg].
Proof.
  unfold log, handler_emit, line. rewrite format_record_basicConfig.
  destruct l; cbn; by rewrite !str_app_assoc.
Qed.

(** ** The scanner *)

Lemma scan_format_print st fmt ps :
  scan_format st fmt = Some ps → print_format ps = pending st +:+ fmt.
Proof.
  revert st ps. induction fmt as [|c rest IH]; intros st ps.
  { destruct st; simpl; [|done..]. by intros [= <-]. }
  destruct st as [| |k|k]; simpl.
  - destruct (is_char 37 c) eqn:Hc.
    + intros H%IH. apply is_char_eq in Hc as ->. done.
    + destruct (scan_format Text rest) as [ps'|] eqn:E; [|done].
      intros [= <-]. apply IH in E. simpl. unfold print_piece.
      rewrite Hc, E. done.
  - destruct (is_char 37 c) eqn:Hc.
    + destruct (scan_format Text rest) as [ps'|] eqn:E; [|done].
      intros [= <-]. apply IH in E. apply is_char_eq in Hc as ->.
      simpl. by rewrite E.
    + destruct (is_char 40 c) eqn:Hp; [|done].
      intros H%IH. apply is_char_eq in Hp as ->. done.
  - destruct (is_char 41 c) eqn:Hc.
    + intros H%IH. apply is_char_eq in Hc as ->. rewrite H. simpl.
      by rewrite !str_app_assoc.
    + destruct (is_char 40 c); [done|]. intros H%IH. rewrite H. simpl.
      by rewrite !str_app_assoc.
  - destruct (is_char 115 c) eqn:Hc; [|done].
    destruct (scan_format Text rest) as [ps'|] eqn:E; [|done].
    intros [= <-]. apply IH in E. apply is_char_eq in Hc as ->.
    simpl. rewrite E. unfold print_piece. by rewrite !str_app_assoc.
Qed.

Lemma scan_format_key k0 k rest :
  key_ok k = true →
  scan_format (Key k0) (k +:+ ")s" +:+ rest) =
    (Field (k0 +:+ k) ::.) <$> scan_format Text rest.
Proof.
  revert k0. induction k as [|c k IH]; intros k0 Hk.
  { by rewrite str_app_nil_r. }
  cbn in Hk. apply andb_prop in Hk as [[H40 H41]%andb_prop Hk].
  rewrite str_app_cons. cbn [scan_format].
  apply negb_true_iff in H40, H41. rewrite H40, H41, IH by done.
  by rewrite str_app_assoc.
Qed.

Lemma scan_format_piece p fmt :
  piece_ok p = true →
  scan_format Text (print_piece p +:+ fmt) = (p ::.) <$> scan_format Text fmt.
Proof.
  destruct p as [c|k]; cbn [piece_ok print_piece]; intros Hp.
  - destruct (is_char 37 c) eqn:Hc.
    + by apply is_char_eq in Hc as ->.
    + rewrite str_app_cons, str_app_nil_l. cbn [scan_format]. by rewrite Hc.
  - rewrite !str_app_assoc.
    change (scan_format (Key "") (k +:+ ")s" +:+ fmt) =
              (Field k ::.) <$> scan_format Text fmt).
    by rewrite scan_format_key.
Qed.

(** ** What a trace writes *)

Section written.
Context (cfg : Config) (lg : Logger).
Implicit Types (now : Z) (tr : list event).

Lemma written_app now tr1 tr2 :
  written cfg lg now (tr1 ++ tr2) =
    written cfg lg now tr1 ++ written cfg lg (now + sumZ (sleeps tr1)) tr2.
Proof.
  revert now. induction tr1 as [|ev tr1 IH]; intros now; simpl.
  { by rewrite Z.add_0_r. }
  destruct ev; simpl; rewrite IH, ?Z.add_assoc; try done.
  by rewrite (assoc_L (++)).
Qed.

Lemma stamps_app now tr1 tr2 :
  stamps now (tr1 ++ tr2) =
    stamps now tr1 ++ stamps (now + sumZ (sleeps tr1)) tr2.
Proof.
  revert now. induction tr1 as [|ev tr1 IH]; intros now; simpl.
  { by rewrite Z.add_0_r. }
  destruct ev; simpl; rewrite IH, ?Z.add_assoc; done.
Qed.

Lemma stamps_length now tr : length (stamps now tr) = length (logs tr).
Proof.
  revert now. induction tr as [|ev tr IH]; intros now; [done|].
  destruct ev; simpl; by rewrite ?IH.
Qed.

Lemma stamps_bounds now tr :
  Forall (λ us, (0 ≤ us)%Z) (sleeps tr) →
  Forall (λ t, (now ≤ t ≤ now + sumZ (sleeps tr))%Z) (stamps now tr).
Proof.
  revert now. induction tr as [|ev tr IH]; intros now Hs; [done|].
  destruct ev; simpl in *; try by apply IH.
  - apply Forall_cons. apply sumZ_nonneg in Hs as ?. split; [lia|by apply IH].
  - apply Forall_cons in Hs as [? Hs]. apply sumZ_nonneg in Hs as ?.
    eapply Forall_impl; [by apply IH|]. simpl. lia.
Qed.

Lemma stamps_sorted now tr :
  Forall (λ us, (0 ≤ us)%Z) (sleeps tr) → StronglySorted Z.le (stamps now tr).
Proof.
  revert now. induction tr as [|ev tr IH]; intros now Hs; [constructor|].
  destruct ev; simpl in *; try by apply IH.
  - constructor; [by apply IH|].
    eapply Forall_impl; [by apply stamps_bounds|]. simpl. lia.
  - apply Forall_cons in Hs as [? Hs]. by apply IH.
Qed.

End written.

Lemma written_basicConfig __name__ now tr :
  written basicConfig (logger __name__) now tr =
    zip_with (λ t r, line (logger __name__) t r.1 r.2) (stamps now tr) (logs tr).
Proof.
  revert now. induction tr as [|ev tr IH]; intros now; [done|].
  destruct ev; simpl; rewrite ?IH; try done. by rewrite log_basicConfig.
Qed.

Lemma output_advance cfg lg w evs d :
  output cfg lg w (advance w evs d) = written cfg lg (clock w) evs.
Proof. unfold output. by rewrite trace_advance, drop_app_length. Qed.

Lemma key_ok_snoc k c :
  key_ok k = true → is_char 41 c = false → is_char 40 c = false →
  key_ok (k +:+ String c "") = true.
Proof.
  intros Hk H41 H40. unfold key_ok in *. rewrite str_forall_app, Hk. cbn.
  by rewrite H40, H41.
Qed.

Lemma scan_format_ok st fmt ps :
  match st with Key k | Conv k => key_ok k = true | _ => True end →
  scan_format st fmt = Some ps → forallb piece_ok ps = true.
Proof.
  revert st ps. induction fmt as [|c rest IH]; intros st ps Hst.
  { destruct st; simpl; [|done..]. by intros [= <-]. }
  destruct st as [| |k|k]; simpl.
  - destruct (is_char 37 c); [by apply IH|].
    destruct (scan_format Text rest) as [ps'|] eqn:E; [|done].
    intros [= <-]. by apply IH in E.
  - destruct (is_char 37 c).
    + destruct (scan_format Text rest) as [ps'|] eqn:E; [|done].
      intros [= <-]. by apply IH in E.
    + destruct (is_char 40 c); [by apply IH|done].
  - destruct (is_char 41 c) eqn:H41; [by apply IH|].
    destruct (is_char 40 c) eqn:H40; [done|]. apply IH. by apply key_ok_snoc.
  - destruct (is_char 115 c); [|done].
    destruct (scan_format Text rest) as [ps'|] eqn:E; [|done].
    intros [= <-]. apply IH in E; [|done]. cbn [forallb piece_ok].
    by rewrite Hst, E.
Qed.

Lemma parse_print_format ps :
  forallb piece_ok ps = true → parse_format (print_format ps) = Some ps.
Proof.
  unfold parse_format. induction ps as [|p ps IH]; [done|].
  cbn [forallb print_format]. intros [Hp Hps]%andb_prop.
  by rewrite scan_format_piece, IH.
Qed.

(** ** The theorems *)

(** The scanner of formats accepts exactly the formats
    that are printed from pieces whose keys have no parenthesis, and it
    returns these pieces: no format is read as another one. *)
Theorem parse_format_spec fmt ps :
  parse_format fmt = Some ps ↔
  print_format ps = fmt ∧ forallb piece_ok ps = true.
Proof.
  split.
  - intros H. split; [by apply (scan_format_print Text)|].
    by apply (scan_format_ok Text fmt).
  - intros [<- Hok]. by apply parse_print_format.
Qed.

(** C23 (functional). Under the configuration of lines 13-16 every call of
    [logger.info] and of [logger.error] adds one line to the output:
    the time of the call, the name of the logger, the name of the level
    and the message, and a line feed. *)
Theorem logger_call_written __name__ w0 w env msg :
  advances w0 w →
  output basicConfig (logger __name__) w0 (logger_info msg env w).2 =
    output basicConfig (logger __name__) w0 w
    ++ [asctime (clock w) +:+ " - " +:+ __name__ +:+ " - INFO - " +:+ msg
        +:+ terminator]
  ∧ output basicConfig (logger __name__) w0 (logger_error msg env w).2 =
    output basicConfig (logger __name__) w0 w
    ++ [asctime (clock w) +:+ " - " +:+ __name__ +:+ " - ERROR - " +:+ msg
        +:+ terminator].
Proof.
  intros (evs & d & _ & ->).
  rewrite run_logger_info, run_logger_error. cbn [snd].
  rewrite !advance_advance, !output_advance, !written_app, clock_advance.
  cbn [written]. by rewrite !log_basicConfig, !app_nil_r.
Qed.

(** ** Examples *)

(** Two records written a second and a half after the start of the run. *)
Lemma logger_call_written_witness :
  let env := Fixture.env_of (Fixture.flaky 0 Fixture.ok_response) (λ _, None) in
  let w := (time_sleep 1500000 env Fixture.w0).2 in
  output basicConfig (logger "__main__") Fixture.w0
    (logger_info "hello" env w).2 =
    output basicConfig (logger "__main__") Fixture.w0 w
    ++ ["2024-05-10 09:00:01,500 - __main__ - INFO - hello" +:+ terminator]
  ∧ output basicConfig (logger "__main__") Fixture.w0
      (logger_error "hello" env w).2 =
    output basicConfig (logger "__main__") Fixture.w0 w
    ++ ["2024-05-10 09:00:01,500 - __main__ - ERROR - hello" +:+ terminator].
Proof.
  exact (logger_call_written "__main__" Fixture.w0 _ _ "hello"
           (closed_time_sleep 1500000 _ Fixture.w0)).
Defined.
