(* ===== verification/Fetcher.v ===== *)
(** * Fetcher: [makerequest] (src/zerodaynewsletter.py, lines 22-51)

    The retry loop around [requests.get]. One iteration of the [for] loop is
    [attempt_body]; it either leaves the function with a value ([Return]) or
    falls through to the next iteration ([Next]). The loop itself is
    [for_attempts], a recursion on the list [range(retries)].

    [fetch_spec] is the retry policy as a function of what the network
    does: the first of the next [retries] outcomes that is not a transport
    failure decides the result. [makerequest_refines] proves that the loop
    implements it, with the exact trace. *)

From S2P Require Import Prelude PyStr Html DateTime World Runs.

(** ** The code *)

(** How an iteration of a loop body ends: [return v] or the end of the
    body. *)
Variant flow (A : Type) : Type :=
  | Return (v : A)
  | Next.
Arguments Return {A} v.
Arguments Next {A}.

Definition user_agent : string :=
  "Mozilla/5.0 (Windows NT 10.0; Win64; x64; rv:126.0) Gecko/20100101 Firefox/126.0".

Definition headers : list (string * string) := [("User-Agent", user_agent)].

(** Lines 28-38: the body of the [try]. *)
Definition try_get (url : string) : M (flow (option node)) :=
  response ← requests_get url headers;
  logger_info ("Requesting " +:+ url);;
  if (status_code response =? 200)%Z then
    tree ← html_fromstring (content response);
    mret (Return (Some tree))
  else
    logger_info "Failed to make GET request";;
    logger_info (text response);;
    logger_info (format_int (status_code response));;
    mret (Return None).

(** Lines 40-48: the handler of [RequestException]. *)
Definition on_request_exception (retries : nat) (delay : Z) (attempt : nat)
    (e : exn) : M (flow (option node)) :=
  logger_info ("Request failed: " +:+ exn_msg e +:+ ", attempt "
               +:+ format_int (Z.of_nat attempt + 1) +:+ " of "
               +:+ format_int (Z.of_nat retries));;
  if (Z.of_nat attempt <? Z.of_nat retries - 1)%Z then
    logger_info ("Waiting " +:+ format_int delay
                 +:+ " seconds before retrying...");;
    time_sleep (delay * US_PER_SECOND);;
    mret Next
  else
    logger_info "Max retries reached. Giving up.";;
    mret (Return None).

(** Lines 27-51: one iteration of the [for] loop. *)
Definition attempt_body (url : string) (retries : nat) (delay : Z)
    (attempt : nat) : M (flow (option node)) :=
  r ← try_except (try_get url) (Some RequestException)
        (on_request_exception retries delay attempt);
  match r with
  | Return v => mret (Return v)
  | Next =>
      d ← random_uniform (1 * US_PER_SECOND) (5 * US_PER_SECOND);
      time_sleep d;;
      mret Next
  end.

(** Line 26: [for attempt in attempts]; falling off the end of the function
    returns [None]. *)
Fixpoint for_attempts (url : string) (retries : nat) (delay : Z)
    (attempts : list nat) : M (option node) :=
  match attempts with
  | [] => mret None
  | attempt :: rest =>
      r ← attempt_body url retries delay attempt;
      match r with
      | Return v => mret v
      | Next => for_attempts url retries delay rest
      end
  end.

(** [makerequest(url, retries, delay)]. *)
Definition makerequest (url : string) (retries : nat) (delay : Z)
    : M (option node) :=
  for_attempts url retries delay (range retries).

(** The defaults [retries=3, delay=60] of line 22. *)
Definition makerequest_default (url : string) : M (option node) :=
  makerequest url 3 60.

(** ** The retry policy *)

(** A transport failure: the request raised [RequestException]. *)
Definition transport_failure (r : res response) : bool :=
  match r with Raise e => isinstance e RequestException | Ok _ => false end.

(** The outcomes of the next [retries] requests for [url], from request
    number [n0] on. *)
Definition outcomes (env : Env) (n0 : nat) (url : string) (retries : nat)
    : list (res response) :=
  (λ i, net env (n0 + i) url) <$> range retries.

(** The first outcome that is not a transport failure, with its index. *)
Definition decisive (os : list (res response))
    : option (nat * res response) :=
  list_find (λ r, transport_failure r = false) os.

(** What a response is worth: the parsed document of a status 200, [None]
    for any other status. *)
Definition response_result (env : Env) (r : response) : res (option node) :=
  if (status_code r =? 200)%Z then
    match fromstring env (content r) with
    | Some tree => Ok (Some tree)
    | None => Raise parser_error
    end
  else Ok None.

(** The result the policy prescribes. *)
Definition fetch_spec (env : Env) (os : list (res response))
    : res (option node) :=
  match decisive os with
  | None => Ok None
  | Some (_, Raise e) => Raise e
  | Some (_, Ok r) => response_result env r
  end.

(** The number of requests the policy makes. *)
Definition fetch_requests (os : list (res response)) : nat :=
  match decisive os with
  | None => length os
  | Some (k, _) => S k
  end.

(** The number of failed attempts that are followed by a back-off. *)
Definition fetch_backoffs (os : list (res response)) : nat :=
  match decisive os with
  | None => Nat.pred (length os)
  | Some (k, _) => k
  end.

(** ** The trace *)

Definition jitter (env : Env) (n : nat) : Z :=
  uniform_at env n (1 * US_PER_SECOND) (5 * US_PER_SECOND).

(** What a failed attempt that is retried leaves in the trace. *)
Definition ev_retry (env : Env) (url : string) (retries : nat) (delay : Z)
    (attempt n : nat) (e : exn) : list event :=
  [EvGet url headers;
   EvLog INFO ("Request failed: " +:+ exn_msg e +:+ ", attempt "
               +:+ format_int (Z.of_nat attempt + 1) +:+ " of "
               +:+ format_int (Z.of_nat retries));
   EvLog INFO ("Waiting " +:+ format_int delay
               +:+ " seconds before retrying...");
   EvSleep (delay * US_PER_SECOND);
   EvSleep (jitter env n)].

(** What the last failed attempt leaves. *)
Definition ev_give_up (url : string) (retries attempt : nat) (e : exn)
    : list event :=
  [EvGet url headers;
   EvLog INFO ("Request failed: " +:+ exn_msg e +:+ ", attempt "
               +:+ format_int (Z.of_nat attempt + 1) +:+ " of "
               +:+ format_int (Z.of_nat retries));
   EvLog INFO "Max retries reached. Giving up."].

(** What an attempt that gets a response leaves. *)
Definition ev_response (url : string) (r : response) : list event :=
  [EvGet url headers; EvLog INFO ("Requesting " +:+ url)] ++
  if (status_code r =? 200)%Z then []
  else [EvLog INFO "Failed to make GET request";
        EvLog INFO (text r);
        EvLog INFO (format_int (status_code r))].

(** The sleeps of [k] back-offs, the first of which uses random draw number
    [d0]: the fixed delay, then the random one. *)
Definition backoff_sleeps (env : Env) (delay : Z) (d0 k : nat) : list Z :=
  seq d0 k ≫= λ n, [(delay * US_PER_SECOND)%Z; jitter env n].

(** The exception of an outcome that is a failure. *)
Definition exn_of (r : res response) : exn :=
  match r with Raise e => e | Ok _ => Exn RequestException "" end.

(** The trace of the failed attempts [os] that are retried; the first of
    them is attempt number [a] and uses random draw number [d0]. *)
Definition retry_trace (env : Env) (url : string) (retries : nat) (delay : Z)
    (a d0 : nat) (os : list (res response)) : list event :=
  concat (imap (λ i r, ev_retry env url retries delay (a + i) (d0 + i)
                         (exn_of r)) os).

(** The trace the policy prescribes for the outcomes [os]. *)
Definition fetch_trace (env : Env) (url : string) (retries : nat) (delay : Z)
    (a d0 : nat) (os : list (res response)) : list event :=
  match decisive os with
  | Some (k, Ok r) =>
      retry_trace env url retries delay a d0 (take k os) ++ ev_response url r
  | Some (k, Raise e) =>
      retry_trace env url retries delay a d0 (take k os)
      ++ [EvGet url headers]
  | None =>
      match last os with
      | None => []
      | Some r =>
          retry_trace env url retries delay a d0 (take (length os - 1) os)
          ++ ev_give_up url retries (a + length os - 1) (exn_of r)
      end
  end.

(** ** One attempt *)

Section attempt.
Context (env : Env) (url : string) (retries : nat) (delay : Z).
Context (Hdelay : (0 ≤ delay)%Z).
Implicit Types (w : World) (attempt : nat) (e : exn) (r : response).

Lemma jitter_range n : (1000000 ≤ jitter env n ≤ 5000000)%Z.
Proof. apply (uniform_at_range env n 1000000 5000000). lia. Qed.

Lemma attempt_body_response attempt w r :
  net env (n_get w) url = Ok r →
  attempt_body url retries delay attempt env w =
    (Return <$> response_result env r, advance w (ev_response url r) 0).
Proof.
  intros Hnet. unfold attempt_body, try_except, try_get, ev_response,
    response_result.
  mrun. rewrite Hnet. mrun.
  destruct (status_code r =? 200)%Z; mrun; [|done].
  by destruct (fromstring env (content r)).
Qed.

Lemma attempt_body_fatal attempt w e :
  net env (n_get w) url = Raise e → isinstance e RequestException = false →
  attempt_body url retries delay attempt env w =
    (Raise e, advance w [EvGet url headers] 0).
Proof.
  intros Hnet He. unfold attempt_body, try_except, try_get. mrun.
  rewrite Hnet. mrun. by rewrite He.
Qed.

Lemma attempt_body_retry attempt w e :
  net env (n_get w) url = Raise e → isinstance e RequestException = true →
  attempt + 1 < retries →
  attempt_body url retries delay attempt env w =
    (Ok Next, advance w (ev_retry env url retries delay attempt (n_draw w) e) 1).
Proof.
  intros Hnet He Hlt. unfold attempt_body, try_except, try_get. mrun.
  rewrite Hnet. mrun. rewrite He. unfold on_request_exception. mrun.
  destruct (Z.ltb_spec (Z.of_nat attempt) (Z.of_nat retries - 1)); [|lia].
  by mrun.
Qed.

Lemma attempt_body_give_up attempt w e :
  net env (n_get w) url = Raise e → isinstance e RequestException = true →
  retries ≤ attempt + 1 →
  attempt_body url retries delay attempt env w =
    (Ok (Return None), advance w (ev_give_up url retries attempt e) 0).
Proof.
  intros Hnet He Hlt. unfold attempt_body, try_except, try_get. mrun.
  rewrite Hnet. mrun. rewrite He. unfold on_request_exception. mrun.
  destruct (Z.ltb_spec (Z.of_nat attempt) (Z.of_nat retries - 1)); [lia|].
  by mrun.
Qed.

End attempt.

(** ** The policy, one outcome at a time *)

Section policy.
Context (env : Env) (url : string) (retries : nat) (delay : Z).
Implicit Types (o : res response) (os : list (res response)).

Lemma retry_trace_cons a d0 o os :
  retry_trace env url retries delay a d0 (o :: os) =
    ev_retry env url retries delay a d0 (exn_of o)
    ++ retry_trace env url retries delay (S a) (S d0) os.
Proof.
  unfold retry_trace. rewrite imap_cons, concat_cons, !Nat.add_0_r.
  do 2 f_equal. apply imap_ext. intros i r _. simpl.
  by rewrite !Nat.add_succ_r.
Qed.

Lemma retry_trace_nil a d0 : retry_trace env url retries delay a d0 [] = [].
Proof. done. Qed.

Lemma ev_retry_gets a n e :
  gets (ev_retry env url retries delay a n e) = [url].
Proof. done. Qed.

#[local] Opaque ev_retry ev_give_up ev_response retry_trace.

Lemma outcomes_S n0 k :
  outcomes env n0 url (S k) = net env n0 url :: outcomes env (S n0) url k.
Proof.
  unfold outcomes. rewrite range_S, fmap_cons, Nat.add_0_r. f_equal.
  rewrite <- list_fmap_compose. apply list_fmap_ext. intros _ i _. simpl.
  f_equal. lia.
Qed.

Lemma outcomes_length n0 k : length (outcomes env n0 url k) = k.
Proof. unfold outcomes. by rewrite length_fmap, range_length. Qed.

Lemma decisive_cons o os :
  decisive (o :: os) =
    if transport_failure o then prod_map S id <$> decisive os
    else Some (0, o).
Proof.
  unfold decisive. simpl. destruct (transport_failure o); by case_decide.
Qed.

Lemma fetch_spec_cons o os :
  transport_failure o = true → fetch_spec env (o :: os) = fetch_spec env os.
Proof.
  intros Ho. unfold fetch_spec. rewrite decisive_cons, Ho.
  by destruct (decisive os) as [[k [r|e]]|].
Qed.

Lemma fetch_backoffs_cons o os :
  transport_failure o = true → os ≠ [] →
  fetch_backoffs (o :: os) = S (fetch_backoffs os).
Proof.
  intros Ho Hos. unfold fetch_backoffs. rewrite decisive_cons, Ho.
  destruct (decisive os) as [[k r]|]; simpl; [done|].
  destruct os; [done|]. simpl. lia.
Qed.

Lemma fetch_trace_cons a d0 o os :
  transport_failure o = true → os ≠ [] →
  fetch_trace env url retries delay a d0 (o :: os) =
    ev_retry env url retries delay a d0 (exn_of o)
    ++ fetch_trace env url retries delay (S a) (S d0) os.
Proof.
  intros Ho Hos. unfold fetch_trace. rewrite decisive_cons, Ho.
  destruct (decisive os) as [[k [r|e]]|]; simpl.
  - by rewrite retry_trace_cons, (assoc_L (++)).
  - by rewrite retry_trace_cons, (assoc_L (++)).
  - destruct os as [|o' os']; [done|]. rewrite last_cons_cons.
    destruct (last (o' :: os')) as [r|] eqn:E; [|by apply last_None in E].
    cbn [length]. rewrite ?Nat.sub_0_r, ?Nat.add_succ_r.
    replace (S (length os') - 1) with (length os') by lia.
    rewrite firstn_cons, retry_trace_cons, <- (assoc_L (++)).
    do 3 f_equal; lia.
Qed.

End policy.

(** ** The loop implements the policy *)

Section refinement.
Context (env : Env) (url : string) (retries : nat) (delay : Z).
Context (Hdelay : (0 ≤ delay)%Z).

#[local] Opaque ev_retry ev_give_up ev_response retry_trace.

Lemma for_attempts_refines k a w :
  a + k = retries →
  for_attempts url retries delay (seq a k) env w =
    (fetch_spec env (outcomes env (n_get w) url k),
     advance w
       (fetch_trace env url retries delay a (n_draw w)
          (outcomes env (n_get w) url k))
       (fetch_backoffs (outcomes env (n_get w) url k))).
Proof using Hdelay.
  revert a w. induction k as [|k IH]; intros a w Hak.
  { cbn. by mrun. }
  rewrite outcomes_S. cbn [seq for_attempts]. rewrite run_bind.
  destruct (net env (n_get w) url) as [r|e] eqn:Hnet.
  - rewrite (attempt_body_response _ _ _ _ _ _ _ Hnet).
    unfold fetch_spec, fetch_trace, fetch_backoffs. rewrite decisive_cons.
    simpl. destruct (response_result env r); by mrun.
  - destruct (isinstance e RequestException) eqn:He.
    + destruct k as [|k].
      * rewrite (attempt_body_give_up _ _ _ _ _ _ _ Hnet He) by lia.
        unfold fetch_spec, fetch_trace, fetch_backoffs. rewrite decisive_cons.
        cbn. rewrite He. cbn. mrun. by rewrite retry_trace_nil, Nat.add_sub.
      * rewrite (attempt_body_retry _ _ _ _ Hdelay _ _ _ Hnet He) by lia.
        cbv beta iota. rewrite IH by lia.
        rewrite fetch_spec_cons, fetch_backoffs_cons, fetch_trace_cons;
          try done; try (by rewrite outcomes_S).
        mrun. rewrite ev_retry_gets. cbn [length].
        rewrite !Nat.add_1_r. by mrun.
    + rewrite (attempt_body_fatal _ _ _ _ _ _ _ Hnet He).
      unfold fetch_spec, fetch_trace, fetch_backoffs. rewrite decisive_cons.
      cbn. rewrite He. by mrun.
Qed.

End refinement.

(** ** Reading the policy *)

Section reading.
Context (env : Env) (url : string) (retries : nat) (delay : Z).
Implicit Types (o : res response) (os : list (res response)).

Lemma outcomes_lookup n0 k i :
  i < k → outcomes env n0 url k !! i = Some (net env (n0 + i) url).
Proof.
  intros Hi. unfold outcomes, range.
  by rewrite list_lookup_fmap, lookup_seq_lt.
Qed.

Lemma decisive_Some os k o :
  os !! k = Some o → transport_failure o = false →
  (∀ j y, os !! j = Some y → j < k → transport_failure y = true) →
  decisive os = Some (k, o).
Proof.
  intros Hk Ho Hbefore. apply list_find_Some. split_and!; [done..|].
  intros j y Hj Hlt. rewrite (Hbefore j y Hj Hlt). done.
Qed.

Lemma decisive_None os :
  Forall (λ o, transport_failure o = true) os → decisive os = None.
Proof.
  intros H. apply list_find_None. eapply Forall_impl; [done|].
  intros o ->. done.
Qed.

Lemma sleeps_retry_trace a d0 os :
  sleeps (retry_trace env url retries delay a d0 os) =
    backoff_sleeps env delay d0 (length os).
Proof.
  revert a d0. induction os as [|o os IH]; intros a d0; [done|].
  by rewrite retry_trace_cons, sleeps_app, IH.
Qed.

Lemma gets_retry_trace a d0 os :
  gets (retry_trace env url retries delay a d0 os) = replicate (length os) url.
Proof.
  revert a d0. induction os as [|o os IH]; intros a d0; [done|].
  by rewrite retry_trace_cons, gets_app, IH.
Qed.

Lemma gets_ev_give_up a e : gets (ev_give_up url retries a e) = [url].
Proof. done. Qed.

Lemma gets_ev_response r : gets (ev_response url r) = [url].
Proof. unfold ev_response. by destruct (status_code r =? 200)%Z. Qed.

Lemma sleeps_ev_response r : sleeps (ev_response url r) = [].
Proof. unfold ev_response. by destruct (status_code r =? 200)%Z. Qed.

Lemma decisive_lt os k o : decisive os = Some (k, o) → k < length os.
Proof.
  intros (H & _)%list_find_Some. by eapply lookup_lt_Some.
Qed.

(** The requests of the policy go to the same address, and its sleeps are
    those of its back-offs. *)
Lemma gets_fetch_trace a d0 os :
  gets (fetch_trace env url retries delay a d0 os) =
    replicate (fetch_requests os) url.
Proof.
  unfold fetch_trace, fetch_requests.
  destruct (decisive os) as [[k [r|e]]|] eqn:Hdec.
  - apply decisive_lt in Hdec.
    rewrite gets_app, gets_retry_trace, gets_ev_response, length_take,
      Nat.min_l by lia. by rewrite replicate_S_end.
  - apply decisive_lt in Hdec.
    rewrite gets_app, gets_retry_trace, length_take, Nat.min_l by lia.
    by rewrite replicate_S_end.
  - destruct (last os) as [o|] eqn:Hlast; [|by apply last_None in Hlast as ->].
    assert (0 < length os) by (destruct os; [done|cbn; lia]).
    rewrite gets_app, gets_retry_trace, gets_ev_give_up, length_take,
      Nat.min_l by lia. by apply replicate_pred_snoc.
Qed.

Lemma sleeps_fetch_trace a d0 os :
  sleeps (fetch_trace env url retries delay a d0 os) =
    backoff_sleeps env delay d0 (fetch_backoffs os).
Proof.
  unfold fetch_trace, fetch_backoffs.
  destruct (decisive os) as [[k [r|e]]|] eqn:Hdec.
  - apply decisive_lt in Hdec.
    rewrite sleeps_app, sleeps_retry_trace, sleeps_ev_response, length_take,
      Nat.min_l, app_nil_r by lia. done.
  - apply decisive_lt in Hdec.
    rewrite sleeps_app, sleeps_retry_trace, length_take, Nat.min_l, app_nil_r
      by lia. done.
  - destruct (last os) as [o|] eqn:Hlast; [|by apply last_None in Hlast as ->].
    rewrite sleeps_app, sleeps_retry_trace, length_take, Nat.min_l, app_nil_r
      by lia. by rewrite Nat.sub_1_r.
Qed.

Lemma fetch_requests_le os : fetch_requests os ≤ length os.
Proof.
  unfold fetch_requests. destruct (decisive os) as [[k o]|] eqn:Hdec; [|done].
  by apply decisive_lt in Hdec.
Qed.

Lemma fetch_backoffs_le os : fetch_backoffs os ≤ length os - 1.
Proof.
  unfold fetch_backoffs. destruct (decisive os) as [[k o]|] eqn:Hdec; [|lia].
  apply decisive_lt in Hdec. lia.
Qed.

Lemma sumZ_backoff_sleeps d0 k :
  (0 ≤ delay)%Z →
  (0 ≤ sumZ (backoff_sleeps env delay d0 k)
   ≤ Z.of_nat k * ((delay + 5) * US_PER_SECOND))%Z.
Proof.
  intros Hdelay. unfold backoff_sleeps. revert d0.
  induction k as [|k IH]; intros d0; [done|].
  cbn [seq mbind list_bind]. change (foldr _ _ ?l) with (mjoin l).
  specialize (IH (S d0)). pose proof (jitter_range env d0).
  cbn [app sumZ foldr]. unfold sumZ, US_PER_SECOND in *.
  cbn [mbind list_bind] in IH. lia.
Qed.

End reading.

(** ** A request that is answered *)

Lemma makerequest_response env url retries delay w r :
  0 < retries → net env (n_get w) url = Ok r →
  makerequest url retries delay env w =
    (response_result env r, advance w (ev_response url r) 0).
Proof.
  intros Hpos Hnet. unfold makerequest.
  destruct retries as [|n]; [lia|]. rewrite range_S.
  cbn [for_attempts]. rewrite run_bind.
  rewrite (attempt_body_response _ _ _ _ _ _ _ Hnet).
  destruct (response_result env r); by mrun.
Qed.

(** ** What the fetch respects *)

(** [makerequest] is closed under every relation that its primitives
    respect: it only extends the state ([extends]) and it hands nothing to
    Slack ([silent]). *)
Section closed.
Context (R : relation World) `{!Primitives R}.
Context (url : string) (retries : nat) (delay : Z).

Lemma closed_attempt_body attempt :
  closed R (attempt_body url retries delay attempt).
Proof.
  unfold attempt_body, try_get, on_request_exception. solve_closed.
Qed.

Lemma closed_for_attempts attempts :
  closed R (for_attempts url retries delay attempts).
Proof.
  induction attempts as [|a l IH]; cbn [for_attempts]; [solve_closed|].
  apply (closed_bind R); [apply closed_attempt_body|].
  by intros [v|]; solve_closed.
Qed.

Lemma closed_makerequest : closed R (makerequest url retries delay).
Proof. apply closed_for_attempts. Qed.

End closed.

#[export] Hint Resolve closed_makerequest : py.

(** ** What the fetch costs *)

Lemma makerequest_spends env url retries delay w :
  (0 ≤ delay)%Z →
  spends retries 0 (Z.of_nat (retries - 1) * ((delay + 5) * US_PER_SECOND))
    w (makerequest url retries delay env w).2.
Proof.
  intros Hdelay.
  destruct (closed_makerequest silent url retries delay env w) as [_ Hpost].
  revert Hpost. unfold makerequest, range.
  rewrite (for_attempts_refines env url retries delay Hdelay retries 0 w eq_refl).
  cbn [snd]. set (os := outcomes env (n_get w) url retries). intros Hpost.
  assert (length os = retries) as Hlen by apply outcomes_length.
  unfold spends.
  rewrite Hpost, n_get_advance, clock_advance, gets_fetch_trace,
    sleeps_fetch_trace, length_replicate.
  pose proof (fetch_requests_le os). pose proof (fetch_backoffs_le os).
  pose proof (sumZ_backoff_sleeps env delay (n_draw w) (fetch_backoffs os)
                Hdelay).
  unfold US_PER_SECOND in *. split_and!; [lia..|nia].
Qed.

(** The defaults: three requests, two back-offs of at most 65 seconds. *)
Lemma makerequest_default_spends env url w :
  spends 3 0 (130 * US_PER_SECOND) w (makerequest_default url env w).2.
Proof.
  eapply spends_le; [by apply (makerequest_spends env url 3 60)|done..|].
  unfold US_PER_SECOND. lia.
Qed.

(** ** The theorems *)

(** C3 (refinement). For a delay that is not negative, [makerequest]
    implements the retry policy: its result is [fetch_spec] of the outcomes
    of the next [retries] requests, it leaves exactly the trace [fetch_trace]
    and draws [fetch_backoffs] random numbers. *)
Theorem makerequest_refines env url retries delay w :
  (0 ≤ delay)%Z →
  makerequest url retries delay env w =
    (fetch_spec env (outcomes env (n_get w) url retries),
     advance w
       (fetch_trace env url retries delay 0 (n_draw w)
          (outcomes env (n_get w) url retries))
       (fetch_backoffs (outcomes env (n_get w) url retries))).
Proof. intros Hdelay. by apply for_attempts_refines. Qed.

(** C7 (functional). If the next [k] requests fail in transport, [k] is less
    than [retries] and request [k] is answered with status 200 and a body
    that parses, [makerequest] returns the parsed document after exactly
    [k + 1] requests to that URL and [k] back-offs, each the fixed delay
    followed by the random one. *)
Theorem makerequest_retry_success env url retries delay w k r tree :
  (0 ≤ delay)%Z → k < retries →
  (∀ i, i < k → transport_failure (net env (n_get w + i) url) = true) →
  net env (n_get w + k) url = Ok r →
  status_code r = 200%Z → fromstring env (content r) = Some tree →
  ∃ evs,
    makerequest url retries delay env w = (Ok (Some tree), advance w evs k)
    ∧ gets evs = replicate (S k) url
    ∧ sleeps evs = backoff_sleeps env delay (n_draw w) k.
Proof.
  intros Hdelay Hk Hfail Hnet Hst Hparse. unfold makerequest, range.
  rewrite (for_attempts_refines env url retries delay Hdelay retries 0 w eq_refl).
  assert (decisive (outcomes env (n_get w) url retries) = Some (k, Ok r))
    as Hdec.
  { apply decisive_Some; [by rewrite outcomes_lookup, Hnet|done|].
    intros j y Hj Hlt. rewrite outcomes_lookup in Hj by lia.
    injection Hj as <-. by apply Hfail. }
  unfold fetch_spec, fetch_trace, fetch_backoffs, response_result.
  rewrite Hdec, Hst, Hparse. cbn [Z.eqb Pos.eqb]. eexists. split; [done|].
  assert (length (take k (outcomes env (n_get w) url retries)) = k) as Hlen
    by (rewrite length_take, outcomes_length; lia).
  rewrite gets_app, sleeps_app, gets_retry_trace, sleeps_retry_trace,
    gets_ev_response, sleeps_ev_response, Hlen, app_nil_r.
  split; [|done]. by rewrite replicate_S_end.
Qed.

(** C8 (error). If all of the next [retries] requests fail in transport
    (and there is at least one), [makerequest] returns [None] after exactly
    [retries] requests and [retries - 1] back-offs: the last failure is not
    followed by a sleep. *)
Theorem makerequest_exhausted env url retries delay w :
  (0 ≤ delay)%Z → 0 < retries →
  (∀ i, i < retries → transport_failure (net env (n_get w + i) url) = true) →
  ∃ evs,
    makerequest url retries delay env w = (Ok None, advance w evs (retries - 1))
    ∧ gets evs = replicate retries url
    ∧ sleeps evs = backoff_sleeps env delay (n_draw w) (retries - 1).
Proof.
  intros Hdelay Hpos Hfail. unfold makerequest, range.
  rewrite (for_attempts_refines env url retries delay Hdelay retries 0 w eq_refl).
  set (os := outcomes env (n_get w) url retries).
  assert (length os = retries) as Hlen by apply outcomes_length.
  assert (decisive os = None) as Hdec.
  { apply decisive_None, Forall_lookup. intros i o Hi.
    assert (i < retries) by (rewrite <- Hlen; by eapply lookup_lt_Some).
    unfold os in Hi. rewrite outcomes_lookup in Hi by done.
    injection Hi as <-. by apply Hfail. }
  unfold fetch_spec, fetch_trace, fetch_backoffs. rewrite Hdec, Hlen.
  destruct (last os) as [o|] eqn:Hlast.
  2: { apply last_None in Hlast. rewrite Hlast in Hlen. simpl in Hlen. lia. }
  rewrite <- Nat.sub_1_r. eexists. split; [done|].
  rewrite gets_app, sleeps_app, gets_retry_trace, sleeps_retry_trace,
    length_take, Hlen, Nat.min_l, app_nil_r by lia.
  split; [|done]. rewrite gets_ev_give_up. by apply replicate_pred_snoc.
Qed.

(** C36 (functional). A response whose status is not 200 ends the loop at
    once: [makerequest] returns [None] after that one request, without
    retrying and without sleeping, whatever [retries] is. *)
Theorem makerequest_rejected env url retries delay w r :
  0 < retries →
  net env (n_get w) url = Ok r → status_code r ≠ 200%Z →
  makerequest url retries delay env w =
    (Ok None,
     advance w
       [EvGet url headers; EvLog INFO ("Requesting " +:+ url);
        EvLog INFO "Failed to make GET request"; EvLog INFO (text r);
        EvLog INFO (format_int (status_code r))] 0).
Proof.
  intros Hpos Hnet Hst. rewrite (makerequest_response _ _ _ _ _ _ Hpos Hnet).
  unfold response_result, ev_response.
  by destruct (Z.eqb_spec (status_code r) 200).
Qed.

(** C29 (functional). A request that is answered ends the fetch without
    any sleep: the random delay of line 51 is reached only after a transport
    failure that is retried. *)
Theorem makerequest_answered env url retries delay w r :
  0 < retries → net env (n_get w) url = Ok r →
  makerequest url retries delay env w =
    (response_result env r, advance w (ev_response url r) 0)
  ∧ sleeps (ev_response url r) = [].
Proof.
  intros Hpos Hnet. split; [|apply sleeps_ev_response].
  by apply makerequest_response.
Qed.

(** C35 (error). A response with status 200 whose body the parser refuses
    takes [makerequest] out with [ParserError] after the one request: the
    handler catches [RequestException] only, so the caller gets an
    exception and not [None]. *)
Theorem makerequest_unparsable env url retries delay w r :
  0 < retries →
  net env (n_get w) url = Ok r → status_code r = 200%Z →
  fromstring env (content r) = None →
  makerequest url retries delay env w =
    (Raise parser_error,
     advance w [EvGet url headers; EvLog INFO ("Requesting " +:+ url)] 0).
Proof.
  intros Hpos Hnet Hst Hparse.
  rewrite (makerequest_response _ _ _ _ _ _ Hpos Hnet).
  unfold response_result, ev_response. by rewrite Hst, Hparse.
Qed.

(** An exception of the request that is not a
    [RequestException] leaves [makerequest] at once: no retry, no log
    record. *)
Theorem makerequest_fatal env url retries delay w e :
  0 < retries →
  net env (n_get w) url = Raise e → isinstance e RequestException = false →
  makerequest url retries delay env w =
    (Raise e, advance w [EvGet url headers] 0).
Proof.
  intros Hpos Hnet He. unfold makerequest.
  destruct retries as [|n]; [lia|]. rewrite range_S.
  cbn [for_attempts]. rewrite run_bind.
  by rewrite (attempt_body_fatal _ _ _ _ _ _ _ Hnet He).
Qed.

(** C40 (error). With a negative delay, the first transport failure that
    would be retried ends [makerequest] with the [ValueError] of
    [time.sleep], raised inside the handler. *)
Theorem makerequest_negative_delay env url retries delay w e :
  (delay < 0)%Z → 1 < retries →
  net env (n_get w) url = Raise e → isinstance e RequestException = true →
  makerequest url retries delay env w =
    (Raise (value_error "sleep length must be non-negative"),
     advance w
       [EvGet url headers;
        EvLog INFO ("Request failed: " +:+ exn_msg e +:+ ", attempt "
                    +:+ format_int 1 +:+ " of "
                    +:+ format_int (Z.of_nat retries));
        EvLog INFO ("Waiting " +:+ format_int delay
                    +:+ " seconds before retrying...")] 0).
Proof.
  intros Hdelay Hretries Hnet He. unfold makerequest.
  destruct retries as [|n]; [lia|]. rewrite range_S. cbn [for_attempts].
  unfold attempt_body, try_except, try_get, on_request_exception. mrun.
  rewrite Hnet. mrun. rewrite He. mrun.
  destruct (Z.ltb_spec (Z.of_nat 0) (Z.of_nat (S n) - 1)); [|lia]. mrun.
  rewrite run_time_sleep_neg by (unfold US_PER_SECOND; lia). by mrun.
Qed.

(** For a delay that is not negative, [makerequest] makes at
    most [retries] requests and sleeps at most [retries - 1] times the delay
    plus five seconds. *)
Theorem makerequest_bounds env url retries delay w :
  (0 ≤ delay)%Z →
  let w' := (makerequest url retries delay env w).2 in
  n_get w' ≤ n_get w + retries
  ∧ (clock w ≤ clock w'
     ≤ clock w + Z.of_nat (retries - 1) * ((delay + 5) * US_PER_SECOND))%Z.
Proof.
  intros Hdelay. cbn zeta.
  destruct (makerequest_spends env url retries delay w Hdelay) as (? & _ & ?).
  destruct (closed_makerequest extends url retries delay env w).
  split_and!; done.
Qed.

(** ** Examples *)

Lemma makerequest_refines_witness :
  let env := Fixture.env_of (Fixture.flaky 1 Fixture.ok_response) (λ _, None) in
  makerequest "https://zdi/" 3 60 env Fixture.w0 =
    (fetch_spec env (outcomes env 0 "https://zdi/" 3),
     advance Fixture.w0
       (fetch_trace env "https://zdi/" 3 60 0 0 (outcomes env 0 "https://zdi/" 3))
       (fetch_backoffs (outcomes env 0 "https://zdi/" 3))).
Proof. apply makerequest_refines. lia. Defined.

(** Two transport failures, then a document: the third attempt of three
    succeeds after two back-offs of 60 s + 1 s and 60 s + 2 s. *)
Lemma makerequest_retry_success_witness :
  let env := Fixture.env_of (Fixture.flaky 2 Fixture.ok_response) (λ _, None) in
  ∃ evs,
    makerequest "https://zdi/" 3 60 env Fixture.w0 =
      (Ok (Some Fixture.page), advance Fixture.w0 evs 2)
    ∧ gets evs = ["https://zdi/"; "https://zdi/"; "https://zdi/"]
    ∧ sleeps evs = [60000000; 1000000; 60000000; 2000000]%Z.
Proof.
  intros env.
  exact (makerequest_retry_success env "https://zdi/" 3 60 Fixture.w0 2
           Fixture.ok_response Fixture.page ltac:(lia) ltac:(lia)
           ltac:(intros [|[|i]] Hi; [done|done|lia]) eq_refl eq_refl eq_refl).
Defined.

(** Three transport failures out of three attempts. *)
Lemma makerequest_exhausted_witness :
  let env := Fixture.env_of (Fixture.flaky 3 Fixture.ok_response) (λ _, None) in
  ∃ evs,
    makerequest "https://zdi/" 3 60 env Fixture.w0 =
      (Ok None, advance Fixture.w0 evs 2)
    ∧ gets evs = ["https://zdi/"; "https://zdi/"; "https://zdi/"]
    ∧ sleeps evs = [60000000; 1000000; 60000000; 2000000]%Z.
Proof.
  intros env.
  exact (makerequest_exhausted env "https://zdi/" 3 60 Fixture.w0
           ltac:(lia) ltac:(lia)
           ltac:(intros [|[|[|i]]] Hi; [done..|lia])).
Defined.

Lemma makerequest_rejected_witness :
  let env := Fixture.env_of (Fixture.flaky 0 Fixture.not_found) (λ _, None) in
  makerequest "https://zdi/" 3 60 env Fixture.w0 =
    (Ok None,
     advance Fixture.w0
       [EvGet "https://zdi/" headers; EvLog INFO "Requesting https://zdi/";
        EvLog INFO "Failed to make GET request"; EvLog INFO "not found";
        EvLog INFO "404"] 0).
Proof.
  intros env.
  exact (makerequest_rejected env "https://zdi/" 3 60 Fixture.w0
           Fixture.not_found ltac:(lia) eq_refl ltac:(done)).
Defined.

Lemma makerequest_answered_witness :
  let env := Fixture.env_of (Fixture.flaky 0 Fixture.ok_response) (λ _, None) in
  makerequest "https://zdi/" 3 60 env Fixture.w0 =
    (Ok (Some Fixture.page),
     advance Fixture.w0
       [EvGet "https://zdi/" headers; EvLog INFO "Requesting https://zdi/"] 0)
  ∧ sleeps [EvGet "https://zdi/" headers;
            EvLog INFO "Requesting https://zdi/"] = [].
Proof.
  intros env.
  exact (makerequest_answered env "https://zdi/" 3 60 Fixture.w0
           Fixture.ok_response ltac:(lia) eq_refl).
Defined.

(** An empty body with status 200. *)
Lemma makerequest_unparsable_witness :
  let empty := {| status_code := 200; text := ""; content := "" |} in
  let env := Fixture.env_of (λ _ _, Ok empty) (λ _, None) in
  makerequest "https://zdi/" 3 60 env Fixture.w0 =
    (Raise parser_error,
     advance Fixture.w0
       [EvGet "https://zdi/" headers;
        EvLog INFO ("Requesting " +:+ "https://zdi/")] 0).
Proof.
  intros empty env.
  exact (makerequest_unparsable env "https://zdi/" 3 60 Fixture.w0 empty
           ltac:(lia) eq_refl eq_refl eq_refl).
Defined.

Lemma makerequest_fatal_witness :
  let env := Fixture.env_of (λ _ _, Raise (Exn ValueError "bad url"))
               (λ _, None) in
  makerequest "https://zdi/" 3 60 env Fixture.w0 =
    (Raise (Exn ValueError "bad url"),
     advance Fixture.w0 [EvGet "https://zdi/" headers] 0).
Proof.
  intros env.
  exact (makerequest_fatal env "https://zdi/" 3 60 Fixture.w0 _
           ltac:(lia) eq_refl eq_refl).
Defined.

Lemma makerequest_negative_delay_witness :
  let env := Fixture.env_of (Fixture.flaky 1 Fixture.ok_response) (λ _, None) in
  makerequest "https://zdi/" 3 (-1) env Fixture.w0 =
    (Raise (value_error "sleep length must be non-negative"),
     advance Fixture.w0
       [EvGet "https://zdi/" headers;
        EvLog INFO "Request failed: timed out, attempt 1 of 3";
        EvLog INFO "Waiting -1 seconds before retrying..."] 0).
Proof.
  intros env.
  exact (makerequest_negative_delay env "https://zdi/" 3 (-1) Fixture.w0
           Fixture.timed_out ltac:(lia) ltac:(lia) eq_refl eq_refl).
Defined.

(** The defaults: at most three requests and 130 seconds of sleep. *)
Lemma makerequest_bounds_witness :
  let env := Fixture.env_of (Fixture.flaky 3 Fixture.ok_response) (λ _, None) in
  let w' := (makerequest "https://zdi/" 3 60 env Fixture.w0).2 in
  n_get w' ≤ 0 + 3
  ∧ (clock Fixture.w0 ≤ clock w' ≤ clock Fixture.w0 + 130000000)%Z.
Proof.
  intros env.
  exact (makerequest_bounds env "https://zdi/" 3 60 Fixture.w0 ltac:(lia)).
Defined.

(** With [retries = 0] the loop has no iteration: no request is made and
    nothing is logged, and the function returns [None] by falling off its
    end. *)
Example makerequest_no_attempts env url delay w :
  makerequest url 0 delay env w = (Ok None, w).
Proof. done. Qed.
