(* ===== verification/Listing.v ===== *)
(** * Listing: [retrieve_advisories] (src/zerodaynewsletter.py, lines 53-83)

    [listing_rows] is the navigation from the document to the table rows
    (lines 55-58), [row_advisory] the body of the loop over the rows (lines
    64-81), [for_rows] the loop (lines 59, 63, 81, 83) and
    [retrieve_advisories] the function: fetch, navigate, read the clock,
    loop. The calls of [xpath] take the text of their expression;
    [listing_rows_compiled], [row_cells] and [row_link_compiled] are what
    they select, in the queries of [Html].

    An [Advisory] is the dictionary of lines 70-80; its fields carry the
    names of the keys. *)

From S2P Require Import Prelude PyStr Html XPath Paths DateTime World Runs.
From S2P Require Import Fetcher.

(** ** The code *)

Record Advisory : Type := {
  ZDI_ID : string;
  ZDI_CAN : string;
  Vendor : string;
  CVE_ID : string;
  CVSS : string;
  Date : string;
  Extra : string;
  Description : string;
  Link : string
}.

#[export] Instance Advisory_eq_dec : EqDecision Advisory.
Proof. solve_decision. Defined.

Definition listing_url : string :=
  "https://www.zerodayinitiative.com/advisories/published/".

Definition origin : string := "https://www.zerodayinitiative.com".

(** What [tree.xpath] raises when [tree] is [None]. *)
Definition none_has_no_xpath : exn :=
  Exn AttributeError "'NoneType' object has no attribute 'xpath'".

(** The receiver of a method call on the result of [makerequest]. *)
Definition deref (tree : option node) : res node :=
  match tree with Some t => Ok t | None => Raise none_has_no_xpath end.

(** The expressions of lines 55-58, 64 and 69. *)
Definition listing_section_path : string :=
  "//section[@class=" +:+ quoted "blueBg up-advisories nopadding" +:+ "]".

Definition listing_table_path : string :=
  ".//table[@id=" +:+ quoted "search-table" +:+ " and contains(@class, "
  +:+ quoted "table table-hover table-primary" +:+ ")]".

Definition tbody_path : string := ".//tbody".

Definition listing_rows_path : string :=
  ".//tr[@id=" +:+ quoted "publishedAdvisories" +:+ "]".

Definition columns_path : string :=
  ".//td[@class=" +:+ quoted "sort-td" +:+ "]".

Definition href_path : string := ".//a/@href".

(** Lines 55-58. *)
Definition listing_rows (tree : option node) : res (list node) :=
  tree ← deref tree;
  section ← xpath_elements listing_section_path tree;
  section0 ← getitem section 0;
  table ← xpath_elements listing_table_path section0;
  table0 ← getitem table 0;
  tbody ← xpath_elements tbody_path table0;
  tbody0 ← getitem tbody 0;
  xpath_elements listing_rows_path tbody0.

(** Line 64. *)
Definition row_columns (row : node) : res (list node) :=
  xpath_elements columns_path row.

(** [columns[i].text_content().strip()]. *)
Definition cell_text (columns : list node) (i : nat) : res string :=
  c ← getitem columns i; Ok (strip (text_content c)).

(** Line 69: the condition, then the first of the values. *)
Definition row_link (columns : list node) : res (option string) :=
  c7 ← getitem columns 7;
  found ← xpath_strings href_path c7;
  if truthy found then
    c7' ← getitem columns 7;
    values ← xpath_strings href_path c7';
    Some <$> getitem values 0
  else Ok None.

(** Lines 64-81: what one row adds to [advisories]. *)
Definition row_advisory (last_24_hours : datetime) (row : node)
    : res (option Advisory) :=
  columns ← row_columns row;
  if truthy columns && (length columns =? 8) then
    advisory_date_str ← cell_text columns 5;
    advisory_date ← strptime advisory_date_str;
    if datetime_ge advisory_date last_24_hours then
      link ← row_link columns;
      zdi_id ← cell_text columns 0;
      zdi_can ← cell_text columns 1;
      vendor ← cell_text columns 2;
      cve_id ← cell_text columns 3;
      cvss ← cell_text columns 4;
      date ← cell_text columns 5;
      extra ← cell_text columns 6;
      description ← cell_text columns 7;
      Ok (Some {| ZDI_ID := zdi_id; ZDI_CAN := zdi_can; Vendor := vendor;
                  CVE_ID := cve_id; CVSS := cvss; Date := date;
                  Extra := extra; Description := description;
                  Link := origin +:+ format_opt link |})
    else Ok None
  else Ok None.

(** [for row in rows: ...] with the list [advisories] built so far. *)
Fixpoint for_rows (last_24_hours : datetime) (rows : list node)
    (advisories : list Advisory) : res (list Advisory) :=
  match rows with
  | [] => Ok advisories
  | row :: rest =>
      adv ← row_advisory last_24_hours row;
      for_rows last_24_hours rest
        (match adv with
         | Some a => advisories ++ [a]
         | None => advisories
         end)
  end.

(** [retrieve_advisories()]. *)
Definition retrieve_advisories : M (list Advisory) :=
  tree ← makerequest_default listing_url;
  rows ← lift (listing_rows tree);
  now ← datetime_now;
  last_24_hours ← lift (sub_timedelta now (timedelta_hours 24));
  lift (for_rows last_24_hours rows []).

(** ** The navigation with the queries of [Html] *)

(** The rows that the four expressions of lines 55-58 select. *)
Definition listing_rows_compiled (tree : option node) : res (list node) :=
  tree ← deref tree;
  let section :=
    xpath_root "section" [AttrEq "class" "blueBg up-advisories nopadding"]
      tree in
  section0 ← getitem section 0;
  let table :=
    xpath_desc "table"
      [And (AttrEq "id" "search-table")
           (AttrContains "class" "table table-hover table-primary")]
      section0 in
  table0 ← getitem table 0;
  let tbody := xpath_desc "tbody" [] table0 in
  tbody0 ← getitem tbody 0;
  Ok (xpath_desc "tr" [AttrEq "id" "publishedAdvisories"] tbody0).

(** The cells that the expression of line 64 selects. *)
Definition row_cells (row : node) : list node :=
  xpath_desc "td" [AttrEq "class" "sort-td"] row.

(** The link that line 69 reads. *)
Definition row_link_compiled (columns : list node) : res (option string) :=
  c7 ← getitem columns 7;
  if truthy (xpath_desc_attr "a" "href" c7) then
    c7' ← getitem columns 7;
    Some <$> getitem (xpath_desc_attr "a" "href" c7') 0
  else Ok None.

(** ** The specification of a row *)

(** The cells of a row that the loop reads, when there are exactly eight. *)
Definition eight (row : node) : option (list node) :=
  let columns := row_cells row in
  if decide (length columns = 8) then Some columns else None.

(** The text of cell [i], or the empty string outside the row. *)
Definition text_at (columns : list node) (i : nat) : string :=
  from_option (λ c, strip (text_content c)) "" (columns !! i).

(** The first [href] of an anchor below cell 7. *)
Definition href_at (columns : list node) : option string :=
  c ← columns !! 7; head (xpath_desc_attr "a" "href" c).

(** The record built from the cells (lines 70-80). *)
Definition advisory_of (columns : list node) : Advisory :=
  {| ZDI_ID := text_at columns 0; ZDI_CAN := text_at columns 1;
     Vendor := text_at columns 2; CVE_ID := text_at columns 3;
     CVSS := text_at columns 4; Date := text_at columns 5;
     Extra := text_at columns 6; Description := text_at columns 7;
     Link := origin +:+ format_opt (href_at columns) |}.

(** What a row contributes: nothing without eight cells, an exception for
    a date that does not parse, the record if the date is in the window. *)
Definition row_spec (last_24_hours : datetime) (row : node)
    : res (option Advisory) :=
  match eight row with
  | None => Ok None
  | Some columns =>
      d ← strptime (text_at columns 5);
      Ok (if datetime_ge d last_24_hours then Some (advisory_of columns)
          else None)
  end.

(** What the loop returns: the records of the rows in document order, or
    the exception of the first row that raises. *)
Definition rows_spec (last_24_hours : datetime) (rows : list node)
    : res (list Advisory) :=
  omap id <$> mapM (row_spec last_24_hours) rows.

(** The shape of the records of a listing: the eight texts have no white
    space at either end, the link is an address of the site, and the date
    reads as a day of the window. *)
Record well_formed (last_24_hours : datetime) (a : Advisory) : Prop := {
  wf_texts :
    Forall stripped [ZDI_ID a; ZDI_CAN a; Vendor a; CVE_ID a; CVSS a; Date a;
                     Extra a; Description a];
  wf_link : startswith origin (Link a) = true;
  wf_date : ∃ d, strptime (Date a) = Ok d ∧ datetime_ge d last_24_hours = true
}.

(** ** A listing page for the examples *)

Module ListingFixture.

Definition td (cs : list node) : node := Element "td" [("class", "sort-td")] cs.

(** A row of the table: eight cells, the last with an optional anchor. *)
Definition tr (id can vendor cve cvss date : string) (href : option string)
    (title : string) : node :=
  Element "tr" [("id", "publishedAdvisories")]
    [td [Text id]; td [Text can]; td [Text vendor]; td [Text cve];
     td [Text cvss]; td [Text (" " +:+ date +:+ " ")]; td [];
     td [match href with
         | Some h => Element "a" [("href", h)] [Text title]
         | None => Text title
         end]].

Definition row1 : node :=
  tr "ZDI-24-401" "ZDI-CAN-23001" "Acme" "CVE-2024-0001" "8.8" "2024-05-10"
     (Some "/advisories/ZDI-24-401/") "Acme Router Overflow".

Definition row2 : node :=
  tr "ZDI-24-400" "ZDI-CAN-23000" "Initech" "CVE-2024-0002" "7.5" "2024-05-09"
     (Some "/advisories/ZDI-24-400/") "Initech Printer Bug".

Definition row3 : node :=
  tr "ZDI-24-402" "ZDI-CAN-23002" "Globex" "CVE-2024-0003" "9.8" "2024-05-11"
     None "Globex Gateway Injection".

Definition bad_row : node :=
  tr "ZDI-24-403" "ZDI-CAN-23003" "Hooli" "CVE-2024-0004" "5.0" "10/05/2024"
     None "Hooli Phone Leak".

(** A row of the table header: no cell of class [sort-td]. *)
Definition short_row : node :=
  Element "tr" [("id", "publishedAdvisories")] [Element "td" [] [Text "-"]].

Definition listing (rows : list node) : node :=
  Element "html" []
    [Element "body" []
       [Element "section" [("class", "blueBg up-advisories nopadding")]
          [Element "table"
             [("id", "search-table");
              ("class", "table table-hover table-primary dataTable")]
             [Element "thead" [] []; Element "tbody" [] rows]]]].

(** 2024-05-09 09:00, a day before [Fixture.w0]. *)
Definition last : datetime := DateTime 2024 5 9 9 0 0 0.

Definition adv1 : Advisory :=
  {| ZDI_ID := "ZDI-24-401"; ZDI_CAN := "ZDI-CAN-23001"; Vendor := "Acme";
     CVE_ID := "CVE-2024-0001"; CVSS := "8.8"; Date := "2024-05-10";
     Extra := ""; Description := "Acme Router Overflow";
     Link := "https://www.zerodayinitiative.com/advisories/ZDI-24-401/" |}.

Definition adv3 : Advisory :=
  {| ZDI_ID := "ZDI-24-402"; ZDI_CAN := "ZDI-CAN-23002"; Vendor := "Globex";
     CVE_ID := "CVE-2024-0003"; CVSS := "9.8"; Date := "2024-05-11";
     Extra := ""; Description := "Globex Gateway Injection";
     Link := "https://www.zerodayinitiative.comNone" |}.

(** The site answers every request with a page that parses to the listing
    of [rows]. *)
Definition env (rows : list node) : Env :=
  Fixture.env_with (Fixture.flaky 0 Fixture.ok_response) (λ _, None)
    (λ _, Some (listing rows)).

End ListingFixture.

(** ** What the expressions select *)

Lemma listing_rows_compiles tree : listing_rows tree = listing_rows_compiled tree.
Proof.
  unfold listing_rows, listing_rows_compiled.
  destruct (deref tree) as [t|e]; [|done]. by navigate.
Qed.

Lemma row_columns_cells row : row_columns row = Ok (row_cells row).
Proof. unfold row_columns. by compile_paths. Qed.

Lemma row_link_compiles columns : row_link columns = row_link_compiled columns.
Proof. unfold row_link, row_link_compiled. by navigate. Qed.

(** ** The loop body implements the specification of a row *)

Lemma strptime_raises s e : strptime s = Raise e → exn_cls e = ValueError.
Proof.
  unfold strptime. destruct (match_format s) as [[[[y m] d] rest]|];
    [|by intros [= <-]].
  repeat case_match; by intros [= <-].
Qed.

Section row.
#[local] Opaque datetime_ge strptime strip text_content xpath_desc_attr.

Lemma row_advisory_spec last row : row_advisory last row = row_spec last row.
Proof.
  unfold row_advisory, row_spec, eight.
  rewrite row_columns_cells, res_bind_ok. generalize (row_cells row).
  intros columns. rewrite (row_link_compiles columns). unfold row_link_compiled.
  case_decide as Hlen.
  - do 8 (destruct columns as [|? columns]; [done|]).
    destruct columns; [|done]. cbn.
    unfold text_at, href_at. cbn. destruct (strptime _) as [d|]; cbn; [|done].
    destruct (datetime_ge d last); [|done].
    unfold advisory_of, text_at, href_at. cbn.
    by destruct (xpath_desc_attr "a" "href" _).
  - replace (truthy columns && (length columns =? 8)) with false; [done|].
    symmetry. apply andb_false_iff. right. by apply Nat.eqb_neq.
Qed.

End row.

(** ** The loop *)

Lemma for_rows_spec last rows acc :
  for_rows last rows acc = (λ l, acc ++ l) <$> rows_spec last rows.
Proof.
  unfold rows_spec. revert acc.
  induction rows as [|row rows IH]; intros acc; cbn [for_rows mapM].
  { cbn. by rewrite app_nil_r. }
  rewrite row_advisory_spec.
  destruct (row_spec last row) as [o|e]; cbn; [|done]. rewrite IH.
  destruct (mapM (row_spec last) rows) as [os|e]; cbn; [|done].
  destruct o; cbn; [|done]. by rewrite <- (assoc_L (++)).
Qed.

Lemma for_rows_raise last before row after e acc :
  Forall (λ r, is_ok (row_advisory last r) = true) before →
  row_advisory last row = Raise e →
  for_rows last (before ++ row :: after) acc = Raise e.
Proof.
  intros Hbefore Hrow. revert acc.
  induction Hbefore as [|r before Hr _ IH]; intros acc; cbn [for_rows app].
  - by rewrite Hrow.
  - destruct (row_advisory last r); [|done]. cbn. apply IH.
Qed.

Lemma rows_spec_cons last row rows :
  rows_spec last (row :: rows) =
    o ← row_spec last row; l ← rows_spec last rows;
    Ok (from_option (λ a, [a]) [] o ++ l).
Proof.
  unfold rows_spec. cbn [mapM]. destruct (row_spec last row) as [o|e]; [|done].
  cbn. destruct (mapM (row_spec last) rows) as [os|e]; [|done].
  by destruct o.
Qed.

Lemma rows_spec_app last rows1 rows2 :
  rows_spec last (rows1 ++ rows2) =
    l1 ← rows_spec last rows1; l2 ← rows_spec last rows2; Ok (l1 ++ l2).
Proof.
  induction rows1 as [|row rows1 IH]; cbn [app].
  { change (rows_spec last []) with (Ok (@nil Advisory)). cbn.
    by destruct (rows_spec last rows2). }
  rewrite !rows_spec_cons, IH. destruct (row_spec last row) as [o|e]; [|done].
  cbn. destruct (rows_spec last rows1) as [l1|e]; [|done]. cbn.
  destruct (rows_spec last rows2) as [l2|e]; [|done]. cbn.
  by rewrite (assoc_L (++)).
Qed.

(** What a row that yields a record looks like. *)
Lemma row_spec_Some last row a :
  row_spec last row = Ok (Some a) →
  ∃ columns d, eight row = Some columns ∧ a = advisory_of columns ∧
    strptime (Date a) = Ok d ∧ datetime_ge d last = true.
Proof.
  unfold row_spec. destruct (eight row) as [columns|]; [|done].
  destruct (strptime (text_at columns 5)) as [d|] eqn:Hd; [|done]. cbn.
  destruct (datetime_ge d last) eqn:Hge; [|done]. intros [= <-].
  by exists columns, d.
Qed.

Lemma eight_Some row columns :
  eight row = Some columns ↔ row_cells row = columns ∧ length columns = 8.
Proof.
  unfold eight. case_decide.
  - split; [by intros [= <-]|by intros [<- _]].
  - split; [done|]. by intros [<- ?].
Qed.

(** A property of the records of the rows is a property of the records that
    the loop returns. *)
Lemma for_rows_Forall (P : Advisory → Prop) last rows advs :
  (∀ row a, row_spec last row = Ok (Some a) → P a) →
  for_rows last rows [] = Ok advs → Forall P advs.
Proof.
  intros HP. rewrite for_rows_spec, (res_fmap_id _ _ (λ _, eq_refl)).
  revert advs. induction rows as [|row rows IH]; intros advs.
  { by intros [= <-]. }
  rewrite rows_spec_cons.
  intros (o & Ho & (l & Hl & [= <-])%res_bind_Ok_inv)%res_bind_Ok_inv.
  apply Forall_app. split; [|by apply IH].
  destruct o as [a|]; cbn; [|done]. repeat constructor. by eapply HP.
Qed.

Lemma stripped_text_at columns i : stripped (text_at columns i).
Proof.
  unfold text_at. destruct (columns !! i); cbn; [apply strip_stripped|done].
Qed.

(** ** The function *)

Section run.
Context (env : Env) (w w1 : World).

Lemma retrieve_advisories_run tree :
  makerequest_default listing_url env w = (Ok tree, w1) →
  retrieve_advisories env w =
    ((rows ← listing_rows tree;
      now ← of_us (clock w1);
      last ← sub_timedelta now (timedelta_hours 24);
      rows_spec last rows), w1).
Proof.
  intros Hfetch. unfold retrieve_advisories. rewrite run_bind, Hfetch. mrun.
  destruct (listing_rows tree) as [rows|e]; [|done]. mrun.
  destruct (of_us (clock w1)) as [now|e]; [|done]. mrun.
  destruct (sub_timedelta _ _) as [last|e]; [|done]. mrun.
  rewrite for_rows_spec. f_equal. by apply res_fmap_id.
Qed.

End run.

Lemma closed_retrieve_advisories R `{!Primitives R} :
  closed R retrieve_advisories.
Proof. unfold retrieve_advisories, makerequest_default. solve_closed. Qed.

#[export] Hint Resolve closed_retrieve_advisories : py.

(** The state that [retrieve_advisories] leaves is the state that the fetch
    of the listing leaves. *)
Lemma retrieve_advisories_state env w :
  (retrieve_advisories env w).2 = (makerequest_default listing_url env w).2.
Proof.
  unfold retrieve_advisories. rewrite run_bind.
  destruct (makerequest_default listing_url env w) as [[tree|e] w1]; [|done].
  mrun. destruct (listing_rows tree) as [rows|e]; [|done]. mrun.
  destruct (of_us (clock w1)) as [now|e]; [|done]. mrun.
  destruct (sub_timedelta _ _) as [last|e]; [|done]. mrun.
  by destruct (for_rows _ _ _).
Qed.

Lemma retrieve_advisories_spends env w :
  spends 3 0 (130 * US_PER_SECOND) w (retrieve_advisories env w).2.
Proof. rewrite retrieve_advisories_state. apply makerequest_default_spends. Qed.

(** ** The window *)

Section window.
Context (now last : datetime).
Context (Hlast : sub_timedelta now (timedelta_hours 24) = Ok last).

(** The test of line 68 compares instants: the midnight that starts the
    advisory's date with the instant 24 hours before [now]. *)
Lemma window_instants s d :
  strptime s = Ok d →
  datetime_ge d last = bool_decide (to_us now - timedelta_hours 24 ≤ to_us d)%Z.
Proof.
  intros (y & m & dd & -> & Hv & _)%strptime_Ok.
  apply sub_timedelta_spec in Hlast as [Hvl <-].
  rewrite datetime_ge_spec; [|by apply valid_midnight|done].
  destruct (Z.leb_spec (to_us last) (to_us (DateTime y m dd 0 0 0 0)));
    by case_bool_decide; try lia.
Qed.

(** The same test in days: the date is today's or a later one, or it is
    yesterday's and [now] is midnight. *)
Lemma window_days s d :
  valid now → strptime s = Ok d →
  datetime_ge d last =
    bool_decide (toordinal now ≤ toordinal d
                 ∨ toordinal d = toordinal now - 1 ∧ time_of_day now = 0)%Z.
Proof.
  intros Hnow Hd. rewrite (window_instants s d Hd).
  apply strptime_Ok in Hd as (y & m & dd & -> & _).
  pose proof (time_of_day_range now Hnow) as Htod. apply bool_decide_ext.
  unfold to_us. change (time_of_day (DateTime y m dd 0 0 0 0)) with 0%Z.
  unfold timedelta_hours, US_PER_DAY, US_PER_SECOND in *. lia.
Qed.

Lemma row_spec_eight row columns d :
  eight row = Some columns → strptime (text_at columns 5) = Ok d →
  row_advisory last row =
    Ok (if datetime_ge d last then Some (advisory_of columns) else None).
Proof.
  intros Hcols Hd. rewrite row_advisory_spec. unfold row_spec.
  by rewrite Hcols, Hd.
Qed.

End window.

(** ** The navigation *)

Lemma listing_rows_Some tree rows :
  listing_rows (Some tree) = Ok rows →
  ∃ section table tbody,
    head (xpath_root "section"
            [AttrEq "class" "blueBg up-advisories nopadding"] tree)
      = Some section
    ∧ head (xpath_desc "table"
              [And (AttrEq "id" "search-table")
                   (AttrContains "class" "table table-hover table-primary")]
              section) = Some table
    ∧ head (xpath_desc "tbody" [] table) = Some tbody
    ∧ rows = xpath_desc "tr" [AttrEq "id" "publishedAdvisories"] tbody.
Proof.
  rewrite listing_rows_compiles. unfold listing_rows_compiled. cbn [deref].
  rewrite res_bind_ok.
  intros (section & Hs%getitem_Ok & (table & Ht%getitem_Ok &
    (tbody & Hb%getitem_Ok & [= <-])%res_bind_Ok_inv)%res_bind_Ok_inv)
    %res_bind_Ok_inv.
  exists section, table, tbody. by rewrite !head_lookup.
Qed.

(** ** The theorems *)

(** C5 (refinement). The loop over the rows returns what [rows_spec]
    prescribes: the records of the rows that have eight cells and a date in
    the window, in the order of the rows, or the exception of the first row
    whose date does not parse. *)
Theorem for_rows_refines last rows :
  for_rows last rows [] = rows_spec last rows.
Proof. rewrite for_rows_spec. by apply res_fmap_id. Qed.

(** C9 (functional). When the listing page is fetched and has the expected
    structure, [retrieve_advisories] reads the clock once, after the fetch,
    and returns the records of the rows; it has no effect besides those of
    the fetch. *)
Theorem retrieve_advisories_ok env w tree w1 rows now last :
  makerequest_default listing_url env w = (Ok (Some tree), w1) →
  listing_rows (Some tree) = Ok rows →
  of_us (clock w1) = Ok now →
  sub_timedelta now (timedelta_hours 24) = Ok last →
  retrieve_advisories env w = (rows_spec last rows, w1).
Proof.
  intros Hfetch Hrows Hnow Hlast.
  rewrite (retrieve_advisories_run _ _ _ _ Hfetch), Hrows. cbn.
  by rewrite Hnow, res_bind_ok, Hlast.
Qed.

(** C34 (error). When the fetch of the listing page fails ([makerequest]
    returns [None]), [retrieve_advisories] raises [AttributeError]: the
    failure is not handled. *)
Theorem retrieve_advisories_fetch_failed env w w1 :
  makerequest_default listing_url env w = (Ok None, w1) →
  retrieve_advisories env w = (Raise none_has_no_xpath, w1).
Proof. intros Hfetch. by rewrite (retrieve_advisories_run _ _ _ _ Hfetch). Qed.

(** On a document, the navigation to the rows raises nothing but
    [IndexError]: a missing section, table or body ends the function with
    [list index out of range]. *)
Theorem listing_rows_raises tree e :
  listing_rows (Some tree) = Raise e → e = index_error.
Proof.
  rewrite listing_rows_compiles. unfold listing_rows_compiled. cbn [deref].
  rewrite res_bind_ok.
  repeat (intros [[]%getitem_raise|(? & _ & H)]%res_bind_Raise_inv; [done|];
          revert H).
  done.
Qed.

(** The rows that are read are [tr] elements of the document
    with the id [publishedAdvisories]. *)
Theorem listing_rows_within tree rows :
  listing_rows (Some tree) = Ok rows →
  Forall (λ r, matches "tr" [AttrEq "id" "publishedAdvisories"] r = true
               ∧ r ∈ descendants tree) rows.
Proof.
  intros (section & table & tbody & Hs%head_Some_elem_of & Ht%head_Some_elem_of
    & Hb%head_Some_elem_of & ->)%listing_rows_Some.
  apply elem_of_xpath_root in Hs as [_ Hs].
  apply elem_of_xpath_desc in Ht as [_ Ht], Hb as [_ Hb].
  apply Forall_forall. intros r [Hr Hin]%elem_of_xpath_desc.
  split; [by destruct (matches _ _ r)|].
  destruct Hs as [->|Hs]; eauto using descendants_trans.
Qed.

(** A row that does not have exactly eight cells of class
    [sort-td] adds nothing and raises nothing. *)
Theorem row_without_eight_cells last row :
  length (row_cells row) ≠ 8 → row_advisory last row = Ok None.
Proof.
  intros Hlen. rewrite row_advisory_spec. unfold row_spec, eight.
  by rewrite decide_False.
Qed.

(** C27 (error). A row with eight cells whose date does not parse ends the
    loop with [ValueError]: the records of the rows before it are lost and
    the rows after it are not read. *)
Theorem for_rows_bad_date last before row after columns e acc :
  Forall (λ r, is_ok (row_advisory last r) = true) before →
  eight row = Some columns → strptime (text_at columns 5) = Raise e →
  for_rows last (before ++ row :: after) acc = Raise e
  ∧ exn_cls e = ValueError.
Proof.
  intros Hbefore Hcols Hdate. split; [|by eapply strptime_raises].
  apply for_rows_raise; [done|]. rewrite row_advisory_spec. unfold row_spec.
  by rewrite Hcols, Hdate.
Qed.

(** C19 (type). Every record that the loop returns is well formed: its
    texts are stripped, its link starts with the address of the site, and
    its date parses and is not before [last_24_hours]. *)
Theorem for_rows_well_formed last rows advs :
  for_rows last rows [] = Ok advs → Forall (well_formed last) advs.
Proof.
  apply for_rows_Forall. intros row a (cols & d & _ & -> & Hd & Hge)%row_spec_Some.
  split; [|apply startswith_app|by exists d].
  repeat constructor; apply stripped_text_at.
Qed.

(** The records come in the order of the rows of the
    page: the result is a subsequence of the records of all rows. *)
Theorem for_rows_document_order last rows advs :
  for_rows last rows [] = Ok advs →
  advs `sublist_of` (advisory_of ∘ row_cells <$> rows).
Proof.
  rewrite for_rows_spec, (res_fmap_id _ _ (λ _, eq_refl)). revert advs.
  induction rows as [|row rows IH]; intros advs.
  { by intros [= <-]. }
  rewrite rows_spec_cons.
  intros (o & Ho & (l & Hl & [= <-])%res_bind_Ok_inv)%res_bind_Ok_inv.
  destruct o as [a|]; cbn; [|by apply sublist_cons, IH].
  apply row_spec_Some in Ho as (cols & _ & [<- _]%eight_Some & -> & _).
  by apply sublist_skip, IH.
Qed.

(** C32 (functional). A row in the window whose last cell holds no anchor
    with an [href] yields a record whose link is the site's origin followed
    by the text [None]. *)
Theorem missing_anchor_link last row columns d :
  eight row = Some columns → href_at columns = None →
  strptime (text_at columns 5) = Ok d → datetime_ge d last = true →
  ∃ a, row_advisory last row = Ok (Some a)
       ∧ Link a = "https://www.zerodayinitiative.comNone".
Proof.
  intros Hcols Hhref Hd Hge. exists (advisory_of columns).
  rewrite row_advisory_spec. unfold row_spec.
  rewrite Hcols, Hd, res_bind_ok, Hge. split; [done|].
  unfold advisory_of. cbn [Link]. by rewrite Hhref.
Qed.

(** C6 (functional). A row with eight cells and a date that parses is
    retained exactly when the midnight that starts its date is not more than
    24 hours before [now]. *)
Theorem row_retained_iff now last row columns d :
  sub_timedelta now (timedelta_hours 24) = Ok last →
  eight row = Some columns → strptime (text_at columns 5) = Ok d →
  row_advisory last row =
    Ok (if bool_decide (to_us now - timedelta_hours 24 ≤ to_us d)%Z
        then Some (advisory_of columns) else None).
Proof.
  intros Hlast Hcols Hd. rewrite (row_spec_eight _ _ _ _ Hcols Hd).
  by rewrite (window_instants now last Hlast _ d Hd).
Qed.

(** C28 (functional). A row dated the day before the run is dropped unless
    the clock reads midnight exactly: the date is compared as the start of
    its day. *)
Theorem row_dated_yesterday_dropped now last row columns d :
  valid now → sub_timedelta now (timedelta_hours 24) = Ok last →
  eight row = Some columns → strptime (text_at columns 5) = Ok d →
  toordinal d = (toordinal now - 1)%Z → (0 < time_of_day now)%Z →
  row_advisory last row = Ok None.
Proof.
  intros Hnow Hlast Hcols Hd Hord Htod.
  rewrite (row_spec_eight _ _ _ _ Hcols Hd).
  rewrite (window_days now last Hlast _ d Hnow Hd).
  by rewrite bool_decide_eq_false_2 by lia.
Qed.

(** The window has no upper end: a row dated after the
    day of the run is retained. *)
Theorem row_dated_later_retained now last row columns d :
  valid now → sub_timedelta now (timedelta_hours 24) = Ok last →
  eight row = Some columns → strptime (text_at columns 5) = Ok d →
  (toordinal now < toordinal d)%Z →
  row_advisory last row = Ok (Some (advisory_of columns)).
Proof.
  intros Hnow Hlast Hcols Hd Hord.
  rewrite (row_spec_eight _ _ _ _ Hcols Hd).
  rewrite (window_days now last Hlast _ d Hnow Hd).
  by rewrite bool_decide_eq_true_2 by lia.
Qed.

(** ** Examples *)

Import ListingFixture.

Lemma row_retained_iff_witness : row_advisory last row1 = Ok (Some adv1).
Proof.
  exact (row_retained_iff (DateTime 2024 5 10 9 0 0 0) last row1
           (row_cells row1) (DateTime 2024 5 10 0 0 0 0)
           eq_refl eq_refl eq_refl).
Defined.

(** At 09:00 on 2024-05-10 the row dated 2024-05-09 is dropped. *)
Lemma row_dated_yesterday_dropped_witness : row_advisory last row2 = Ok None.
Proof.
  exact (row_dated_yesterday_dropped (DateTime 2024 5 10 9 0 0 0) last row2
           (row_cells row2) (DateTime 2024 5 9 0 0 0 0)
           ltac:(by vm_compute) eq_refl eq_refl eq_refl eq_refl eq_refl).
Defined.

(** At 09:00 on 2024-05-10 the row dated 2024-05-11 is retained. *)
Lemma row_dated_later_retained_witness :
  row_advisory last row3 = Ok (Some adv3).
Proof.
  exact (row_dated_later_retained (DateTime 2024 5 10 9 0 0 0) last row3
           (row_cells row3) (DateTime 2024 5 11 0 0 0 0)
           ltac:(by vm_compute) eq_refl eq_refl eq_refl eq_refl).
Defined.

(** The page of the fixture on 2024-05-10 at 09:00: the row of the day and
    the row dated the day after are returned, the row dated the day before
    is not. *)
Lemma retrieve_advisories_ok_witness :
  retrieve_advisories (env [row1; short_row; row2; row3]) Fixture.w0 =
    (Ok [adv1; adv3],
     advance Fixture.w0
       [EvGet listing_url headers; EvLog INFO ("Requesting " +:+ listing_url)]
       0).
Proof.
  exact (retrieve_advisories_ok (env [row1; short_row; row2; row3]) Fixture.w0
           (listing [row1; short_row; row2; row3]) _
           [row1; short_row; row2; row3] (DateTime 2024 5 10 9 0 0 0) last
           eq_refl eq_refl eq_refl eq_refl).
Defined.

Lemma retrieve_advisories_fetch_failed_witness :
  let env := Fixture.env_of (Fixture.flaky 0 Fixture.not_found) (λ _, None) in
  retrieve_advisories env Fixture.w0 =
    (Raise none_has_no_xpath,
     advance Fixture.w0
       [EvGet listing_url headers; EvLog INFO ("Requesting " +:+ listing_url);
        EvLog INFO "Failed to make GET request"; EvLog INFO "not found";
        EvLog INFO "404"] 0).
Proof.
  intros env. exact (retrieve_advisories_fetch_failed env Fixture.w0 _ eq_refl).
Defined.

Lemma listing_rows_raises_witness :
  listing_rows (Some Fixture.page) = Raise index_error.
Proof.
  destruct (listing_rows (Some Fixture.page)) as [rows|e] eqn:E; [done|].
  f_equal. exact (listing_rows_raises Fixture.page e E).
Defined.

Lemma listing_rows_within_witness :
  Forall (λ r, matches "tr" [AttrEq "id" "publishedAdvisories"] r = true
               ∧ r ∈ descendants (listing [row1; row2]))
    [row1; row2].
Proof. exact (listing_rows_within (listing [row1; row2]) _ eq_refl). Defined.

Lemma row_without_eight_cells_witness : row_advisory last short_row = Ok None.
Proof. apply row_without_eight_cells. vm_compute. lia. Defined.

Lemma for_rows_bad_date_witness :
  for_rows last [row1; bad_row; row3] [] =
    Raise (value_error
      "time data '10/05/2024' does not match format '%Y-%m-%d'")
  ∧ ValueError = ValueError.
Proof.
  exact (for_rows_bad_date last [row1] bad_row [row3] (row_cells bad_row) _
           [] ltac:(by repeat constructor) eq_refl eq_refl).
Defined.

Lemma for_rows_well_formed_witness : Forall (well_formed last) [adv1; adv3].
Proof.
  exact (for_rows_well_formed last [row1; short_row; row2; row3] _ eq_refl).
Defined.

Lemma for_rows_document_order_witness :
  [adv1; adv3] `sublist_of`
    (advisory_of ∘ row_cells <$> [row1; short_row; row2; row3]).
Proof.
  exact (for_rows_document_order last [row1; short_row; row2; row3] _ eq_refl).
Defined.

Lemma missing_anchor_link_witness :
  ∃ a, row_advisory last row3 = Ok (Some a)
       ∧ Link a = "https://www.zerodayinitiative.comNone".
Proof.
  exact (missing_anchor_link last row3 (row_cells row3)
           (DateTime 2024 5 11 0 0 0 0) eq_refl eq_refl eq_refl eq_refl).
Defined.
