(* ===== verification/Detail.v ===== *)
(** * Detail: [retrieve_advisory_info] (src/zerodaynewsletter.py, lines 85-114)

    [detail_rows] is the navigation from the document to the rows of the
    details table (lines 88-91), [advisory_information] reads the second
    cell of rows 3 to 6 in the order of the code (lines 93-111), and
    [retrieve_advisory_info] logs, fetches and extracts. The calls of
    [xpath] and [find] take the text of their expression;
    [detail_rows_compiled], [second_cell_compiled] and
    [additional_details_hrefs_compiled] are what they select, in the
    queries of [Html].

    An [AdvisoryInformation] is the dictionary of line 111; its fields carry
    the names of the keys with [_] for the space. *)

From S2P Require Import Prelude PyStr Html XPath Paths DateTime World Runs.
From S2P Require Import Fetcher.
From S2P Require Import Listing.

(** ** The code *)

Record AdvisoryInformation : Type := {
  AFFECTED_PRODUCTS : string;
  VULNERABILITY_DETAILS : string;
  ADDITIONAL_DETAILS : string;
  ADDITIONAL_DETAILS_LINKS : option string;
  DISCLOSURE_TIMELINE : string
}.

#[export] Instance AdvisoryInformation_eq_dec : EqDecision AdvisoryInformation.
Proof. solve_decision. Defined.

(** The expressions of lines 88-91, of lines 94, 98, 102 and 108, and of
    line 104. *)
Definition detail_section_path : string :=
  "//section[@class=" +:+ quoted "blueBg" +:+ "]".

Definition content_block_path : string :=
  ".//div[@class=" +:+ quoted "contentBlock advisories-details" +:+ "]".

Definition detail_table_path : string :=
  ".//table[@style=" +:+ quoted "max-width: 100%;" +:+ "]".

Definition tr_path : string := ".//tr".

Definition td_path : string := "./td".

Definition anchor_path : string := ".//a".

(** Lines 88-91. *)
Definition detail_rows (tree : option node) : res (list node) :=
  tree ← deref tree;
  section ← xpath_elements detail_section_path tree;
  section0 ← getitem section 0;
  content_block ← xpath_elements content_block_path section0;
  content_block0 ← getitem content_block 0;
  table ← xpath_elements detail_table_path content_block0;
  table0 ← getitem table 0;
  xpath_elements tr_path table0.

(** [tr_elements[i].xpath('./td')[1]]: the second cell of row [i]. *)
Definition second_cell (tr_elements : list node) (i : nat) : res node :=
  info ← getitem tr_elements i;
  info_td ← xpath_elements td_path info;
  getitem info_td 1.

(** Lines 104-105: the [href] of the first anchor of the cell. *)
Definition additional_details_hrefs (td : node) : res (option string) :=
  additional_details_href_element ← find anchor_path td;
  match additional_details_href_element with
  | Some a => Some <$> attrib_getitem a "href"
  | None => Ok None
  end.

(** Lines 93-111. *)
Definition advisory_information (tr_elements : list node)
    : res AdvisoryInformation :=
  product_info_td1 ← second_cell tr_elements 3;
  let affected_product := strip (text_content product_info_td1) in
  vulnerability_info_td1 ← second_cell tr_elements 4;
  let vulnerability_details := strip (text_content vulnerability_info_td1) in
  additional_info_td1 ← second_cell tr_elements 5;
  let additional_details := strip (text_content additional_info_td1) in
  hrefs ← additional_details_hrefs additional_info_td1;
  timeline_info_td1 ← second_cell tr_elements 6;
  let disclosure_timeline := strip (text_content timeline_info_td1) in
  Ok {| AFFECTED_PRODUCTS := affected_product;
        VULNERABILITY_DETAILS := vulnerability_details;
        ADDITIONAL_DETAILS := additional_details;
        ADDITIONAL_DETAILS_LINKS := hrefs;
        DISCLOSURE_TIMELINE := disclosure_timeline |}.

(** [retrieve_advisory_info(advisory_link)]. *)
Definition retrieve_advisory_info (advisory_link : string)
    : M AdvisoryInformation :=
  logger_info "starting retrieve_advisory_info";;
  tree ← makerequest_default advisory_link;
  tr_elements ← lift (detail_rows tree);
  lift (advisory_information tr_elements).

(** ** The navigation with the queries of [Html] *)

(** The rows that the four expressions of lines 88-91 select. *)
Definition detail_rows_compiled (tree : option node) : res (list node) :=
  tree ← deref tree;
  let section := xpath_root "section" [AttrEq "class" "blueBg"] tree in
  section0 ← getitem section 0;
  let content_block :=
    xpath_desc "div" [AttrEq "class" "contentBlock advisories-details"]
      section0 in
  content_block0 ← getitem content_block 0;
  let table :=
    xpath_desc "table" [AttrEq "style" "max-width: 100%;"] content_block0 in
  table0 ← getitem table 0;
  Ok (xpath_desc "tr" [] table0).

(** The second [td] child of row [i]. *)
Definition second_cell_compiled (tr_elements : list node) (i : nat)
    : res node :=
  info ← getitem tr_elements i;
  getitem (xpath_child "td" info) 1.

(** The [href] of the first anchor below a cell. *)
Definition additional_details_hrefs_compiled (td : node)
    : res (option string) :=
  match find_desc "a" td with
  | Some a => Some <$> attrib_getitem a "href"
  | None => Ok None
  end.

(** The expressions of the program. *)
Definition expressions : list string :=
  [listing_section_path; listing_table_path; tbody_path; listing_rows_path;
   columns_path; href_path; detail_section_path; content_block_path;
   detail_table_path; tr_path; td_path; anchor_path].

(** ** The specification of the extraction *)

(** The second [td] child of row [i], if there is one. *)
Definition cell (tr_elements : list node) (i : nat) : option node :=
  row ← tr_elements !! i; xpath_child "td" row !! 1.

(** The text of that cell, or the empty string. *)
Definition cell_text_at (tr_elements : list node) (i : nat) : string :=
  from_option (λ c, strip (text_content c)) "" (cell tr_elements i).

(** The record that rows with the four cells yield, given the link. *)
Definition information_of (tr_elements : list node) (link : option string)
    : AdvisoryInformation :=
  {| AFFECTED_PRODUCTS := cell_text_at tr_elements 3;
     VULNERABILITY_DETAILS := cell_text_at tr_elements 4;
     ADDITIONAL_DETAILS := cell_text_at tr_elements 5;
     ADDITIONAL_DETAILS_LINKS := link;
     DISCLOSURE_TIMELINE := cell_text_at tr_elements 6 |}.

Definition key_error_href : exn := Exn KeyError "'href'".

(** What the extraction returns: [IndexError] at the first of the cells 3,
    4, 5 that is missing, then [KeyError] for an anchor without [href], then
    [IndexError] for a missing cell 6. *)
Definition information_spec (tr_elements : list node)
    : res AdvisoryInformation :=
  match cell tr_elements 3, cell tr_elements 4, cell tr_elements 5 with
  | Some _, Some _, Some c5 =>
      match find_desc "a" c5 with
      | Some a =>
          match get_attr "href" a, cell tr_elements 6 with
          | None, _ => Raise key_error_href
          | Some _, None => Raise index_error
          | Some h, Some _ => Ok (information_of tr_elements (Some h))
          end
      | None =>
          match cell tr_elements 6 with
          | None => Raise index_error
          | Some _ => Ok (information_of tr_elements None)
          end
      end
  | _, _, _ => Raise index_error
  end.

(** ** A details page for the examples *)

Module DetailFixture.

Definition row (label : string) (value : list node) : node :=
  Element "tr" [] [Element "td" [] [Text label]; Element "td" [] value].

Definition rows (additional : list node) : list node :=
  [row "CVE ID" [Text "CVE-2024-0001"];
   row "CVSS SCORE" [Text "8.8"];
   row "AFFECTED VENDORS" [Text "Acme"];
   row "AFFECTED PRODUCTS" [Text " Router "];
   row "VULNERABILITY DETAILS" [Text "A stack overflow in the web server."];
   row "ADDITIONAL DETAILS" additional;
   row "DISCLOSURE TIMELINE" [Text "2024-05-10 - Advisory released"]].

Definition detail (rs : list node) : node :=
  Element "html" []
    [Element "body" []
       [Element "section" [("class", "blueBg")]
          [Element "div" [("class", "contentBlock advisories-details")]
             [Element "table" [("style", "max-width: 100%;")] rs]]]].

Definition fixed : list node :=
  [Text "Fixed in "; Element "a" [("href", "https://acme.example/fix")]
                       [Text "release 2"]].

(** An anchor that is a target, not a link. *)
Definition anchored : list node :=
  [Element "a" [("name", "top")] []; Text "No fix yet"].

Definition info : AdvisoryInformation :=
  {| AFFECTED_PRODUCTS := "Router";
     VULNERABILITY_DETAILS := "A stack overflow in the web server.";
     ADDITIONAL_DETAILS := "Fixed in release 2";
     ADDITIONAL_DETAILS_LINKS := Some "https://acme.example/fix";
     DISCLOSURE_TIMELINE := "2024-05-10 - Advisory released" |}.

(** The site answers every request with the details page of [rs]. *)
Definition env (rs : list node) : Env :=
  Fixture.env_with (Fixture.flaky 0 Fixture.ok_response) (λ _, None)
    (λ _, Some (detail rs)).

End DetailFixture.

(** ** What the expressions select *)

Lemma detail_rows_compiles tree : detail_rows tree = detail_rows_compiled tree.
Proof.
  unfold detail_rows, detail_rows_compiled.
  destruct (deref tree) as [t|e]; [|done]. by navigate.
Qed.

Lemma second_cell_compiles tr_elements i :
  second_cell tr_elements i = second_cell_compiled tr_elements i.
Proof. unfold second_cell, second_cell_compiled. by navigate. Qed.

Lemma additional_details_hrefs_compiles td :
  additional_details_hrefs td = additional_details_hrefs_compiled td.
Proof.
  unfold additional_details_hrefs, additional_details_hrefs_compiled.
  by compile_paths.
Qed.

(** ** The extraction implements its specification *)

Lemma second_cell_cell tr_elements i :
  second_cell tr_elements i =
    match cell tr_elements i with
    | Some c => Ok c
    | None => Raise index_error
    end.
Proof.
  rewrite second_cell_compiles.
  unfold second_cell_compiled, cell, getitem.
  destruct (tr_elements !! i); [|done].
  cbn. by destruct (_ !! 1).
Qed.

Lemma advisory_information_spec tr_elements :
  advisory_information tr_elements = information_spec tr_elements.
Proof.
  unfold advisory_information, information_spec, information_of,
    cell_text_at.
  rewrite !second_cell_cell.
  destruct (cell tr_elements 3); [|done].
  destruct (cell tr_elements 4); [|done].
  destruct (cell tr_elements 5) as [c5|]; [|done].
  rewrite !res_bind_ok, additional_details_hrefs_compiles.
  unfold additional_details_hrefs_compiled, attrib_getitem. cbn.
  destruct (find_desc "a" c5) as [a|]; cbn.
  - destruct (get_attr "href" a); [|done]. cbn.
    by destruct (cell tr_elements 6).
  - by destruct (cell tr_elements 6).
Qed.

Lemma cell_None tr_elements i : length tr_elements ≤ i → cell tr_elements i = None.
Proof. intros H. unfold cell. by rewrite lookup_ge_None_2. Qed.

Section run.
Context (env : Env) (w w1 : World) (advisory_link : string).

Lemma retrieve_advisory_info_run tree :
  makerequest_default advisory_link env
      (advance w [EvLog INFO "starting retrieve_advisory_info"] 0)
    = (Ok tree, w1) →
  retrieve_advisory_info advisory_link env w =
    ((rows ← detail_rows tree; information_spec rows), w1).
Proof.
  intros Hfetch. unfold retrieve_advisory_info. mrun. rewrite Hfetch. mrun.
  destruct (detail_rows tree) as [rows|e]; [|done]. mrun.
  by rewrite advisory_information_spec.
Qed.

End run.

Lemma closed_retrieve_advisory_info R `{!Primitives R} advisory_link :
  closed R (retrieve_advisory_info advisory_link).
Proof. unfold retrieve_advisory_info, makerequest_default. solve_closed. Qed.

#[export] Hint Resolve closed_retrieve_advisory_info : py.

(** The state that [retrieve_advisory_info] leaves is the state that the
    fetch of the page leaves after the first log record. *)
Lemma retrieve_advisory_info_state advisory_link env w :
  (retrieve_advisory_info advisory_link env w).2 =
    (makerequest_default advisory_link env
       (advance w [EvLog INFO "starting retrieve_advisory_info"] 0)).2.
Proof.
  unfold retrieve_advisory_info. mrun.
  destruct (makerequest_default _ _ _) as [[tree|e] w1]; [|done].
  mrun. destruct (detail_rows tree) as [rows|e]; [|done]. mrun.
  by destruct (advisory_information rows).
Qed.

Lemma retrieve_advisory_info_spends advisory_link env w :
  spends 3 0 (130 * US_PER_SECOND) w
    (retrieve_advisory_info advisory_link env w).2.
Proof.
  rewrite retrieve_advisory_info_state.
  apply (spends_trans 0 0 0 3 0 (130 * US_PER_SECOND) _ _ _
           (spends_advance w [EvLog INFO "starting retrieve_advisory_info"] 0)),
    makerequest_default_spends.
Qed.

(** ** The theorems *)

(** C10 (functional). When rows 3 to 6 of the details table have a second
    cell and the first anchor of cell 5, if any, has an [href], the
    extraction returns the stripped texts of these cells and that [href]. *)
Theorem advisory_information_ok tr_elements c3 c4 c5 c6 link :
  cell tr_elements 3 = Some c3 → cell tr_elements 4 = Some c4 →
  cell tr_elements 5 = Some c5 → cell tr_elements 6 = Some c6 →
  additional_details_hrefs c5 = Ok link →
  advisory_information tr_elements =
    Ok {| AFFECTED_PRODUCTS := strip (text_content c3);
          VULNERABILITY_DETAILS := strip (text_content c4);
          ADDITIONAL_DETAILS := strip (text_content c5);
          ADDITIONAL_DETAILS_LINKS := link;
          DISCLOSURE_TIMELINE := strip (text_content c6) |}.
Proof.
  intros H3 H4 H5 H6 Hlink. unfold advisory_information.
  rewrite !second_cell_cell, H3, H4, H5, H6. cbn. by rewrite Hlink.
Qed.

(** C30 (error). The extraction raises nothing but [IndexError], for a
    missing row or cell, and [KeyError], for an anchor without [href]. *)
Theorem advisory_information_raises tr_elements e :
  advisory_information tr_elements = Raise e →
  e = index_error ∨ e = key_error_href.
Proof.
  rewrite advisory_information_spec. unfold information_spec.
  repeat case_match; intros [= <-]; auto.
Qed.

(** A details table with fewer than seven rows yields no
    record. *)
Theorem advisory_information_short tr_elements :
  length tr_elements < 7 → is_ok (advisory_information tr_elements) = false.
Proof.
  intros Hlen. rewrite advisory_information_spec. unfold information_spec.
  rewrite (cell_None tr_elements 6) by lia. by repeat case_match.
Qed.

(** C31 (error). When the first anchor of the additional-details cell has no
    [href], the extraction raises [KeyError], whatever the rest of the table
    holds. *)
Theorem anchor_without_href tr_elements c3 c4 c5 a :
  cell tr_elements 3 = Some c3 → cell tr_elements 4 = Some c4 →
  cell tr_elements 5 = Some c5 →
  find_desc "a" c5 = Some a → get_attr "href" a = None →
  advisory_information tr_elements = Raise key_error_href.
Proof.
  intros H3 H4 H5 Ha Hhref. rewrite advisory_information_spec.
  unfold information_spec. by rewrite H3, H4, H5, Ha, Hhref.
Qed.

(** [retrieve_advisory_info] logs its start, fetches the
    page and returns the extraction; after the log record, it has no effect
    besides those of the fetch. *)
Theorem retrieve_advisory_info_ok env w advisory_link tree w1 tr_elements :
  makerequest_default advisory_link env
      (advance w [EvLog INFO "starting retrieve_advisory_info"] 0)
    = (Ok (Some tree), w1) →
  detail_rows (Some tree) = Ok tr_elements →
  retrieve_advisory_info advisory_link env w =
    (advisory_information tr_elements, w1).
Proof.
  intros Hfetch Hrows.
  rewrite (retrieve_advisory_info_run _ _ _ _ _ Hfetch), Hrows.
  by rewrite advisory_information_spec.
Qed.

(** When the fetch of the details page fails,
    [retrieve_advisory_info] raises [AttributeError]. *)
Theorem retrieve_advisory_info_fetch_failed env w advisory_link w1 :
  makerequest_default advisory_link env
      (advance w [EvLog INFO "starting retrieve_advisory_info"] 0)
    = (Ok None, w1) →
  retrieve_advisory_info advisory_link env w = (Raise none_has_no_xpath, w1).
Proof.
  intros Hfetch. by rewrite (retrieve_advisory_info_run _ _ _ _ _ Hfetch).
Qed.

(** C11 (equivalence). The navigation of the two pages, written with the
    text of the twelve expressions of the program and evaluated as XPath
    defines it, is the navigation with the queries of [Html] that the texts
    read as: the rows of the listing, the cells of a row, the link of the
    last cell, the rows of a details page, the second cell of a row and
    the link of a cell are the same on every tree, errors included. *)
Theorem navigation_by_text tree row cells trs i td :
  (listing_rows tree = listing_rows_compiled tree
   ∧ row_columns row = Ok (row_cells row)
   ∧ row_link cells = row_link_compiled cells)
  ∧ (detail_rows tree = detail_rows_compiled tree
     ∧ second_cell trs i = second_cell_compiled trs i
     ∧ additional_details_hrefs td = additional_details_hrefs_compiled td).
Proof.
  split_and!.
  - apply listing_rows_compiles.
  - apply row_columns_cells.
  - apply row_link_compiles.
  - apply detail_rows_compiles.
  - apply second_cell_compiles.
  - apply additional_details_hrefs_compiles.
Qed.

(** ** Examples *)

Import DetailFixture.

Lemma advisory_information_ok_witness :
  advisory_information (rows fixed) = Ok info.
Proof.
  exact (advisory_information_ok (rows fixed) _ _ _ _ _
           eq_refl eq_refl eq_refl eq_refl eq_refl).
Defined.

Lemma advisory_information_raises_witness :
  advisory_information (rows anchored) = Raise key_error_href.
Proof.
  destruct (advisory_information (rows anchored)) as [i|e] eqn:E; [done|].
  destruct (advisory_information_raises (rows anchored) e E) as [->| ->];
    [done|reflexivity].
Defined.

Lemma advisory_information_short_witness :
  is_ok (advisory_information (take 6 (rows fixed))) = false.
Proof. apply advisory_information_short. cbn. lia. Defined.

Lemma anchor_without_href_witness :
  advisory_information (rows anchored) = Raise key_error_href.
Proof.
  exact (anchor_without_href (rows anchored) _ _ _ _
           eq_refl eq_refl eq_refl eq_refl eq_refl).
Defined.

Lemma retrieve_advisory_info_ok_witness :
  retrieve_advisory_info "https://zdi/advisories/ZDI-24-401/" (env (rows fixed))
      Fixture.w0 =
    (Ok info,
     advance Fixture.w0
       [EvLog INFO "starting retrieve_advisory_info";
        EvGet "https://zdi/advisories/ZDI-24-401/" headers;
        EvLog INFO "Requesting https://zdi/advisories/ZDI-24-401/"] 0).
Proof.
  exact (retrieve_advisory_info_ok (env (rows fixed)) Fixture.w0
           "https://zdi/advisories/ZDI-24-401/" (detail (rows fixed)) _
           (rows fixed) eq_refl eq_refl).
Defined.

Lemma retrieve_advisory_info_fetch_failed_witness :
  let env := Fixture.env_of (Fixture.flaky 0 Fixture.not_found) (λ _, None) in
  retrieve_advisory_info "https://zdi/x" env Fixture.w0 =
    (Raise none_has_no_xpath,
     advance Fixture.w0
       [EvLog INFO "starting retrieve_advisory_info";
        EvGet "https://zdi/x" headers; EvLog INFO "Requesting https://zdi/x";
        EvLog INFO "Failed to make GET request"; EvLog INFO "not found";
        EvLog INFO "404"] 0).
Proof.
  intros env.
  exact (retrieve_advisory_info_fetch_failed env Fixture.w0 "https://zdi/x" _
           eq_refl).
Defined.

(** The expressions of the program are written the way [print] writes
    them. *)
Example expressions_canonical :
  Forall (λ text, read text ≫= print = Some text) expressions.
Proof. repeat constructor. Qed.

(** A text that is not an expression. *)
Example xpath_invalid :
  xpath ".//td[" Fixture.page = Raise invalid_expression.
Proof. vm_compute. reflexivity. Qed.
