(* ===== verification/Json.v ===== *)
(** * Json: [json.dumps] on the values the program serialises

    The program passes [json.dumps(message_blocks)] to Slack (lines 177 and
    199). The blocks are lists and dictionaries of strings, and [None] for
    an image URL that is not configured. [dumps] is the encoder with its
    default settings: the separators [", "] and [": "], and
    [ensure_ascii=True], which writes every character outside the printable
    ASCII range as an escape. *)

From S2P Require Import Prelude PyStr.

(** ** Values *)

#[warnings="-register-all"]
Inductive json : Type :=
  | JNull
  | JString (s : string)
  | JArray (items : list json)
  | JObject (members : list (string * json)).

(** ** The encoder *)

Definition hex_digit (n : nat) : ascii :=
  ascii_of_nat (if n <? 10 then 48 + n else 87 + n).

(** [\uXXXX] for a character below 256. *)
Definition u_escape (c : ascii) : string :=
  let n := nat_of_ascii c in
  "\u00" +:+ String (hex_digit (n / 16)) (String (hex_digit (n mod 16)) "").

(** One character of a string, as [ESCAPE_ASCII] and [ESCAPE_DCT] of the
    encoder write it. *)
Definition escape_char (c : ascii) : string :=
  let n := nat_of_ascii c in
  if n =? 34 then "\" +:+ String c ""          (* the quote *)
  else if n =? 92 then "\\"                     (* the backslash *)
  else if n =? 10 then "\n"
  else if n =? 13 then "\r"
  else if n =? 9 then "\t"
  else if n =? 8 then "\b"
  else if n =? 12 then "\f"
  else if (32 <=? n) && (n <=? 126) then String c ""
  else u_escape c.

Fixpoint escape (s : string) : string :=
  match s with
  | EmptyString => ""
  | String c s' => escape_char c +:+ escape s'
  end.

Definition quote_char : ascii := ascii_of_nat 34.

(** [encode_basestring_ascii]. *)
Definition encode_string (s : string) : string :=
  String quote_char (escape s +:+ String quote_char "").

(** [sep.join(l)]. *)
Fixpoint join (sep : string) (l : list string) : string :=
  match l with
  | [] => ""
  | [x] => x
  | x :: l' => x +:+ sep +:+ join sep l'
  end.

(** [json.dumps(j)]. *)
Fixpoint dumps (j : json) : string :=
  match j with
  | JNull => "null"
  | JString s => encode_string s
  | JArray items => "[" +:+ join ", " (map dumps items) +:+ "]"
  | JObject members =>
      "{" +:+ join ", " (map (λ kv, encode_string kv.1 +:+ ": " +:+ dumps kv.2)
                           members) +:+ "}"
  end.

(** ** Printable output *)

Definition printable (c : ascii) : bool :=
  let n := nat_of_ascii c in (32 <=? n) && (n <=? 126).

(** The characters are the code points below 256. *)
Definition all_chars : list ascii := ascii_of_nat <$> seq 0 256.

(** The characters with their escapes. *)
Definition escapes : list (ascii * string) :=
  (λ c, (c, escape_char c)) <$> all_chars.

(** No escape of a character starts the escape of another one. *)
Definition prefix_free : bool :=
  forallb (λ e1, forallb (λ e2,
    bool_decide (e1.1 = e2.1) || negb (startswith e1.2 e2.2)) escapes)
    escapes.

(** Induction with the hypothesis on every item and member. *)
Section json_ind.
Context (P : json → Prop).
Context (Hnull : P JNull) (Hstring : ∀ s, P (JString s)).
Context (Harray : ∀ items, Forall P items → P (JArray items)).
Context (Hobject : ∀ members, Forall (λ kv, P kv.2) members →
                   P (JObject members)).

Fixpoint json_ind' (j : json) : P j :=
  match j with
  | JNull => Hnull
  | JString s => Hstring s
  | JArray items =>
      Harray items
        ((fix go (l : list json) : Forall P l :=
            match l with
            | [] => @List.Forall_nil json P
            | x :: l' => @List.Forall_cons json P x l' (json_ind' x) (go l')
            end) items)
  | JObject members =>
      Hobject members
        ((fix go (l : list (string * json)) : Forall (λ kv, P kv.2) l :=
            match l with
            | [] => @List.Forall_nil _ (λ kv, P kv.2)
            | x :: l' =>
                @List.Forall_cons _ (λ kv, P kv.2) x l' (json_ind' x.2) (go l')
            end) members)
  end.
End json_ind.

(** ** Lemmas *)

Lemma elem_of_all_chars c : c ∈ all_chars.
Proof.
  unfold all_chars. apply list_elem_of_fmap. exists (nat_of_ascii c).
  split; [by rewrite Ascii.ascii_nat_embedding|].
  apply elem_of_seq. pose proof (Ascii.nat_ascii_bounded c). lia.
Qed.

Lemma all_chars_forall (p : ascii → bool) c :
  forallb p all_chars = true → p c = true.
Proof.
  rewrite forallb_forall. intros H. apply H, list_elem_of_In, elem_of_all_chars.
Qed.

Lemma escape_char_printable c : str_forall printable (escape_char c) = true.
Proof.
  apply (all_chars_forall (λ x, str_forall printable (escape_char x))).
  vm_compute. reflexivity.
Qed.

Lemma escape_printable s : str_forall printable (escape s) = true.
Proof.
  induction s as [|c s IH]; [done|]. cbn [escape].
  by rewrite str_forall_app, escape_char_printable, IH.
Qed.

Lemma encode_string_printable s :
  str_forall printable (encode_string s) = true.
Proof.
  unfold encode_string. cbn [str_forall].
  by rewrite str_forall_app, escape_printable.
Qed.

Lemma join_printable sep l :
  str_forall printable sep = true →
  Forall (λ s, str_forall printable s = true) l →
  str_forall printable (join sep l) = true.
Proof.
  intros Hsep. induction 1 as [|x l Hx Hl IH]; [done|]. cbn [join].
  destruct l as [|y l]; [done|]. by rewrite !str_forall_app, Hx, Hsep, IH.
Qed.

Lemma In_escapes c : In (c, escape_char c) escapes.
Proof.
  apply list_elem_of_In, list_elem_of_fmap. eauto using elem_of_all_chars.
Qed.

Lemma prefix_free_spec c1 c2 :
  startswith (escape_char c1) (escape_char c2) = true → c1 = c2.
Proof.
  intros Hpre. assert (prefix_free = true) as H by (vm_compute; reflexivity).
  unfold prefix_free in H. rewrite forallb_forall in H.
  specialize (H _ (In_escapes c1)). rewrite forallb_forall in H.
  specialize (H _ (In_escapes c2)). cbn [fst snd] in H.
  rewrite Hpre, orb_false_r in H. by apply bool_decide_eq_true in H.
Qed.

(** Of two strings that start the same text, one starts the other. *)
Lemma startswith_comparable p q s t :
  p +:+ s = q +:+ t → startswith p q = true ∨ startswith q p = true.
Proof.
  revert q. induction p as [|a p IH]; intros q; [by left|].
  destruct q as [|b q]; [by right|].
  rewrite !str_app_cons. intros [= -> Hrest]. cbn [startswith].
  rewrite bool_decide_eq_true_2 by done. by apply IH.
Qed.

Lemma str_app_inv_head p s t : p +:+ s = p +:+ t → s = t.
Proof.
  induction p as [|a p IH]; [done|]. rewrite !str_app_cons.
  intros [= ?]. by apply IH.
Qed.

Lemma escape_char_nonempty c : escape_char c ≠ "".
Proof.
  intros H.
  assert (match escape_char c with "" => false | _ => true end = true) as Hc.
  { apply (all_chars_forall
             (λ x, match escape_char x with "" => false | _ => true end)).
    vm_compute. reflexivity. }
  by rewrite H in Hc.
Qed.

Lemma escape_inj s t : escape s = escape t → s = t.
Proof.
  revert t. induction s as [|c s IH]; intros [|d t]; cbn [escape].
  - done.
  - intros H. symmetry in H. destruct (escape_char d) eqn:E;
      [by apply escape_char_nonempty in E|done].
  - intros H. destruct (escape_char c) eqn:E;
      [by apply escape_char_nonempty in E|done].
  - intros H.
    assert (c = d) as <-.
    { destruct (startswith_comparable _ _ _ _ H) as [?|?];
        [|symmetry]; by apply prefix_free_spec. }
    f_equal. by apply IH, (str_app_inv_head (escape_char c)).
Qed.

(** ** The theorems *)

(** The text that [dumps] writes holds printable ASCII
    characters only, whatever the strings of the value hold. *)
Theorem dumps_printable j : str_forall printable (dumps j) = true.
Proof.
  induction j as [|s|items IH|members IH] using json_ind'; cbn [dumps].
  - done.
  - apply encode_string_printable.
  - rewrite !str_app_cons, str_app_nil_l. cbn [str_forall].
    rewrite str_forall_app, join_printable; [done..|].
    by apply Forall_fmap.
  - rewrite !str_app_cons, str_app_nil_l. cbn [str_forall].
    rewrite str_forall_app, join_printable; [done..|].
    apply Forall_fmap. eapply Forall_impl; [done|]. intros [k v] Hv. cbn in *.
    by rewrite !str_forall_app, encode_string_printable, Hv.
Qed.

(** The encoding of strings loses nothing: two strings
    with the same encoding are the same string. *)
Theorem encode_string_inj s t : encode_string s = encode_string t → s = t.
Proof.
  unfold encode_string. intros [= H]. apply escape_inj.
  revert H. generalize (escape s) (escape t). intros a.
  induction a as [|x a IH]; intros [|y b]; rewrite ?str_app_cons,
    ?str_app_nil_l; try done.
  - intros [= _ H]. by destruct b.
  - intros [= _ H]. by destruct a.
  - intros [= -> H]. f_equal. by apply IH.
Qed.

(** ** Examples *)

Lemma encode_string_inj_witness : "a" +:+ "b" = "ab".
Proof. apply encode_string_inj. reflexivity. Defined.
