(* ===== verification/Loads.v ===== *)
(** * Loads: reading back what [json.dumps] writes

    Slack receives the blocks of a message as the text that [json.dumps]
    wrote (lines 177 and 199) and reads it as JSON. [loads] is a reader of
    JSON texts on the values of [Json.json]: white space between the
    tokens, [null], strings with their escapes, arrays and objects.
    [loads_dumps] proves that it reads back every value from the text that
    [dumps] writes for it, so the text determines the blocks. *)

From S2P Require Import Prelude PyStr Json.

(** ** The reader *)

Definition is_ws (c : ascii) : bool :=
  is_char 32 c || is_char 9 c || is_char 10 c || is_char 13 c.

Fixpoint skip_ws (s : string) : string :=
  match s with
  | String c rest => if is_ws c then skip_ws rest else s
  | EmptyString => ""
  end.

(** The value of a hexadecimal digit. *)
Definition hex_value (c : ascii) : option nat :=
  let n := nat_of_ascii c in
  if (48 <=? n) && (n <=? 57) then Some (n - 48)
  else if (97 <=? n) && (n <=? 102) then Some (n - 87)
  else if (65 <=? n) && (n <=? 70) then Some (n - 55)
  else None.

(** The character that the escape [\e] stands for. *)
Definition unescape (e : ascii) : option ascii :=
  if is_char 34 e then Some e
  else if is_char 92 e then Some e
  else if is_char 47 e then Some e
  else if is_char 110 e then Some (ascii_of_nat 10)
  else if is_char 114 e then Some (ascii_of_nat 13)
  else if is_char 116 e then Some (ascii_of_nat 9)
  else if is_char 98 e then Some (ascii_of_nat 8)
  else if is_char 102 e then Some (ascii_of_nat 12)
  else None.

(** The character of [\uXXXX], when it is below 256. *)
Definition u_value (a b c d : ascii) : option ascii :=
  ha ← hex_value a; hb ← hex_value b; hc ← hex_value c; hd ← hex_value d;
  let n := ((ha * 16 + hb) * 16 + hc) * 16 + hd in
  if n <? 256 then Some (ascii_of_nat n) else None.

Definition push (c : ascii) (r : option (string * string))
    : option (string * string) :=
  match r with Some (s, rest) => Some (String c s, rest) | None => None end.

(** The text of a string after its opening quote: the characters up to the
    closing quote, and what follows it. A control character must be
    escaped. *)
Fixpoint scan_string (s : string) : option (string * string) :=
  match s with
  | EmptyString => None
  | String c rest =>
      if is_char 34 c then Some ("", rest)
      else if is_char 92 c then
        match rest with
        | String e rest' =>
            if is_char 117 e then
              match rest' with
              | String a (String b (String x (String d rest'')))  =>
                  match u_value a b x d with
                  | Some ch => push ch (scan_string rest'')
                  | None => None
                  end
              | _ => None
              end
            else
              match unescape e with
              | Some ch => push ch (scan_string rest')
              | None => None
              end
        | EmptyString => None
        end
      else if nat_of_ascii c <? 32 then None
      else push c (scan_string rest)
  end.

(** [s] without the prefix [p]. *)
Fixpoint after (p s : string) : option string :=
  match p, s with
  | EmptyString, _ => Some s
  | String a p', String b s' => if decide (a = b) then after p' s' else None
  | _, _ => None
  end.

(** After an item [x] of an array or of an object: a comma and the other
    items, read by [again], or the closing character. *)
Definition more {A} (close : nat) (again : string → option (list A * string))
    (x : A) (s : string) : option (list A * string) :=
  match skip_ws s with
  | EmptyString => None
  | String c rest =>
      if is_char 44 c then '(l, r) ← again rest; Some (x :: l, r)
      else if is_char close c then Some ([x], rest)
      else None
  end.

(** A value at the front of [s], and what follows it; [fuel] bounds the
    depth and the number of the values read. *)
Fixpoint parse_value (fuel : nat) (s : string) : option (json * string) :=
  match fuel with
  | 0 => None
  | S fuel =>
      match skip_ws s with
      | EmptyString => None
      | String c rest =>
          if is_char 110 c then
            rest' ← after "ull" rest; Some (JNull, rest')
          else if is_char 34 c then
            '(str, rest') ← scan_string rest; Some (JString str, rest')
          else if is_char 91 c then
            match skip_ws rest with
            | EmptyString => None
            | String c' rest' =>
                if is_char 93 c' then Some (JArray [], rest')
                else '(l, r) ← parse_items fuel rest; Some (JArray l, r)
            end
          else if is_char 123 c then
            match skip_ws rest with
            | EmptyString => None
            | String c' rest' =>
                if is_char 125 c' then Some (JObject [], rest')
                else '(l, r) ← parse_members fuel rest; Some (JObject l, r)
            end
          else None
      end
  end
with parse_items (fuel : nat) (s : string) : option (list json * string) :=
  match fuel with
  | 0 => None
  | S fuel =>
      '(v, rest) ← parse_value fuel s; more 93 (parse_items fuel) v rest
  end
with parse_members (fuel : nat) (s : string)
    : option (list (string * json) * string) :=
  match fuel with
  | 0 => None
  | S fuel =>
      match skip_ws s with
      | EmptyString => None
      | String q rest =>
          if is_char 34 q then
            '(k, rest) ← scan_string rest;
            match skip_ws rest with
            | EmptyString => None
            | String c rest =>
                if is_char 58 c then
                  '(v, rest) ← parse_value fuel rest;
                  more 125 (parse_members fuel) (k, v) rest
                else None
            end
          else None
      end
  end.

(** [json.loads(s)] on the texts of the model; the length of the text is
    fuel enough ([loads_dumps]). *)
Definition loads (s : string) : option json :=
  match parse_value (String.length s) s with
  | Some (v, rest) => if decide (skip_ws rest = "") then Some v else None
  | None => None
  end.

(** ** The size of a value *)

Fixpoint json_size (j : json) : nat :=
  match j with
  | JNull | JString _ => 1
  | JArray items => S (foldr (λ x n, S (json_size x + n)) 0 items)
  | JObject members => S (foldr (λ kv n, S (json_size kv.2 + n)) 0 members)
  end.

(** ** Definitions for the proofs *)

(** The characters that start a value in the output of [dumps]. *)
Definition opener (c : ascii) : bool :=
  is_char 110 c || is_char 34 c || is_char 91 c || is_char 123 c.

(** The reader reads [v] back from the front of every text that starts
    with [dumps v], with fuel from the size of [v] on. *)
Definition reads (v : json) : Prop :=
  ∀ fuel rest, json_size v ≤ fuel →
    parse_value fuel (dumps v +:+ rest) = Some (v, rest).

(** The text of a member of an object. *)
Definition member (kv : string * json) : string :=
  encode_string kv.1 +:+ ": " +:+ dumps kv.2.

(** ** Strings *)

Lemma scan_string_escape_char c rest :
  scan_string (escape_char c +:+ rest) = push c (scan_string rest).
Proof.
  destruct c as [[] [] [] [] [] [] [] []]; reflexivity.
Qed.

Lemma scan_string_escape s rest :
  scan_string (escape s +:+ String quote_char rest) = Some (s, rest).
Proof.
  induction s as [|c s IH]; [done|]. cbn [escape].
  by rewrite str_app_assoc, scan_string_escape_char, IH.
Qed.

Lemma scan_string_encode s rest :
  ∃ t, encode_string s +:+ rest = String quote_char t
       ∧ scan_string t = Some (s, rest).
Proof.
  exists (escape s +:+ String quote_char rest). split.
  - unfold encode_string. by rewrite str_app_cons, str_app_assoc.
  - apply scan_string_escape.
Qed.

(** ** The first character of a value *)

Lemma dumps_opener v rest :
  ∃ c t, dumps v +:+ rest = String c t ∧ opener c = true.
Proof.
  destruct v; cbn [dumps]; unfold encode_string;
    rewrite ?str_app_assoc, ?str_app_cons; by eexists _, _.
Qed.

Lemma skip_ws_opener c t : opener c = true → skip_ws (String c t) = String c t.
Proof.
  destruct c as [[] [] [] [] [] [] [] []]; try discriminate; reflexivity.
Qed.

Lemma opener_not_closer c :
  opener c = true → is_char 93 c = false ∧ is_char 125 c = false.
Proof. destruct c as [[] [] [] [] [] [] [] []]; try discriminate; by split. Qed.

(** ** Unfolding the reader *)

Lemma parse_value_ws fuel s :
  parse_value fuel (String (ascii_of_nat 32) s) = parse_value fuel s.
Proof. by destruct fuel. Qed.

Lemma parse_value_string fuel t :
  parse_value (S fuel) (String quote_char t) =
    '(str, rest) ← scan_string t; Some (JString str, rest).
Proof. done. Qed.

Lemma parse_value_array fuel c t :
  opener c = true →
  parse_value (S fuel) (String (ascii_of_nat 91) (String c t)) =
    '(l, r) ← parse_items fuel (String c t); Some (JArray l, r).
Proof.
  intros Hc.
  change (parse_value (S fuel) (String (ascii_of_nat 91) (String c t)))
    with (match skip_ws (String c t) with
          | EmptyString => None
          | String c' rest' =>
              if is_char 93 c' then Some (JArray [], rest')
              else '(l, r) ← parse_items fuel (String c t); Some (JArray l, r)
          end).
  rewrite skip_ws_opener by done. by destruct (opener_not_closer c Hc) as [-> _].
Qed.

Lemma parse_value_object fuel c t :
  opener c = true →
  parse_value (S fuel) (String (ascii_of_nat 123) (String c t)) =
    '(l, r) ← parse_members fuel (String c t); Some (JObject l, r).
Proof.
  intros Hc.
  change (parse_value (S fuel) (String (ascii_of_nat 123) (String c t)))
    with (match skip_ws (String c t) with
          | EmptyString => None
          | String c' rest' =>
              if is_char 125 c' then Some (JObject [], rest')
              else '(l, r) ← parse_members fuel (String c t);
                   Some (JObject l, r)
          end).
  rewrite skip_ws_opener by done. by destruct (opener_not_closer c Hc) as [_ ->].
Qed.

Lemma parse_items_S fuel s :
  parse_items (S fuel) s =
    '(v, rest) ← parse_value fuel s; more 93 (parse_items fuel) v rest.
Proof. done. Qed.

Lemma parse_items_ws fuel s :
  parse_items fuel (String (ascii_of_nat 32) s) = parse_items fuel s.
Proof. destruct fuel; [done|]. by rewrite !parse_items_S, parse_value_ws. Qed.

Lemma parse_members_ws fuel s :
  parse_members fuel (String (ascii_of_nat 32) s) = parse_members fuel s.
Proof. by destruct fuel. Qed.

Lemma parse_members_S fuel t :
  parse_members (S fuel) (String quote_char t) =
    '(k, rest) ← scan_string t;
    match skip_ws rest with
    | EmptyString => None
    | String c rest =>
        if is_char 58 c then
          '(v, rest) ← parse_value fuel rest;
          more 125 (parse_members fuel) (k, v) rest
        else None
    end.
Proof. done. Qed.

(** ** After an item *)

Section more.
Context {A : Type} (again : string → option (list A * string)) (x : A).

Lemma more_close_array rest :
  more 93 again x ("]" +:+ rest) = Some ([x], rest).
Proof. done. Qed.

Lemma more_close_object rest :
  more 125 again x ("}" +:+ rest) = Some ([x], rest).
Proof. done. Qed.

Lemma more_comma close t :
  more close again x (", " +:+ t) =
    '(l, r) ← again (String (ascii_of_nat 32) t); Some (x :: l, r).
Proof. done. Qed.

End more.

(** ** The round trip *)

Lemma join_cons_cons sep x y l :
  join sep (x :: y :: l) = x +:+ sep +:+ join sep (y :: l).
Proof. done. Qed.

Lemma join_head sep x l rest :
  ∃ t, join sep (x :: l) +:+ rest = x +:+ t.
Proof.
  destruct l as [|y l]; [by eexists|].
  rewrite join_cons_cons, !str_app_assoc. by eexists.
Qed.

Lemma parse_items_dumps items :
  Forall reads items → items ≠ [] → ∀ fuel rest,
  foldr (λ x n, S (json_size x + n)) 0 items ≤ fuel →
  parse_items fuel (join ", " (map dumps items) +:+ "]" +:+ rest) =
    Some (items, rest).
Proof.
  induction 1 as [|x l Hx Hl IH]; [done|]. intros _ fuel rest Hfuel.
  destruct fuel as [|fuel]; [cbn in Hfuel; lia|]. cbn [foldr] in Hfuel.
  rewrite parse_items_S. destruct l as [|y l'].
  - cbn [map join]. by rewrite Hx by lia.
  - change (map dumps (x :: y :: l')) with (dumps x :: dumps y :: map dumps l').
    rewrite join_cons_cons, !str_app_assoc, Hx by lia.
    change (dumps y :: map dumps l') with (map dumps (y :: l')).
    cbn [mbind option_bind]. rewrite more_comma, parse_items_ws.
    by rewrite IH by (done || lia).
Qed.

Lemma parse_members_member fuel k v t :
  reads v → json_size v ≤ fuel →
  parse_members (S fuel) (member (k, v) +:+ t) =
    more 125 (parse_members fuel) (k, v) t.
Proof.
  intros Hv Hfuel. unfold member. cbn [fst snd]. rewrite !str_app_assoc.
  destruct (scan_string_encode k (": " +:+ dumps v +:+ t))
    as (body & -> & Hbody).
  rewrite parse_members_S, Hbody.
  change (('(v0, rest0) ← parse_value fuel
                            (String (ascii_of_nat 32) (dumps v +:+ t));
           more 125 (parse_members fuel) (k, v0) rest0) =
          more 125 (parse_members fuel) (k, v) t).
  by rewrite parse_value_ws, (Hv fuel t) by lia.
Qed.

Lemma parse_members_dumps members :
  Forall (λ kv, reads kv.2) members → members ≠ [] → ∀ fuel rest,
  foldr (λ kv n, S (json_size kv.2 + n)) 0 members ≤ fuel →
  parse_members fuel (join ", " (map member members) +:+ "}" +:+ rest) =
    Some (members, rest).
Proof.
  induction 1 as [|[k v] l Hx Hl IH]; [done|]. intros _ fuel rest Hfuel.
  destruct fuel as [|fuel]; [cbn in Hfuel; lia|].
  cbn [foldr snd] in Hfuel, Hx. destruct l as [|y l'].
  - cbn [map join]. by rewrite parse_members_member by (done || lia).
  - change (map member ((k, v) :: y :: l'))
      with (member (k, v) :: member y :: map member l').
    rewrite join_cons_cons, !str_app_assoc.
    rewrite parse_members_member by (done || lia).
    change (member y :: map member l') with (map member (y :: l')).
    rewrite more_comma, parse_members_ws. by rewrite IH by (done || lia).
Qed.

Lemma reads_all v : reads v.
Proof.
  induction v as [|s|items IH|members IH] using json_ind';
    intros [|fuel] rest Hfuel; try (cbn in Hfuel; lia).
  - done.
  - cbn [dumps]. destruct (scan_string_encode s rest) as (t & -> & Ht).
    by rewrite parse_value_string, Ht.
  - destruct items as [|x l]; [done|]. cbn [dumps].
    rewrite !str_app_assoc, str_app_cons, str_app_nil_l.
    destruct (join_head ", " (dumps x) (map dumps l) ("]" +:+ rest))
      as [t Ht].
    destruct (dumps_opener x t) as (c & t' & Hc & Hopen).
    change (dumps x :: map dumps l) with (map dumps (x :: l)) in Ht.
    rewrite Ht, Hc, parse_value_array, <- Hc, <- Ht by done.
    rewrite parse_items_dumps; [done..|]. cbn in Hfuel. cbn. lia.
  - destruct members as [|[k v] l]; [done|]. cbn [dumps].
    rewrite !str_app_assoc, str_app_cons, str_app_nil_l.
    change (map (λ kv, encode_string kv.1 +:+ ": " +:+ dumps kv.2) ((k, v) :: l))
      with (map member ((k, v) :: l)).
    destruct (join_head ", " (member (k, v)) (map member l) ("}" +:+ rest))
      as [t Ht].
    change (member (k, v) :: map member l) with (map member ((k, v) :: l)) in Ht.
    assert (∃ t', member (k, v) +:+ t = String quote_char t') as [t' Hq].
    { unfold member, encode_string. cbn [fst].
      rewrite !str_app_assoc, str_app_cons. by eexists. }
    rewrite Ht, Hq, parse_value_object, <- Hq, <- Ht by done.
    rewrite parse_members_dumps; [done..|]. cbn in Hfuel. cbn. lia.
Qed.

(** ** The length of the text is fuel enough *)

Lemma items_size_length (f : json → string) (g : json → nat) items :
  Forall (λ x, g x < String.length (f x)) items →
  foldr (λ x n, S (g x + n)) 0 items ≤ String.length (join ", " (map f items)).
Proof.
  induction 1 as [|x l Hx Hl IH]; [done|]. destruct l as [|y l'].
  - cbn. lia.
  - change (map f (x :: y :: l')) with (f x :: f y :: map f l').
    rewrite join_cons_cons, !str_length_app. cbn [foldr] in *.
    change (f y :: map f l') with (map f (y :: l')). lia.
Qed.

Lemma members_size_length members :
  Forall (λ kv, json_size kv.2 < String.length (dumps kv.2)) members →
  foldr (λ kv n, S (json_size kv.2 + n)) 0 members
    ≤ String.length (join ", " (map member members)).
Proof.
  induction 1 as [|x l Hx Hl IH]; [done|].
  assert (json_size x.2 < String.length (member x)) as Hm.
  { unfold member. rewrite !str_length_app. lia. }
  destruct l as [|y l'].
  - cbn. lia.
  - change (map member (x :: y :: l'))
      with (member x :: member y :: map member l').
    rewrite join_cons_cons, !str_length_app. cbn [foldr] in *.
    change (member y :: map member l') with (map member (y :: l')). lia.
Qed.

Lemma json_size_length v : json_size v < String.length (dumps v).
Proof.
  induction v as [|s|items IH|members IH] using json_ind'; cbn [dumps json_size].
  - cbn. lia.
  - unfold encode_string. cbn [String.length]. rewrite str_length_app. cbn. lia.
  - apply (items_size_length dumps json_size) in IH.
    rewrite !str_length_app. cbn [String.length]. lia.
  - apply members_size_length in IH.
    rewrite !str_length_app. cbn [String.length]. unfold member in IH. lia.
Qed.

Lemma loads_dumps_all v : loads (dumps v) = Some v.
Proof.
  unfold loads. rewrite <- (str_app_nil_r (dumps v)) at 2.
  rewrite reads_all; [done|]. pose proof (json_size_length v). lia.
Qed.

(** ** The theorems *)


(** [json.dumps] writes different texts for different values. *)
Lemma dumps_inj v1 v2 : dumps v1 = dumps v2 → v1 = v2.
Proof.
  intros H. apply (f_equal loads) in H. rewrite !loads_dumps_all in H.
  congruence.
Qed.

(** ** Examples *)

(** White space between the tokens is skipped. *)
Example loads_spaces :
  loads "[ null,  [ ] ,null ]" = Some (JArray [JNull; JArray []; JNull]).
Proof. vm_compute. reflexivity. Qed.

(** A text that is cut short is refused. *)
Example loads_cut : loads "[null, " = None.
Proof. vm_compute. reflexivity. Qed.
