(* ===== verification/Slack.v ===== *)
(** * Slack: the messages and the notification of a quiet day
    (src/zerodaynewsletter.py, lines 117-181)

    [create_slack_message] and [create_slack_message_for_no_new_cves] build
    the summary text and the blocks of a message; the module variable
    [IMAGE_URL] that they read is their first argument here.
    [send_slack_message_for_no_new_zero_day] posts the second message with
    the client that it is given and handles [SlackApiError]. *)

From S2P Require Import Prelude PyStr Html DateTime World Runs Listing.
From S2P Require Import Detail Json.

(** ** The code *)

(** The line feed of [\n]. *)
Definition nl : string := String (ascii_of_nat 10) "".

(** Lines 120-144 and 150-168: a section with the text and the image, and
    a divider. *)
Definition blocks_of (IMAGE_URL : option string) (text : string) : json :=
  JArray
    [JObject
       [("type", JString "section");
        ("text", JObject [("type", JString "mrkdwn"); ("text", JString text)]);
        ("accessory",
         JObject [("type", JString "image");
                  ("image_url", from_option JString JNull IMAGE_URL);
                  ("alt_text", JString "CVE details")])];
     JObject [("type", JString "divider")]].

(** Line 118. *)
Definition text_summary_of (advisory : Advisory)
    (advisory_information : AdvisoryInformation) : string :=
  ":red_circle: CVE ID: " +:+ CVE_ID advisory +:+ " - "
  +:+ slice_to 75 (VULNERABILITY_DETAILS advisory_information) +:+ "...".

(** Lines 126-132. *)
Definition message_text (advisory : Advisory)
    (advisory_information : AdvisoryInformation) : string :=
  "*New Zero Day Vulnerability advisory :red_circle:*" +:+ nl +:+ nl
  +:+ "*CVE ID:* " +:+ CVE_ID advisory +:+ nl
  +:+ "*CVSS SCORE:* " +:+ CVSS advisory +:+ nl
  +:+ "*AFFECTED VENDOR:* " +:+ Vendor advisory +:+ nl
  +:+ "*AFFECTED PRODUCTS:* " +:+ AFFECTED_PRODUCTS advisory_information +:+ nl
  +:+ "*VULNERABILITY DETAILS:* "
  +:+ VULNERABILITY_DETAILS advisory_information +:+ nl
  +:+ "*ADDITIONAL DETAILS:* " +:+ ADDITIONAL_DETAILS advisory_information
  +:+ nl.

(** [create_slack_message(advisory, advisory_information)]. *)
Definition create_slack_message (IMAGE_URL : option string)
    (advisory : Advisory) (advisory_information : AdvisoryInformation)
    : string * json :=
  let text_summary := text_summary_of advisory advisory_information in
  let blocks :=
    blocks_of IMAGE_URL (message_text advisory advisory_information) in
  (text_summary, blocks).

(** [create_slack_message_for_no_new_cves()]. *)
Definition create_slack_message_for_no_new_cves (IMAGE_URL : option string)
    : string * json :=
  let text_summary :=
    ":large_green_circle: No new Zero Day advisories in the last 24 hours :large_green_circle:" in
  let blocks :=
    blocks_of IMAGE_URL
      (":large_green_circle: No new Zero Day advisories in the last 24 hours"
       +:+ nl) in
  (text_summary, blocks).

Definition posted : string := "successfully posted CVE into Slack channel".

(** [str(None)], the text of the record that [logger.error(None)] writes. *)
Definition str_None : string := "None".

(** [send_slack_message_for_no_new_zero_day(client)]. The handler passes
    the result of the inner [logger.error], which is [None], to the outer
    one. *)
Definition send_slack_message_for_no_new_zero_day (client : WebClient)
    : M unit :=
  env ← ask;
  let '(text_summary, message_blocks) :=
    create_slack_message_for_no_new_cves (IMAGE_URL env) in
  try_except
    (chat_postMessage client (CHANNEL_ID env) text_summary
       (dumps message_blocks);;
     logger_info posted)
    (Some SlackApiError)
    (λ e,
       logger_error ("Error posting to Slack: " +:+ exn_msg e);;
       logger_error str_None).

(** ** What the notification leaves in the trace *)

Definition no_new_post (client : WebClient) (env : Env) (delivered : bool)
    : event :=
  let '(text_summary, message_blocks) :=
    create_slack_message_for_no_new_cves (IMAGE_URL env) in
  EvPost client (CHANNEL_ID env) text_summary (dumps message_blocks) delivered.

(** A refusal of Slack for the examples. *)
Definition rate_limited : exn := Exn SlackApiError "ratelimited".

(** ** Lemmas *)

Section send.
Context (client : WebClient) (env : Env) (w : World).

Lemma send_run :
  send_slack_message_for_no_new_zero_day client env w =
    match slack_api env (n_post w) with
    | None => (Ok tt, advance w [no_new_post client env true; EvLog INFO posted] 0)
    | Some e =>
        if isinstance e SlackApiError then
          (Ok tt,
           advance w
             [no_new_post client env false;
              EvLog ERROR ("Error posting to Slack: " +:+ exn_msg e);
              EvLog ERROR str_None] 0)
        else (Raise e, advance w [no_new_post client env false] 0)
    end.
Proof.
  unfold send_slack_message_for_no_new_zero_day, no_new_post, try_except.
  mrun. cbn [create_slack_message_for_no_new_cves]. mrun.
  destruct (slack_api env (n_post w)) as [e|]; mrun; [|done].
  destruct (isinstance e SlackApiError); by mrun.
Qed.

End send.

Lemma closed_send R `{!Primitives R, !Posting R} client :
  closed R (send_slack_message_for_no_new_zero_day client).
Proof.
  unfold send_slack_message_for_no_new_zero_day.
  apply (closed_bind R); [solve_closed|intros env].
  cbn [create_slack_message_for_no_new_cves]. solve_closed.
Qed.

#[export] Hint Resolve closed_send : py.

Lemma text_summary_length advisory info :
  String.length (text_summary_of advisory info) =
    27 + String.length (CVE_ID advisory)
    + (75 `min` String.length (VULNERABILITY_DETAILS info)).
Proof.
  unfold text_summary_of. rewrite !str_length_app, slice_to_length. cbn. lia.
Qed.

(** ** The theorems *)

(** When Slack accepts the call, the notification of a
    quiet day posts the message once to the configured channel and logs
    the success. *)
Theorem send_no_new_delivered client env w :
  slack_api env (n_post w) = None →
  send_slack_message_for_no_new_zero_day client env w =
    (Ok tt, advance w [no_new_post client env true; EvLog INFO posted] 0).
Proof. intros H. by rewrite send_run, H. Qed.

(** C33 (error). When Slack refuses the call with [SlackApiError], the
    notification returns normally after two error records: the message of
    the error, and the text [None] written by the outer [logger.error]. *)
Theorem send_no_new_slack_error client env w e :
  slack_api env (n_post w) = Some e → isinstance e SlackApiError = true →
  send_slack_message_for_no_new_zero_day client env w =
    (Ok tt,
     advance w
       [no_new_post client env false;
        EvLog ERROR ("Error posting to Slack: " +:+ exn_msg e);
        EvLog ERROR "None"] 0).
Proof. intros H He. by rewrite send_run, H, He. Qed.

(** An exception of the Slack call that is not a
    [SlackApiError] leaves the notification unhandled and unlogged. *)
Theorem send_no_new_other_error client env w e :
  slack_api env (n_post w) = Some e → isinstance e SlackApiError = false →
  send_slack_message_for_no_new_zero_day client env w =
    (Raise e, advance w [no_new_post client env false] 0).
Proof. intros H He. by rewrite send_run, H, He. Qed.

(** The summary ends with an ellipsis whether or not the
    details were cut: details of at most 75 characters appear in full,
    followed by [...]. *)
Theorem text_summary_short_details advisory info :
  String.length (VULNERABILITY_DETAILS info) ≤ 75 →
  text_summary_of advisory info =
    ":red_circle: CVE ID: " +:+ CVE_ID advisory +:+ " - "
    +:+ VULNERABILITY_DETAILS info +:+ "...".
Proof. intros H. unfold text_summary_of. by rewrite slice_to_all. Qed.

(** The summary is at most 102 characters longer than the CVE
    identifier. *)
Theorem text_summary_bound image_url advisory info :
  String.length (create_slack_message image_url advisory info).1
    ≤ String.length (CVE_ID advisory) + 102.
Proof. cbn [create_slack_message fst]. rewrite text_summary_length. lia. Qed.

(** ** Examples *)

Lemma send_no_new_delivered_witness :
  let client := {| token := Some "xoxb-token" |} in
  let env := Fixture.env_of (Fixture.flaky 0 Fixture.ok_response) (λ _, None) in
  send_slack_message_for_no_new_zero_day client env Fixture.w0 =
    (Ok tt, advance Fixture.w0 [no_new_post client env true; EvLog INFO posted] 0).
Proof.
  intros client env. exact (send_no_new_delivered client env Fixture.w0 eq_refl).
Defined.

Lemma send_no_new_slack_error_witness :
  let client := {| token := Some "xoxb-token" |} in
  let env := Fixture.env_of (Fixture.flaky 0 Fixture.ok_response)
               (λ _, Some rate_limited) in
  send_slack_message_for_no_new_zero_day client env Fixture.w0 =
    (Ok tt,
     advance Fixture.w0
       [no_new_post client env false;
        EvLog ERROR "Error posting to Slack: ratelimited";
        EvLog ERROR "None"] 0).
Proof.
  intros client env.
  exact (send_no_new_slack_error client env Fixture.w0 rate_limited eq_refl eq_refl).
Defined.

Lemma send_no_new_other_error_witness :
  let client := {| token := Some "xoxb-token" |} in
  let env := Fixture.env_of (Fixture.flaky 0 Fixture.ok_response)
               (λ _, Some Fixture.timed_out) in
  send_slack_message_for_no_new_zero_day client env Fixture.w0 =
    (Raise Fixture.timed_out, advance Fixture.w0 [no_new_post client env false] 0).
Proof.
  intros client env.
  exact (send_no_new_other_error client env Fixture.w0 Fixture.timed_out
           eq_refl eq_refl).
Defined.

Lemma text_summary_short_details_witness :
  text_summary_of ListingFixture.adv1 DetailFixture.info =
    ":red_circle: CVE ID: CVE-2024-0001 - A stack overflow in the web server....".
Proof.
  apply (text_summary_short_details ListingFixture.adv1 DetailFixture.info).
  cbn. lia.
Defined.
