(* ===== verification/Main.v ===== *)
(** * Main: [main] (src/zerodaynewsletter.py, lines 183-204)

    [post_advisory] is the body of the [try] of the loop (lines 193-201),
    [for_advisories] the loop with its handler (lines 191-204) and [main]
    the function. The Slack client of line 186 is a value that holds its
    token; it is the first argument of the loop, of its body and of every
    call of Slack, and the events of the calls record it. What Slack
    answers is the environment's [slack_api].

    [loop] is the relation between the states before and after the loop
    with the outcomes of its iterations; [job] is the whole run as a
    function of the environment and of the state at the start, and
    [main_refines] proves that [main] computes it. *)

From S2P Require Import Prelude PyStr Html DateTime World Runs Fetcher.
From S2P Require Import Listing Detail Json Slack.

(** ** The code *)

(** Lines 193-201. *)
Definition post_advisory (client : WebClient) (advisory : Advisory)
    : M unit :=
  let advisory_link := Link advisory in
  advisory_information ← retrieve_advisory_info advisory_link;
  env ← ask;
  let '(text_summary, message_blocks) :=
    create_slack_message (IMAGE_URL env) advisory advisory_information in
  chat_postMessage client (CHANNEL_ID env) text_summary
    (dumps message_blocks);;
  logger_info posted.

(** Lines 202-204: [logger.error(e)] writes [str(e)]; [continue]. *)
Definition on_exception (e : exn) : M unit := logger_error (exn_msg e).

(** Lines 192-204: one iteration of the loop; [except Exception] catches
    every exception of the body. *)
Definition iteration (client : WebClient) (advisory : Advisory) : M unit :=
  try_except (post_advisory client advisory) None on_exception.

(** Line 191. *)
Fixpoint for_advisories (client : WebClient) (advisories : list Advisory)
    : M unit :=
  match advisories with
  | [] => mret tt
  | advisory :: rest =>
      iteration client advisory;; for_advisories client rest
  end.

(** [main()]. *)
Definition main : M unit :=
  advisories ← retrieve_advisories;
  logger_info ("The ammount of advisories are "
               +:+ format_int (Z.of_nat (length advisories)));;
  env ← ask;
  let client := {| token := SLACK_API_KEY env |} in
  time_sleep (60 * US_PER_SECOND);;
  if negb (truthy advisories) then
    send_slack_message_for_no_new_zero_day client
  else for_advisories client advisories.

(** ** What a run leaves in the trace *)

(** The client of line 186. *)
Definition client_of (env : Env) : WebClient :=
  {| token := SLACK_API_KEY env |}.

(** The message of an advisory, as [posts] reports it. *)
Definition message_of (env : Env) (advisory : Advisory)
    (info : AdvisoryInformation) : option string * string * string :=
  let '(text_summary, message_blocks) :=
    create_slack_message (IMAGE_URL env) advisory info in
  (CHANNEL_ID env, text_summary, dumps message_blocks).

Definition ev_post (env : Env) (advisory : Advisory)
    (info : AdvisoryInformation) (delivered : bool) : event :=
  let '(channel, text_summary, blocks) := message_of env advisory info in
  EvPost (client_of env) channel text_summary blocks delivered.

(** What [main] does between the listing and the messages. *)
Definition ev_pause (n : nat) : list event :=
  [EvLog INFO ("The ammount of advisories are " +:+ format_int (Z.of_nat n));
   EvSleep (60 * US_PER_SECOND)].

(** How the iteration for an advisory ends. *)
Variant outcome : Type :=
  | Delivered (info : AdvisoryInformation)
  | Refused (info : AdvisoryInformation) (e : exn)
  | Skipped (e : exn).

(** What the iteration for [advisory] leaves after the events of
    [retrieve_advisory_info]. *)
Definition ev_outcome (env : Env) (advisory : Advisory) (o : outcome)
    : list event :=
  match o with
  | Delivered info => [ev_post env advisory info true; EvLog INFO posted]
  | Refused info e =>
      [ev_post env advisory info false; EvLog ERROR (exn_msg e)]
  | Skipped e => [EvLog ERROR (exn_msg e)]
  end.

(** What the fetch of a page that the site serves leaves. *)
Definition ev_fetch (url : string) : list event :=
  [EvGet url headers; EvLog INFO ("Requesting " +:+ url)].

(** What the iteration for an advisory leaves when its page is served and
    Slack accepts the message. *)
Definition ev_delivery (env : Env) (advisory : Advisory)
    (info : AdvisoryInformation) : list event :=
  [EvLog INFO "starting retrieve_advisory_info"]
  ++ ev_fetch (Link advisory) ++ ev_outcome env advisory (Delivered info).

(** A call of Slack is made with the client of line 186 and names the
    channel of line 19. *)
Definition addressed (env : Env) (ev : event) : Prop :=
  match ev with
  | EvPost client channel _ _ _ =>
      client = {| token := SLACK_API_KEY env |} ∧ channel = CHANNEL_ID env
  | _ => True
  end.

(** The message that an outcome delivered. *)
Definition delivered (env : Env) (advisory : Advisory) (o : outcome)
    : option (option string * string * string) :=
  match o with
  | Delivered info => Some (message_of env advisory info)
  | _ => None
  end.

(** The runs of the loop: [loop env w advisories os w'] when the loop over
    [advisories] started in [w] ends in [w'] with the outcomes [os]. *)
Inductive loop (env : Env) : World → list Advisory → list outcome → World → Prop :=
  | loop_nil w : loop env w [] [] w
  | loop_delivered w advisory rest info w1 os w' :
      retrieve_advisory_info (Link advisory) env w = (Ok info, w1) →
      slack_api env (n_post w1) = None →
      loop env (advance w1 (ev_outcome env advisory (Delivered info)) 0)
        rest os w' →
      loop env w (advisory :: rest) (Delivered info :: os) w'
  | loop_refused w advisory rest info e w1 os w' :
      retrieve_advisory_info (Link advisory) env w = (Ok info, w1) →
      slack_api env (n_post w1) = Some e →
      loop env (advance w1 (ev_outcome env advisory (Refused info e)) 0)
        rest os w' →
      loop env w (advisory :: rest) (Refused info e :: os) w'
  | loop_skipped w advisory rest e w1 os w' :
      retrieve_advisory_info (Link advisory) env w = (Raise e, w1) →
      loop env (advance w1 (ev_outcome env advisory (Skipped e)) 0)
        rest os w' →
      loop env w (advisory :: rest) (Skipped e :: os) w'.

(** The messages of a run, in order. *)
Definition messages (env : Env) (advisories : list Advisory)
    (os : list outcome) : list (option string * string * string) :=
  omap id (zip_with (delivered env) advisories os).

(** ** The run as a function of what the outside does *)

(** [job] is the specification of a run of [main]: a function, without the
    monad, of the environment and of the state at the start, built from the
    specifications of the parts: the retry policy and its trace
    ([Fetcher.fetch_spec], [Fetcher.fetch_trace]), the rows of the listing
    ([Listing.rows_spec]), the decision table of the details
    ([Detail.information_spec]) and the outcomes of the loop. *)

(** A fetch with the defaults of [makerequest]: the result that the retry
    policy prescribes for the next three outcomes, and its trace. *)
Definition fetch (env : Env) (url : string) (w : World)
    : res (option node) * World :=
  let os := outcomes env (n_get w) url 3 in
  (fetch_spec env os,
   advance w (fetch_trace env url 3 60 0 (n_draw w) os) (fetch_backoffs os)).

(** The records of the listing: the rows of the document that the fetch
    returns, read against the clock after the fetch. *)
Definition listing (env : Env) (w : World) : res (list Advisory) * World :=
  let '(r, w1) := fetch env listing_url w in
  (tree ← r;
   rows ← listing_rows tree;
   now ← of_us (clock w1);
   last ← sub_timedelta now (timedelta_hours 24);
   rows_spec last rows, w1).

(** The details of an advisory: the start is logged, the page is fetched
    and its table is read. *)
Definition information (env : Env) (link : string) (w : World)
    : res AdvisoryInformation * World :=
  let '(r, w1) :=
    fetch env link (advance w [EvLog INFO "starting retrieve_advisory_info"] 0)
  in (tree ← r; rows ← detail_rows tree; information_spec rows, w1).

(** How the iteration for an advisory ends, and the state that it
    leaves. *)
Definition deliver (env : Env) (advisory : Advisory) (w : World)
    : outcome * World :=
  let '(r, w1) := information env (Link advisory) w in
  let o :=
    match r with
    | Ok info =>
        match slack_api env (n_post w1) with
        | None => Delivered info
        | Some e => Refused info e
        end
    | Raise e => Skipped e
    end in
  (o, advance w1 (ev_outcome env advisory o) 0).

(** The outcomes of the loop, in the order of the list. *)
Fixpoint deliveries (env : Env) (advisories : list Advisory) (w : World)
    : list outcome * World :=
  match advisories with
  | [] => ([], w)
  | advisory :: rest =>
      let '(o, w1) := deliver env advisory w in
      let '(os, w') := deliveries env rest w1 in
      (o :: os, w')
  end.

(** The notification of a quiet day. *)
Definition notify_none (env : Env) (w : World) : res unit * World :=
  match slack_api env (n_post w) with
  | None =>
      (Ok tt,
       advance w [no_new_post (client_of env) env true; EvLog INFO posted] 0)
  | Some e =>
      if isinstance e SlackApiError then
        (Ok tt,
         advance w
           [no_new_post (client_of env) env false;
            EvLog ERROR ("Error posting to Slack: " +:+ exn_msg e);
            EvLog ERROR str_None] 0)
      else (Raise e, advance w [no_new_post (client_of env) env false] 0)
  end.

(** A run: the listing; then the count, the pause and either the
    notification of a quiet day or the loop. *)
Definition job (env : Env) (w : World) : res unit * World :=
  match listing env w with
  | (Raise e, w1) => (Raise e, w1)
  | (Ok advisories, w1) =>
      let w2 := advance w1 (ev_pause (length advisories)) 0 in
      match advisories with
      | [] => notify_none env w2
      | _ => (Ok tt, (deliveries env advisories w2).2)
      end
  end.

(** ** A site that answers *)

(** What the theorems of a run without failures ask of the environment:
    the site answers every request with a page that parses, and Slack
    accepts every message. *)
Class Answers (env : Env) (page : string → node) : Prop := {
  answers_site n url :
    ∃ r, net env n url = Ok r ∧ status_code r = 200%Z
         ∧ fromstring env (content r) = Some (page url);
  answers_slack n : slack_api env n = None
}.

(** The details page of [advisory] yields [info]. *)
Definition details (page : string → node) (advisory : Advisory)
    (info : AdvisoryInformation) : Prop :=
  detail_rows (Some (page (Link advisory))) ≫= advisory_information = Ok info.

(** ** A site for the examples *)

Module MainFixture.

Definition listing_response : response :=
  {| status_code := 200; text := "listing"; content := "listing" |}.

Definition detail_response : response :=
  {| status_code := 200; text := "detail"; content := "detail" |}.

(** The site serves the listing and the details page of the first advisory
    of [ListingFixture]; every other address is not found. *)
Definition site (n : nat) (url : string) : res response :=
  if decide (url = listing_url) then Ok listing_response
  else if decide (url = Link ListingFixture.adv1) then Ok detail_response
  else Ok Fixture.not_found.

Definition parse (content : string) : option node :=
  if decide (content = "listing") then
    Some (ListingFixture.listing
            [ListingFixture.row1; ListingFixture.short_row;
             ListingFixture.row2; ListingFixture.row3])
  else if decide (content = "detail") then
    Some (DetailFixture.detail (DetailFixture.rows DetailFixture.fixed))
  else None.

Definition env : Env := Fixture.env_with site (λ _, None) parse.

(** A site whose listing has no rows. *)
Definition quiet_env : Env :=
  Fixture.env_with site (λ _, None) (λ _, Some (ListingFixture.listing [])).

(** A site that is down. *)
Definition down_env : Env :=
  Fixture.env_of (Fixture.flaky 0 Fixture.not_found) (λ _, None).

(** A site on which every advisory of the listing has its page. *)
Definition happy_site (n : nat) (url : string) : res response :=
  if decide (url = listing_url) then Ok listing_response
  else Ok detail_response.

Definition happy_page (url : string) : node :=
  if decide (url = listing_url) then
    ListingFixture.listing
      [ListingFixture.row1; ListingFixture.short_row; ListingFixture.row2]
  else DetailFixture.detail (DetailFixture.rows DetailFixture.fixed).

Definition happy_env : Env :=
  Fixture.env_with happy_site (λ _, None)
    (λ content, Some (happy_page (if decide (content = "listing")
                                  then listing_url else ""))).

(** The state after the details of [a] were requested in [w]. *)
Definition after_info (e : Env) (a : Advisory) (w : World) : World :=
  (retrieve_advisory_info (Link a) e w).2.

End MainFixture.

(** ** One advisory *)

Section one.
Context (env : Env) (advisory : Advisory).
Implicit Types (w : World).

Lemma iteration_failed w w1 e :
  retrieve_advisory_info (Link advisory) env w = (Raise e, w1) →
  iteration (client_of env) advisory env w =
    (Ok tt, advance w1 (ev_outcome env advisory (Skipped e)) 0).
Proof.
  intros Hinfo. unfold iteration, try_except, post_advisory, on_exception.
  rewrite run_bind, Hinfo. by mrun.
Qed.

Lemma iteration_fetched w w1 info :
  retrieve_advisory_info (Link advisory) env w = (Ok info, w1) →
  iteration (client_of env) advisory env w =
    (Ok tt,
     advance w1
       (ev_outcome env advisory
          match slack_api env (n_post w1) with
          | None => Delivered info
          | Some e => Refused info e
          end) 0).
Proof.
  intros Hinfo.
  unfold iteration, try_except, post_advisory, on_exception, ev_outcome,
    ev_post, message_of.
  rewrite run_bind, Hinfo. mrun. cbn [create_slack_message]. mrun.
  by destruct (slack_api env (n_post w1)); mrun.
Qed.

End one.

(** ** The loop *)

Lemma for_advisories_cons advisory rest env w :
  for_advisories (client_of env) (advisory :: rest) env w =
    for_advisories (client_of env) rest env (iteration (client_of env) advisory env w).2.
Proof.
  cbn [for_advisories]. rewrite run_bind.
  destruct (retrieve_advisory_info (Link advisory) env w) as [[info|e] w1]
    eqn:Hinfo.
  - by rewrite (iteration_fetched _ _ _ _ _ Hinfo).
  - by rewrite (iteration_failed _ _ _ _ _ Hinfo).
Qed.

Lemma for_advisories_loop advisories env w :
  ∃ os w', for_advisories (client_of env) advisories env w = (Ok tt, w')
           ∧ loop env w advisories os w'.
Proof.
  revert w. induction advisories as [|a rest IH]; intros w.
  { exists [], w. split; [done|constructor]. }
  rewrite for_advisories_cons.
  destruct (retrieve_advisory_info (Link a) env w) as [[info|e] w1] eqn:Hinfo.
  - rewrite (iteration_fetched _ _ _ _ _ Hinfo). cbn [snd].
    destruct (slack_api env (n_post w1)) as [e|] eqn:Hslack;
      edestruct IH as (os & w' & -> & Hloop); eexists (_ :: os), w';
      (split; [done|]); econstructor; done.
  - rewrite (iteration_failed _ _ _ _ _ Hinfo). cbn [snd].
    edestruct IH as (os & w' & -> & Hloop). eexists (_ :: os), w'.
    split; [done|]. by econstructor.
Qed.

Lemma posts_ev_outcome env advisory o :
  posts (ev_outcome env advisory o) =
    from_option (λ m, [m]) [] (delivered env advisory o).
Proof. by destruct o. Qed.

Lemma posts_step env advisory o w r w1 :
  retrieve_advisory_info (Link advisory) env w = (r, w1) →
  posts (trace (advance w1 (ev_outcome env advisory o) 0)) =
    posts (trace w) ++ from_option (λ m, [m]) [] (delivered env advisory o).
Proof.
  intros Hinfo. rewrite trace_advance, posts_app, posts_ev_outcome.
  destruct (closed_retrieve_advisory_info silent (Link advisory) env w)
    as [Hq _].
  rewrite Hinfo in Hq. cbn [snd] in Hq. by rewrite Hq.
Qed.

Lemma loop_posts env w advisories os w' :
  loop env w advisories os w' →
  posts (trace w') = posts (trace w) ++ messages env advisories os.
Proof.
  unfold messages.
  induction 1 as [w|w a rest info w1 os w' Hinfo Hs _ IH
                   |w a rest info e w1 os w' Hinfo Hs _ IH
                   |w a rest e w1 os w' Hinfo _ IH];
    [by rewrite app_nil_r|..];
    by rewrite IH, (posts_step _ _ _ _ _ _ Hinfo), <- (assoc_L (++)).
Qed.

Lemma loop_length env w advisories os w' :
  loop env w advisories os w' → length os = length advisories.
Proof. induction 1; cbn; by f_equal. Qed.

Lemma loop_trace env w advisories os w' :
  loop env w advisories os w' →
  ∃ evs, trace w' = trace w ++ evs
         ∧ concat (zip_with (ev_outcome env) advisories os) `sublist_of` evs.
Proof.
  assert (∀ a w r w1, retrieve_advisory_info (Link a) env w = (r, w1) →
            ∃ evs, trace w1 = trace w ++ evs) as Hinfo.
  { intros a w0 r w1 H.
    destruct (closed_retrieve_advisory_info advances (Link a) env w0)
      as (evs & d & _ & Hw).
    rewrite H in Hw. cbn [snd] in Hw. exists evs. by rewrite Hw. }
  induction 1 as [w|w a rest info w1 os w' H1 _ _ (evs & -> & IH)
                   |w a rest info e w1 os w' H1 _ _ (evs & -> & IH)
                   |w a rest e w1 os w' H1 _ (evs & -> & IH)];
    [by exists []; rewrite app_nil_r|..];
    apply Hinfo in H1 as [e1 H1]; rewrite trace_advance, H1;
    eexists; (split; [by rewrite <- !(assoc_L (++))|]);
    cbn [zip_with concat]; by apply sublist_inserts_l, sublist_app.
Qed.

#[export] Instance addressed_harmless env : Harmless (addressed env).
Proof. by split. Qed.

Lemma addressed_ev_outcome env advisory o :
  Forall (addressed env) (ev_outcome env advisory o).
Proof.
  destruct o; cbn [ev_outcome]; repeat constructor.
Qed.

Lemma loop_addressed env w advisories os w' :
  loop env w advisories os w' → only (addressed env) w w'.
Proof.
  induction 1 as [w|w a rest info w1 os w' H1 _ _ IH
                   |w a rest info e w1 os w' H1 _ _ IH
                   |w a rest e w1 os w' H1 _ IH]; [done|..];
    pose proof (closed_retrieve_advisory_info (only (addressed env)) (Link a)
                  env w) as Hw; rewrite H1 in Hw; cbn [snd] in Hw;
    (etrans; [done|]); (etrans; [|done]);
    apply only_advance, addressed_ev_outcome.
Qed.

Lemma spends_ev_outcome env advisory o w :
  spends 0 1 0 w (advance w (ev_outcome env advisory o) 0).
Proof.
  eapply spends_le; [apply spends_advance|destruct o..].
  all: first [exact (le_n 0)|exact (le_n 1)|exact (le_S 0 0 (le_n 0))
             |exact (Z.le_refl 0)].
Qed.

Lemma loop_spends env w advisories os w' :
  loop env w advisories os w' →
  spends (3 * length advisories) (length advisories)
    (Z.of_nat (length advisories) * (130 * US_PER_SECOND)) w w'.
Proof.
  induction 1 as [w|w a rest info w1 os w' H1 _ _ IH
                   |w a rest info e w1 os w' H1 _ _ IH
                   |w a rest e w1 os w' H1 _ IH]; [apply spends_refl|..];
    pose proof (retrieve_advisory_info_spends (Link a) env w) as Hw;
    rewrite H1 in Hw; cbn [snd] in Hw;
    pose proof (spends_trans _ _ _ _ _ _ _ _ _
                  (spends_trans _ _ _ _ _ _ _ _ _ Hw
                     (spends_ev_outcome _ _ _ _)) IH) as Hall;
    (eapply spends_le; [exact Hall|cbn [length]; lia..]).
Qed.

(** ** The function *)

Lemma main_run env w w1 advisories :
  retrieve_advisories env w = (Ok advisories, w1) →
  main env w =
    (if negb (truthy advisories) then
       send_slack_message_for_no_new_zero_day (client_of env)
     else for_advisories (client_of env) advisories) env
      (advance w1 (ev_pause (length advisories)) 0).
Proof.
  intros Hlist. unfold main, ev_pause. rewrite run_bind, Hlist. by mrun.
Qed.

(** ** The parts of the specification *)

Lemma makerequest_default_fetch env url w :
  makerequest_default url env w = fetch env url w.
Proof.
  apply (for_attempts_refines env url 3 60 ltac:(lia) 3 0 w eq_refl).
Qed.

Lemma retrieve_advisories_listing env w :
  retrieve_advisories env w = listing env w.
Proof.
  unfold listing. rewrite <- makerequest_default_fetch.
  destruct (makerequest_default listing_url env w) as [[tree|e] w1] eqn:H.
  - by apply retrieve_advisories_run.
  - unfold retrieve_advisories. by rewrite run_bind, H.
Qed.

Lemma retrieve_advisory_info_information env link w :
  retrieve_advisory_info link env w = information env link w.
Proof.
  unfold information. rewrite <- makerequest_default_fetch.
  destruct (makerequest_default link env _) as [[tree|e] w1] eqn:H.
  - by apply retrieve_advisory_info_run.
  - unfold retrieve_advisory_info. mrun. by rewrite H.
Qed.

Lemma iteration_deliver env advisory w :
  iteration (client_of env) advisory env w = (Ok tt, (deliver env advisory w).2).
Proof.
  unfold deliver. rewrite <- retrieve_advisory_info_information.
  destruct (retrieve_advisory_info _ _ _) as [[info|e] w1] eqn:H.
  - rewrite (iteration_fetched _ _ _ _ _ H). by destruct (slack_api _ _).
  - by rewrite (iteration_failed _ _ _ _ _ H).
Qed.

Lemma for_advisories_deliveries env advisories w :
  for_advisories (client_of env) advisories env w =
    (Ok tt, (deliveries env advisories w).2).
Proof.
  revert w. induction advisories as [|a rest IH]; intros w; [done|].
  rewrite for_advisories_cons, iteration_deliver, IH. cbn [snd deliveries].
  destruct (deliver env a w) as [o w1]. cbn [snd].
  by destruct (deliveries env rest w1).
Qed.

(** The outcomes of [deliveries] are those of a run of the loop. *)
Lemma deliveries_loop env advisories w :
  loop env w advisories (deliveries env advisories w).1
    (deliveries env advisories w).2.
Proof.
  revert w. induction advisories as [|a rest IH]; intros w; [constructor|].
  cbn [deliveries]. unfold deliver.
  rewrite <- retrieve_advisory_info_information.
  destruct (retrieve_advisory_info _ _ _) as [[info|e] w1] eqn:H.
  - destruct (slack_api env (n_post w1)) as [e|] eqn:Hs;
      specialize (IH (advance w1 (ev_outcome env a
                        match slack_api env (n_post w1) with
                        | None => Delivered info
                        | Some e => Refused info e
                        end) 0));
      rewrite Hs in IH; destruct (deliveries env rest _) as [os w'];
      by econstructor.
  - specialize (IH (advance w1 (ev_outcome env a (Skipped e)) 0)).
    destruct (deliveries env rest _) as [os w']. by econstructor.
Qed.

(** ** What a run respects *)

Section closed.
Context (R : relation World) `{!Primitives R, !Posting R}.

Lemma closed_iteration client advisory :
  closed R (iteration client advisory).
Proof.
  unfold iteration, post_advisory, on_exception.
  apply (closed_try R); [|intros ?; solve_closed].
  apply (closed_bind R); [solve_closed|intros info].
  apply (closed_bind R); [solve_closed|intros env]. cbn [create_slack_message].
  solve_closed.
Qed.

Lemma closed_for_advisories client advisories :
  closed R (for_advisories client advisories).
Proof.
  induction advisories as [|a rest IH]; cbn [for_advisories]; [solve_closed|].
  apply (closed_bind R); [apply closed_iteration|done].
Qed.

Lemma closed_main : closed R main.
Proof.
  unfold main.
  apply (closed_bind R); [solve_closed|intros advisories].
  apply (closed_bind R); [solve_closed|intros _].
  apply (closed_bind R); [solve_closed|intros env].
  apply (closed_bind R); [solve_closed|intros _].
  destruct (negb (truthy advisories)); [solve_closed|].
  apply closed_for_advisories.
Qed.

End closed.

(** ** Runs on a site that answers *)

Section answers.
Context (env : Env) (page : string → node) `{!Answers env page}.

Lemma fetch_page url w :
  makerequest_default url env w =
    (Ok (Some (page url)),
     advance w [EvGet url headers; EvLog INFO ("Requesting " +:+ url)] 0).
Proof.
  destruct (answers_site (n_get w) url) as (r & Hnet & Hst & Hparse).
  unfold makerequest_default.
  rewrite (makerequest_response env url 3 60 w r ltac:(lia) Hnet).
  unfold response_result, ev_response. by rewrite Hst, Hparse.
Qed.

Lemma retrieve_advisory_info_page advisory info w :
  details page advisory info →
  retrieve_advisory_info (Link advisory) env w =
    (Ok info,
     advance w
       [EvLog INFO "starting retrieve_advisory_info";
        EvGet (Link advisory) headers;
        EvLog INFO ("Requesting " +:+ Link advisory)] 0).
Proof.
  intros Hinfo. erewrite retrieve_advisory_info_run; [|apply fetch_page].
  unfold details in Hinfo.
  destruct (detail_rows _) as [trs|]; [|done]. cbn in *.
  rewrite <- advisory_information_spec, Hinfo. by mrun.
Qed.

Lemma for_advisories_answers_run advisories infos w :
  Forall2 (details page) advisories infos →
  for_advisories (client_of env) advisories env w =
    (Ok tt, advance w (concat (zip_with (ev_delivery env) advisories infos)) 0).
Proof.
  intros Hall. revert w.
  induction Hall as [|a i advisories infos Ha _ IH]; intros w.
  { by rewrite advance_nil. }
  pose proof (retrieve_advisory_info_page a i w Ha) as Hinfo.
  rewrite for_advisories_cons, (iteration_fetched _ _ _ _ _ Hinfo).
  rewrite answers_slack. cbn [snd]. rewrite IH. by mrun.
Qed.

Lemma retrieve_advisories_answers w rows now last advisories :
  listing_rows (Some (page listing_url)) = Ok rows →
  of_us (clock w) = Ok now →
  sub_timedelta now (timedelta_hours 24) = Ok last →
  for_rows last rows [] = Ok advisories →
  retrieve_advisories env w = (Ok advisories, advance w (ev_fetch listing_url) 0).
Proof.
  intros Hrows Hnow Hlast Hadvs.
  erewrite retrieve_advisories_run; [|by apply fetch_page].
  rewrite Hrows, clock_advance. cbn. rewrite Z.add_0_r, Hnow. cbn.
  rewrite Hlast. cbn. by rewrite <- Hadvs, for_rows_spec, res_fmap_id.
Qed.

Lemma main_answers_run w rows now last advisories infos :
  listing_rows (Some (page listing_url)) = Ok rows →
  of_us (clock w) = Ok now →
  sub_timedelta now (timedelta_hours 24) = Ok last →
  for_rows last rows [] = Ok advisories → advisories ≠ [] →
  Forall2 (details page) advisories infos →
  main env w =
    (Ok tt,
     advance w (ev_fetch listing_url ++ ev_pause (length advisories)
                ++ concat (zip_with (ev_delivery env) advisories infos)) 0).
Proof.
  intros Hrows Hnow Hlast Hadvs Hne Hinfos.
  rewrite (main_run _ _ _ _
             (retrieve_advisories_answers _ _ _ _ _ Hrows Hnow Hlast Hadvs)).
  destruct advisories as [|a rest]; [done|]. cbn [truthy negb].
  rewrite (for_advisories_answers_run _ _ _ Hinfos). by mrun.
Qed.

Lemma for_advisories_answers advisories infos w :
  Forall2 (details page) advisories infos →
  ∃ w', for_advisories (client_of env) advisories env w = (Ok tt, w')
        ∧ loop env w advisories (Delivered <$> infos) w'
        ∧ n_get w' = n_get w + length advisories
        ∧ clock w' = clock w.
Proof.
  intros Hall. revert w.
  induction Hall as [|a i advisories infos Ha _ IH]; intros w.
  { exists w. split_and!; [done|constructor|done..]. }
  pose proof (retrieve_advisory_info_page a i w Ha) as Hinfo.
  rewrite for_advisories_cons, (iteration_fetched _ _ _ _ _ Hinfo).
  rewrite answers_slack. cbn [snd].
  edestruct IH as (w' & -> & Hloop & Hget & Hclock). exists w'.
  split_and!; [done|econstructor; [done|apply answers_slack|done]|..].
  - rewrite Hget. autorewrite with py. cbn. lia.
  - rewrite Hclock. autorewrite with py. cbn. lia.
Qed.

End answers.

(** ** The theorems *)

(** C1 (refinement). [main] computes [job]: for every environment and every
    state at the start, the result and the state at the end of a run are
    those that the retry policy, the specification of the rows, the
    decision table of the details and the outcomes of the loop prescribe. *)
Theorem main_refines env w : main env w = job env w.
Proof.
  unfold job. rewrite <- retrieve_advisories_listing.
  destruct (retrieve_advisories env w) as [[advisories|e] w1] eqn:Hlist.
  2:{ unfold main. by rewrite run_bind, Hlist. }
  rewrite (main_run _ _ _ _ Hlist). destruct advisories as [|a rest].
  - apply send_run.
  - apply for_advisories_deliveries.
Qed.

(** C15 (error). When the fetch of the listing fails, after a rejection
    or after the last retry, [main] ends with [AttributeError] at once: it
    does not sleep, posts nothing and sends no notification. *)
Theorem main_listing_failure env w w1 :
  makerequest_default listing_url env w = (Ok None, w1) →
  main env w = (Raise none_has_no_xpath, w1)
  ∧ posts (trace w1) = posts (trace w).
Proof.
  intros Hfetch. split.
  - unfold main. by rewrite run_bind, (retrieve_advisories_run _ _ _ _ Hfetch).
  - destruct (closed_makerequest silent listing_url 3 60 env w) as [Hq _].
    unfold makerequest_default in Hfetch. by rewrite Hfetch in Hq.
Qed.

(** C14 (functional). When the listing yields no record and Slack accepts
    the call, [main] logs the count, sleeps 60 seconds, posts the message of
    a quiet day once and logs the success. *)
Theorem main_quiet_day env w w1 :
  retrieve_advisories env w = (Ok [], w1) →
  slack_api env (n_post w1) = None →
  main env w =
    (Ok tt,
     advance w1
       (ev_pause 0 ++ [no_new_post (client_of env) env true; EvLog INFO posted]) 0).
Proof.
  intros Hlist Hslack. rewrite (main_run _ _ _ _ Hlist). cbn [truthy negb].
  rewrite send_run, n_post_advance. cbn [ev_pause omap length].
  rewrite Nat.add_0_r, Hslack. by mrun.
Qed.

(** C4 (refinement). When the listing yields records, [main] returns
    normally; after the count and the sleep of 60 seconds it runs the loop,
    and the messages delivered to Slack are those of the advisories whose
    iteration succeeded, in the order of the listing. *)
Theorem main_loop env w w1 advisories :
  retrieve_advisories env w = (Ok advisories, w1) → advisories ≠ [] →
  ∃ os w',
    main env w = (Ok tt, w')
    ∧ loop env (advance w1 (ev_pause (length advisories)) 0) advisories os w'
    ∧ posts (trace w') = posts (trace w) ++ messages env advisories os.
Proof.
  intros Hlist Hne. rewrite (main_run _ _ _ _ Hlist).
  destruct advisories as [|a rest]; [done|]. cbn [truthy negb].
  destruct (for_advisories_loop (a :: rest) env
              (advance w1 (ev_pause (S (length rest))) 0))
    as (os & w' & Hrun & Hloop).
  exists os, w'. split_and!; [done..|].
  rewrite (loop_posts _ _ _ _ _ Hloop), trace_advance, posts_app, app_nil_r.
  destruct (closed_retrieve_advisories silent env w) as [Hq _].
  rewrite Hlist in Hq. cbn [snd] in Hq. by rewrite Hq.
Qed.

(** No exception leaves the loop over the advisories. *)
Theorem for_advisories_never_raises advisories env w :
  (for_advisories (client_of env) advisories env w).1 = Ok tt.
Proof.
  by destruct (for_advisories_loop advisories env w) as (os & w' & -> & _).
Qed.

(** When the details of an advisory cannot be retrieved,
    the exception is logged as an error and the loop carries on with the
    rest of the advisories. *)
Theorem for_advisories_skip advisory rest env w w1 e :
  retrieve_advisory_info (Link advisory) env w = (Raise e, w1) →
  for_advisories (client_of env) (advisory :: rest) env w =
    for_advisories (client_of env) rest env (advance w1 [EvLog ERROR (exn_msg e)] 0).
Proof.
  intros Hinfo.
  by rewrite for_advisories_cons, (iteration_failed _ _ _ _ _ Hinfo).
Qed.

(** When Slack refuses the message of an advisory, the
    exception is logged as an error, whatever its class, and the loop
    carries on. *)
Theorem for_advisories_refused advisory rest env w w1 info e :
  retrieve_advisory_info (Link advisory) env w = (Ok info, w1) →
  slack_api env (n_post w1) = Some e →
  for_advisories (client_of env) (advisory :: rest) env w =
    for_advisories (client_of env) rest env
      (advance w1
         [ev_post env advisory info false; EvLog ERROR (exn_msg e)] 0).
Proof.
  intros Hinfo Hslack.
  by rewrite for_advisories_cons, (iteration_fetched _ _ _ _ _ Hinfo), Hslack.
Qed.

(** When every iteration delivers its message, Slack
    receives one message per advisory, in the order of the listing. *)
Theorem loop_all_delivered env w advisories infos w' :
  loop env w advisories (Delivered <$> infos) w' →
  posts (trace w') =
    posts (trace w) ++ zip_with (message_of env) advisories infos.
Proof.
  intros Hloop. rewrite (loop_posts _ _ _ _ _ Hloop). f_equal.
  unfold messages. clear Hloop. revert infos.
  induction advisories as [|a rest IH]; intros [|i infos]; cbn; try done.
  by rewrite IH.
Qed.

(** The messages delivered by a run of the loop belong to a
    subsequence of the advisories: none is delivered twice or out of
    order. *)
Theorem loop_posts_in_order env w advisories os w' :
  loop env w advisories os w' →
  ∃ sent : list (Advisory * AdvisoryInformation),
    sent.*1 `sublist_of` advisories
    ∧ posts (trace w') =
        posts (trace w) ++ ((λ ai, message_of env ai.1 ai.2) <$> sent).
Proof.
  intros Hloop. rewrite (loop_posts _ _ _ _ _ Hloop).
  pose proof (loop_length _ _ _ _ _ Hloop) as Hlen. clear Hloop.
  unfold messages. revert os Hlen.
  induction advisories as [|a rest IH]; intros [|o os] Hlen; try done.
  { by exists []. }
  destruct (IH os) as (sent & Hsub & Heq); [by injection Hlen|].
  apply app_inv_head in Heq. cbn. rewrite Heq.
  destruct o as [info| |]; cbn;
    [exists ((a, info) :: sent); split; [by apply sublist_skip|done]
    |exists sent; split; [by apply sublist_cons|done]..].
Qed.

(** C2 (functional). On a site that answers every request, with a listing
    whose retained rows all have a details page of the expected structure,
    [main] returns normally after one request per page and a pause of 60
    seconds, and Slack receives exactly one message per retained row, in the
    order of the listing. *)
Theorem main_answers env page `{!Answers env page} w rows now last advisories
    infos :
  listing_rows (Some (page listing_url)) = Ok rows →
  of_us (clock w) = Ok now →
  sub_timedelta now (timedelta_hours 24) = Ok last →
  for_rows last rows [] = Ok advisories → advisories ≠ [] →
  Forall2 (details page) advisories infos →
  ∃ w',
    main env w = (Ok tt, w')
    ∧ posts (trace w') =
        posts (trace w) ++ zip_with (message_of env) advisories infos
    ∧ n_get w' = n_get w + 1 + length advisories
    ∧ clock w' = (clock w + 60 * US_PER_SECOND)%Z.
Proof.
  intros Hrows Hnow Hlast Hadvs Hne Hinfos.
  rewrite (main_run _ _ _ _
             (retrieve_advisories_answers env page _ _ _ _ _
                Hrows Hnow Hlast Hadvs)).
  unfold ev_fetch.
  destruct advisories as [|a rest]; [done|]. cbn [truthy negb].
  edestruct (for_advisories_answers env page (a :: rest) infos)
    as (w' & -> & Hloop & Hget & Hclock); [done|].
  exists w'. split_and!; [done|..].
  - rewrite (loop_posts _ _ _ _ _ Hloop). autorewrite with py.
    rewrite !posts_app, !app_nil_r. f_equal. unfold messages.
    clear. revert infos. generalize (a :: rest).
    induction l as [|x l IH]; intros [|i infos]; cbn; by rewrite ?IH.
  - rewrite Hget. autorewrite with py. cbn. lia.
  - rewrite Hclock. autorewrite with py. cbn. unfold US_PER_SECOND. lia.
Qed.

(** C13 (liveness). The loop comes to every advisory of the list: whatever
    the site and Slack do, the run ends, and its trace has for each
    advisory, in the order of the list, the call of Slack with its message
    followed by the record of the success or of the refusal, or the record
    of the error that ended its iteration. *)
Theorem for_advisories_handles_all advisories env w :
  ∃ os w' evs,
    for_advisories (client_of env) advisories env w = (Ok tt, w')
    ∧ length os = length advisories
    ∧ trace w' = trace w ++ evs
    ∧ concat (zip_with (ev_outcome env) advisories os) `sublist_of` evs.
Proof.
  destruct (for_advisories_loop advisories env w) as (os & w' & Hrun & Hloop).
  destruct (loop_trace _ _ _ _ _ Hloop) as (evs & Htr & Hsub).
  exists os, w', evs. split_and!; [done|by eapply loop_length|done..].
Qed.

(** C21 (bounds). A run in which the listing yields [n] records makes at
    most [3 (n + 1)] requests and [max n 1] calls of Slack, and sleeps at
    most [130 (n + 1) + 60] seconds: three requests and two back-offs of at
    most 65 seconds per page, and the pause of line 187. *)
Theorem main_spends env w :
  let n := match (retrieve_advisories env w).1 with
           | Ok advisories => length advisories
           | Raise _ => 0
           end in
  spends (3 * (n + 1)) (n `max` 1)
    ((130 * (Z.of_nat n + 1) + 60) * US_PER_SECOND) w (main env w).2.
Proof.
  pose proof (retrieve_advisories_spends env w) as Hw.
  destruct (retrieve_advisories env w) as [[advisories|e] w1] eqn:Hlist;
    cbn [fst snd] in *.
  2:{ unfold main. rewrite run_bind, Hlist. cbn [snd].
      eapply spends_le; [done|unfold US_PER_SECOND; lia..]. }
  rewrite (main_run _ _ _ _ Hlist).
  pose proof (spends_trans _ _ _ _ _ _ _ _ _ Hw
                (spends_advance w1 (ev_pause (length advisories)) 0)) as Hp.
  destruct advisories as [|a rest]; cbn [truthy negb].
  - rewrite send_run.
    repeat case_match; cbn [snd];
      (eapply spends_le;
       [exact (spends_trans _ _ _ _ _ _ _ _ _ Hp (spends_advance _ _ 0))
       |cbn; unfold US_PER_SECOND; lia..]).
  - destruct (for_advisories_loop (a :: rest) env
                (advance w1 (ev_pause (length (a :: rest))) 0))
      as (os & w' & Hrun & Hloop).
    rewrite Hrun. cbn [snd]. apply loop_spends in Hloop.
    eapply spends_le; [exact (spends_trans _ _ _ _ _ _ _ _ _ Hp Hloop)|..];
      cbn [length ev_pause gets sleeps omap]; cbn; unfold US_PER_SECOND; lia.
Qed.

(** C22 (safety). Every call of Slack that a run makes is made with the
    token of the variable [SLACK_API_KEY] and names the channel of the
    variable [CHANNEL_ID], as they were when the program started, also
    when a variable is not set. *)
Theorem main_posts_addressed env w : only (addressed env) w (main env w).2.
Proof.
  pose proof (closed_retrieve_advisories (only (addressed env)) env w) as Hw.
  destruct (retrieve_advisories env w) as [[advisories|e] w1] eqn:Hlist.
  2:{ unfold main. by rewrite run_bind, Hlist. }
  rewrite (main_run _ _ _ _ Hlist). cbn [snd] in Hw. etrans; [done|].
  trans (advance w1 (ev_pause (length advisories)) 0);
    [apply only_advance; by repeat constructor|].
  destruct advisories as [|a rest]; cbn [truthy negb].
  - rewrite send_run. repeat case_match; cbn [snd]; apply only_advance;
      by repeat constructor.
  - destruct (for_advisories_loop (a :: rest) env
                (advance w1 (ev_pause (length (a :: rest))) 0))
      as (os & w' & Hrun & Hloop).
    rewrite Hrun. by eapply loop_addressed.
Qed.


(** The trace of the start is a prefix of the trace of the end, and the
    clock and the counters do not go back. *)
Lemma main_monotone env w : extends w (main env w).2.
Proof. apply (closed_main extends). Qed.

(** ** Examples *)

Import MainFixture.

#[export] Instance happy_env_answers : Answers happy_env happy_page.
Proof.
  split; [|done]. intros n url. unfold happy_env, happy_site, happy_page. cbn.
  destruct (decide (url = listing_url)) as [->|]; eexists; done.
Qed.

(** One retained row, one details page, one message: two requests and a
    pause of 60 seconds. *)
Lemma main_answers_witness :
  ∃ w',
    main happy_env Fixture.w0 = (Ok tt, w')
    ∧ posts (trace w') =
        [message_of happy_env ListingFixture.adv1 DetailFixture.info]
    ∧ n_get w' = 2
    ∧ clock w' = (clock Fixture.w0 + 60000000)%Z.
Proof.
  exact (main_answers happy_env happy_page Fixture.w0
           [ListingFixture.row1; ListingFixture.short_row; ListingFixture.row2]
           (DateTime 2024 5 10 9 0 0 0) ListingFixture.last
           [ListingFixture.adv1] [DetailFixture.info]
           eq_refl eq_refl eq_refl eq_refl ltac:(done)
           ltac:(by repeat constructor)).
Defined.

Lemma main_listing_failure_witness :
  main down_env Fixture.w0 =
    (Raise none_has_no_xpath,
     advance Fixture.w0
       [EvGet listing_url headers; EvLog INFO ("Requesting " +:+ listing_url);
        EvLog INFO "Failed to make GET request"; EvLog INFO "not found";
        EvLog INFO "404"] 0)
  ∧ posts
      (trace
         (advance Fixture.w0
            [EvGet listing_url headers;
             EvLog INFO ("Requesting " +:+ listing_url);
             EvLog INFO "Failed to make GET request"; EvLog INFO "not found";
             EvLog INFO "404"] 0)) = posts (trace Fixture.w0).
Proof. exact (main_listing_failure down_env Fixture.w0 _ eq_refl). Defined.

Lemma main_quiet_day_witness :
  main quiet_env Fixture.w0 =
    (Ok tt,
     advance Fixture.w0
       ([EvGet listing_url headers; EvLog INFO ("Requesting " +:+ listing_url);
         EvLog INFO "The ammount of advisories are 0"; EvSleep 60000000]
        ++ [no_new_post (client_of quiet_env) quiet_env true; EvLog INFO posted]) 0).
Proof. exact (main_quiet_day quiet_env Fixture.w0 _ eq_refl eq_refl). Defined.

(** The first advisory is delivered; the second, whose link has no page,
    is skipped. *)
Lemma main_loop_witness :
  ∃ os w',
    main env Fixture.w0 = (Ok tt, w')
    ∧ loop env
        (advance
           (advance Fixture.w0
              [EvGet listing_url headers;
               EvLog INFO ("Requesting " +:+ listing_url)] 0)
           (ev_pause 2) 0)
        [ListingFixture.adv1; ListingFixture.adv3] os w'
    ∧ posts (trace w') =
        posts (trace Fixture.w0)
        ++ messages env [ListingFixture.adv1; ListingFixture.adv3] os.
Proof.
  exact (main_loop env Fixture.w0 _ [ListingFixture.adv1; ListingFixture.adv3]
           eq_refl ltac:(done)).
Defined.

Lemma for_advisories_skip_witness :
  for_advisories (client_of env) [ListingFixture.adv3; ListingFixture.adv1] env Fixture.w0 =
    for_advisories (client_of env) [ListingFixture.adv1] env
      (advance
         (advance Fixture.w0
            [EvLog INFO "starting retrieve_advisory_info";
             EvGet (Link ListingFixture.adv3) headers;
             EvLog INFO ("Requesting " +:+ Link ListingFixture.adv3);
             EvLog INFO "Failed to make GET request"; EvLog INFO "not found";
             EvLog INFO "404"] 0)
         [EvLog ERROR "'NoneType' object has no attribute 'xpath'"] 0).
Proof.
  exact (for_advisories_skip ListingFixture.adv3 [ListingFixture.adv1] env
           Fixture.w0 _ _ eq_refl).
Defined.

Lemma for_advisories_refused_witness :
  let env := Fixture.env_with site (λ _, Some rate_limited) parse in
  for_advisories (client_of env) [ListingFixture.adv1] env Fixture.w0 =
    (Ok tt,
     advance
       (advance Fixture.w0
          [EvLog INFO "starting retrieve_advisory_info";
           EvGet (Link ListingFixture.adv1) headers;
           EvLog INFO ("Requesting " +:+ Link ListingFixture.adv1)] 0)
       [ev_post env ListingFixture.adv1 DetailFixture.info false;
        EvLog ERROR "ratelimited"] 0).
Proof.
  intros env.
  exact (for_advisories_refused ListingFixture.adv1 [] env Fixture.w0 _
           DetailFixture.info rate_limited eq_refl eq_refl).
Defined.

Lemma loop_all_delivered_witness :
  posts (trace (for_advisories (client_of env) [ListingFixture.adv1] env Fixture.w0).2) =
    [message_of env ListingFixture.adv1 DetailFixture.info].
Proof.
  exact (loop_all_delivered env Fixture.w0 [ListingFixture.adv1]
           [DetailFixture.info] _
           (loop_delivered env Fixture.w0 ListingFixture.adv1 []
              DetailFixture.info
              (after_info env ListingFixture.adv1 Fixture.w0) [] _
              eq_refl eq_refl (loop_nil env _))).
Defined.

Lemma loop_posts_in_order_witness :
  ∃ sent : list (Advisory * AdvisoryInformation),
    sent.*1 `sublist_of` [ListingFixture.adv3; ListingFixture.adv1]
    ∧ posts (trace (for_advisories (client_of env)
                      [ListingFixture.adv3; ListingFixture.adv1]
                      env Fixture.w0).2) =
        [] ++ ((λ ai, message_of env ai.1 ai.2) <$> sent).
Proof.
  pose (w1 := after_info env ListingFixture.adv3 Fixture.w0).
  pose (w2 := advance w1 [EvLog ERROR (exn_msg none_has_no_xpath)] 0).
  exact (loop_posts_in_order env Fixture.w0
           [ListingFixture.adv3; ListingFixture.adv1]
           [Skipped none_has_no_xpath; Delivered DetailFixture.info] _
           (loop_skipped env Fixture.w0 ListingFixture.adv3
              [ListingFixture.adv1] none_has_no_xpath w1 _ _ eq_refl
              (loop_delivered env w2 ListingFixture.adv1 [] DetailFixture.info
                 (after_info env ListingFixture.adv1 w2) [] _
                 eq_refl eq_refl (loop_nil env _)))).
Defined.
