(* ===== verification/Script.v ===== *)
(** * Script: the module run as a program (lines 13-20 and 207-208)

    Loading the module configures [logging], binds the logger and the three
    globals and defines the functions; none of this changes the state of
    the model. The last statement calls [main] when the module is the
    program ([__name__] is ["__main__"]). [run_module] is that statement,
    [stdout] is what the run writes under the configuration of lines
    13-16. *)

From stdpp Require Import sorting.
From S2P Require Import Prelude PyStr Html DateTime World Runs Logging.
From S2P Require Import Fetcher Listing Detail Json Slack Main.

(** ** The code *)

(** Lines 207-208. *)
Definition run_module (__name__ : string) : M unit :=
  if decide (__name__ = "__main__") then main else mret tt.

(** What a run of the module that started in [w0] has written to
    [sys.stdout] when it has reached [w]. *)
Definition stdout (__name__ : string) (w0 w : World) : list string :=
  output basicConfig (logger __name__) w0 w.

(** ** What the run of a day without failures writes *)

(** The lines of the iteration for [advisory], written at the time [t]. *)
Definition delivery_lines (lg : Logger) (t : Z) (advisory : Advisory)
    : list string :=
  [line lg t INFO "starting retrieve_advisory_info";
   line lg t INFO ("Requesting " +:+ Link advisory);
   line lg t INFO posted].

Lemma run_module_imported __name__ env w :
  __name__ ≠ "__main__" → run_module __name__ env w = (Ok tt, w).
Proof. intros H. unfold run_module. by rewrite decide_False. Qed.

Lemma closed_run_module R `{!Primitives R, !Posting R} __name__ :
  closed R (run_module __name__).
Proof.
  unfold run_module. case_decide; [apply closed_main; apply _|solve_closed].
Qed.

Section lines.
Context (env : Env) (__name__ : string).
Implicit Types (t : Z) (advisory : Advisory).

Lemma written_delivery t advisory info :
  written basicConfig (logger __name__) t (ev_delivery env advisory info) =
    delivery_lines (logger __name__) t advisory.
Proof.
  unfold ev_delivery, ev_fetch, ev_outcome, ev_post.
  destruct (message_of _ _ _) as [[c s] b]. cbn [written app].
  by rewrite !log_basicConfig.
Qed.

Lemma sleeps_delivery advisory info : sleeps (ev_delivery env advisory info) = [].
Proof.
  unfold ev_delivery, ev_fetch, ev_outcome, ev_post.
  by destruct (message_of _ _ _) as [[c s] b].
Qed.

Lemma written_deliveries t advisories infos :
  length advisories = length infos →
  written basicConfig (logger __name__) t
    (concat (zip_with (ev_delivery env) advisories infos)) =
    advisories ≫= delivery_lines (logger __name__) t.
Proof.
  revert infos. induction advisories as [|a l IH]; intros [|i infos] Hlen;
    try done.
  cbn [zip_with concat]. rewrite written_app, sleeps_delivery, written_delivery.
  cbn [sumZ foldr]. rewrite Z.add_0_r, IH by (by injection Hlen). done.
Qed.

End lines.

(** ** The theorems *)

(** C16 (functional). Run as a program on a site that answers every request,
    the module writes the request of the listing and the number of
    retained rows at the time of the start and, sixty seconds later, three
    lines per retained row in the order of the listing: the start of the
    retrieval, the request of the details page and the success of the
    post. *)
Theorem script_stdout env page `{!Answers env page} w rows now last advisories
    infos :
  listing_rows (Some (page listing_url)) = Ok rows →
  of_us (clock w) = Ok now →
  sub_timedelta now (timedelta_hours 24) = Ok last →
  for_rows last rows [] = Ok advisories → advisories ≠ [] →
  Forall2 (details page) advisories infos →
  stdout "__main__" w (run_module "__main__" env w).2 =
    [line (logger "__main__") (clock w) INFO ("Requesting " +:+ listing_url);
     line (logger "__main__") (clock w) INFO
       ("The ammount of advisories are "
        +:+ format_int (Z.of_nat (length advisories)))]
    ++ advisories ≫=
         delivery_lines (logger "__main__") (clock w + 60 * US_PER_SECOND).
Proof.
  intros Hrows Hnow Hlast Hadvs Hne Hinfos. unfold run_module, stdout.
  rewrite decide_True by done.
  rewrite (main_answers_run env page w rows now last advisories infos) by done.
  cbn [snd]. rewrite output_advance, (assoc_L (++)), written_app.
  rewrite written_deliveries by (by eapply Forall2_length).
  unfold ev_fetch, ev_pause. cbn [written app].
  rewrite !log_basicConfig. cbn [app]. by do 4 f_equal.
Qed.

(** Whatever the environment does, every log record of a
    run is written as one line, the times of the lines never go back, and
    they lie between the time of the start and the time of the end of the
    run. *)
Theorem script_stdout_in_order __name__ env w :
  let w' := (run_module __name__ env w).2 in
  let evs := drop (length (trace w)) (trace w') in
  length (stdout __name__ w w') = length (logs evs)
  ∧ StronglySorted Z.le (stamps (clock w) evs)
  ∧ Forall (λ t, (clock w ≤ t ≤ clock w')%Z) (stamps (clock w) evs).
Proof.
  destruct (closed_run_module advances __name__ env w) as (evs & d & Hs & ->).
  cbn zeta. unfold stdout.
  rewrite output_advance, trace_advance, drop_app_length, clock_advance.
  split_and!; [|by apply stamps_sorted|by apply stamps_bounds].
  by rewrite written_basicConfig, length_zip_with, stamps_length, Nat.min_id.
Qed.

(** ** Examples *)

Import MainFixture.

(** The output of the run of [Main.main_answers_witness]: two lines at nine
    o'clock, three lines a minute later. *)
Lemma script_stdout_witness :
  stdout "__main__" Fixture.w0 (run_module "__main__" happy_env Fixture.w0).2 =
    (λ s, s +:+ terminator) <$>
      ["2024-05-10 09:00:00,000 - __main__ - INFO - Requesting https://www.zerodayinitiative.com/advisories/published/";
       "2024-05-10 09:00:00,000 - __main__ - INFO - The ammount of advisories are 1";
       "2024-05-10 09:01:00,000 - __main__ - INFO - starting retrieve_advisory_info";
       "2024-05-10 09:01:00,000 - __main__ - INFO - Requesting https://www.zerodayinitiative.com/advisories/ZDI-24-401/";
       "2024-05-10 09:01:00,000 - __main__ - INFO - successfully posted CVE into Slack channel"].
Proof.
  exact (script_stdout happy_env happy_page Fixture.w0
           [ListingFixture.row1; ListingFixture.short_row; ListingFixture.row2]
           (DateTime 2024 5 10 9 0 0 0) ListingFixture.last
           [ListingFixture.adv1] [DetailFixture.info]
           eq_refl eq_refl eq_refl eq_refl ltac:(done)
           ltac:(by repeat constructor)).
Defined.

(** A run in which the second advisory has no link: its iteration ends with
    an error record, after the records of the rejected request. *)
Lemma stdout_skipped_advisory :
  stdout "__main__" Fixture.w0 (run_module "__main__" env Fixture.w0).2 =
    (λ s, s +:+ terminator) <$>
      ["2024-05-10 09:00:00,000 - __main__ - INFO - Requesting https://www.zerodayinitiative.com/advisories/published/";
       "2024-05-10 09:00:00,000 - __main__ - INFO - The ammount of advisories are 2";
       "2024-05-10 09:01:00,000 - __main__ - INFO - starting retrieve_advisory_info";
       "2024-05-10 09:01:00,000 - __main__ - INFO - Requesting https://www.zerodayinitiative.com/advisories/ZDI-24-401/";
       "2024-05-10 09:01:00,000 - __main__ - INFO - successfully posted CVE into Slack channel";
       "2024-05-10 09:01:00,000 - __main__ - INFO - starting retrieve_advisory_info";
       "2024-05-10 09:01:00,000 - __main__ - INFO - Requesting https://www.zerodayinitiative.comNone";
       "2024-05-10 09:01:00,000 - __main__ - INFO - Failed to make GET request";
       "2024-05-10 09:01:00,000 - __main__ - INFO - not found";
       "2024-05-10 09:01:00,000 - __main__ - INFO - 404";
       "2024-05-10 09:01:00,000 - __main__ - ERROR - 'NoneType' object has no attribute 'xpath'"].
Proof. vm_compute. reflexivity. Qed.
