(* ===== verification/Inputs.v ===== *)
(** * Inputs: what a run depends on

    The program reads the outside through five doors: the responses of the
    network, the random generator, the answers of Slack, the HTML parser
    and the three variables [SLACK_API_KEY], [CHANNEL_ID] and [IMAGE_URL]
    of the process environment (lines 18-20). The outcome of the [n]-th
    request, draw or call of Slack is the environment's value at [n], and
    the state counts the requests, draws and calls made so far.

    Two environments have the [same_future] for a state when they agree on
    the parser, on the three variables and on every request, draw and call
    of Slack that has not been made yet; they have the [same_inputs] when
    they agree on all of them. A computation [replays] when it only extends
    the state and runs alike in environments with the same future: what
    was answered before the run started, and every other variable of the
    process, cannot influence it. The primitives replay, sequencing and
    [try]/[except] keep computations replaying, and so every function of
    the program does. For [main] and [run_module] the weaker statement for
    [same_inputs] is a [Proper] instance, so that an equivalence of
    environments rewrites under them. *)

From S2P Require Import Prelude PyStr Html DateTime World Runs Logging.
From S2P Require Import Fetcher Listing Detail Json Slack Main Script.

(** ** The inputs *)

Record same_inputs (env env' : Env) : Prop := {
  same_net n url : net env n url = net env' n url;
  same_draw n : draw env n = draw env' n;
  same_slack_api n : slack_api env n = slack_api env' n;
  same_fromstring s : fromstring env s = fromstring env' s;
  same_key : SLACK_API_KEY env = SLACK_API_KEY env';
  same_channel : CHANNEL_ID env = CHANNEL_ID env';
  same_image : IMAGE_URL env = IMAGE_URL env'
}.

(** The environments agree on what a run that starts in [w] can consult:
    the requests, draws and calls of Slack from the counters of [w] on. *)
Record same_future (w : World) (env env' : Env) : Prop := {
  future_net n url : n_get w ≤ n → net env n url = net env' n url;
  future_draw n : n_draw w ≤ n → draw env n = draw env' n;
  future_slack_api n : n_post w ≤ n → slack_api env n = slack_api env' n;
  future_fromstring s : fromstring env s = fromstring env' s;
  future_key : SLACK_API_KEY env = SLACK_API_KEY env';
  future_channel : CHANNEL_ID env = CHANNEL_ID env';
  future_image : IMAGE_URL env = IMAGE_URL env'
}.

(** A computation that runs alike in environments with the same inputs. *)
Definition local {A} (m : M A) : Prop :=
  Proper (same_inputs ==> (=) ==> (=)) m.

(** A computation that only extends the state and runs alike in
    environments with the same future. *)
Definition replays {A} (m : M A) : Prop :=
  monotone m ∧ ∀ env env' w, same_future w env env' → m env w = m env' w.

(** [env] with the variable [key] set to [value]. *)
Definition setenv (key value : string) (env : Env) : Env :=
  {| net := net env; draw := draw env; slack_api := slack_api env;
     fromstring := fromstring env;
     environ := λ k, if decide (k = key) then Some value else environ env k |}.

(** [env] with other answers to the first [n] requests. *)
Definition answered_before (n : nat) (nets : nat → string → res response)
    (env : Env) : Env :=
  {| net := λ i url, if decide (i < n) then nets i url else net env i url;
     draw := draw env; slack_api := slack_api env;
     fromstring := fromstring env; environ := environ env |}.

(** The names that the program looks up. *)
Definition consulted : list string :=
  ["SLACK_API_KEY"; "CHANNEL_ID"; "IMAGE_URL"].

(** ** Environments with the same inputs *)

#[export] Instance same_inputs_equivalence : Equivalence same_inputs.
Proof.
  split.
  - by intros env.
  - by intros env env' [].
  - intros e1 e2 e3 [] []. split; intros; etrans; eauto.
Qed.

#[export] Instance same_future_equivalence w : Equivalence (same_future w).
Proof.
  split.
  - by intros env.
  - intros env env' []. split; intros; symmetry; auto.
  - intros e1 e2 e3 H1 H2. split; intros.
    + by rewrite (future_net _ _ _ H1), (future_net _ _ _ H2).
    + by rewrite (future_draw _ _ _ H1), (future_draw _ _ _ H2).
    + by rewrite (future_slack_api _ _ _ H1), (future_slack_api _ _ _ H2).
    + by rewrite (future_fromstring _ _ _ H1), (future_fromstring _ _ _ H2).
    + by rewrite (future_key _ _ _ H1), (future_key _ _ _ H2).
    + by rewrite (future_channel _ _ _ H1), (future_channel _ _ _ H2).
    + by rewrite (future_image _ _ _ H1), (future_image _ _ _ H2).
Qed.

Lemma same_inputs_future w env env' :
  same_inputs env env' → same_future w env env'.
Proof. intros []. by split. Qed.

(** The future of a later state is part of the future of an earlier one. *)
Lemma same_future_extends w w' env env' :
  extends w w' → same_future w env env' → same_future w' env env'.
Proof. intros [] []. split; intros; auto with lia. Qed.

(** Setting a variable that the program does not look up changes no
    input. *)
Lemma same_inputs_setenv key value env :
  key ∉ consulted → same_inputs env (setenv key value env).
Proof.
  intros Hkey. split; try done;
    unfold SLACK_API_KEY, CHANNEL_ID, IMAGE_URL, os_getenv, setenv;
    cbn [environ]; case_decide as Heq; try done;
    destruct Hkey; rewrite <- Heq; repeat constructor.
Qed.

(** Other answers to the requests made before [w] change nothing of its
    future. *)
Lemma same_future_answered_before w nets env :
  same_future w env (answered_before (n_get w) nets env).
Proof.
  split; try done. intros n url Hn. unfold answered_before. cbn [net].
  by rewrite decide_False by lia.
Qed.

(** ** Computations that replay *)

Lemma replays_run {A} (m : M A) env env' w :
  replays m → same_future w env env' → m env w = m env' w.
Proof. intros [_ Hm]. apply Hm. Qed.

Lemma replays_local {A} (m : M A) : replays m → local m.
Proof.
  intros [_ Hm] env env' H w ? <-. by apply Hm, same_inputs_future.
Qed.

Section replays.
Context {A B : Type}.

Lemma replays_ret (a : A) : replays (mret a).
Proof. split; [apply (closed_ret extends)|done]. Qed.

Lemma replays_lift (r : res A) : replays (lift r).
Proof. split; [apply (closed_lift extends)|done]. Qed.

Lemma replays_bind (m : M A) (f : A → M B) :
  replays m → (∀ a, replays (f a)) → replays (m ≫= f).
Proof.
  intros [Hext Hm] Hf. split.
  - apply (closed_bind extends); [done|]. intros a. apply Hf.
  - intros env env' w H. rewrite !run_bind, <- (Hm _ _ _ H).
    specialize (Hext env w). destruct (m env w) as [[a|e] w1]; [|done].
    apply (replays_run (f a)); [done|by eapply same_future_extends].
Qed.

Lemma replays_try (body : M A) cls h :
  replays body → (∀ e, replays (h e)) → replays (try_except body cls h).
Proof.
  intros [Hext Hm] Hh. split.
  - apply (closed_try extends); [done|]. intros e. apply Hh.
  - intros env env' w H. unfold try_except. rewrite <- (Hm _ _ _ H).
    specialize (Hext env w). destruct (body env w) as [[a|e] w1]; [done|].
    destruct (from_option _ _ _); [|done].
    apply (replays_run (h e)); [done|by eapply same_future_extends].
Qed.

(** A computation that reads the environment replays when what it reads
    is an input. *)
Lemma replays_ask (f : Env → M A) :
  (∀ w env env', same_future w env env' → f env = f env') →
  (∀ env, replays (f env)) → replays (ask ≫= f).
Proof.
  intros Hread Hf. split.
  - apply (closed_bind extends); [apply (closed_ask extends)|].
    intros env. apply Hf.
  - intros env env' w H. rewrite !run_bind, !run_ask, (Hread _ _ _ H).
    by apply (replays_run (f env')).
Qed.

End replays.

(** The primitives. *)

Lemma replays_logger_info msg : replays (logger_info msg).
Proof. split; [apply closed_logger_info|done]. Qed.

Lemma replays_logger_error msg : replays (logger_error msg).
Proof. split; [apply closed_logger_error|done]. Qed.

Lemma replays_time_sleep us : replays (time_sleep us).
Proof. split; [apply closed_time_sleep|done]. Qed.

Lemma replays_datetime_now : replays datetime_now.
Proof. split; [apply (closed_datetime_now extends)|done]. Qed.

Lemma replays_requests_get url hs : replays (requests_get url hs).
Proof.
  split; [apply closed_requests_get|]. intros env env' w H.
  unfold requests_get. by rewrite (future_net _ _ _ H).
Qed.

Lemma replays_random_uniform a b : replays (random_uniform a b).
Proof.
  split; [apply closed_random_uniform|]. intros env env' w H.
  unfold random_uniform. by rewrite (future_draw _ _ _ H).
Qed.

Lemma replays_html_fromstring s : replays (html_fromstring s).
Proof.
  split; [apply (closed_html_fromstring extends)|]. intros env env' w H.
  unfold html_fromstring. by rewrite (future_fromstring _ _ _ H).
Qed.

Lemma replays_chat_postMessage k c t b : replays (chat_postMessage k c t b).
Proof.
  split; [apply closed_chat_postMessage|]. intros env env' w H.
  unfold chat_postMessage. by rewrite (future_slack_api _ _ _ H).
Qed.

Create HintDb replays discriminated.

#[export] Hint Resolve replays_ret replays_lift replays_logger_info
  replays_logger_error replays_time_sleep replays_datetime_now
  replays_requests_get replays_random_uniform replays_html_fromstring
  replays_chat_postMessage : replays.

(** Proves that a computation built from the primitives replays. The
    variables that it reads are rewritten to those of the other
    environment. *)
Ltac solve_replays :=
  repeat lazymatch goal with
  | |- replays (ask ≫= _) =>
      apply replays_ask;
        [ let H := fresh in
          intros ? ? ? H;
          by rewrite ?(future_key _ _ _ H), ?(future_channel _ _ _ H),
            ?(future_image _ _ _ H)
        | intros ? ]
  | |- replays (_ ≫= _) => apply replays_bind; [|intros ?]
  | |- replays (try_except _ _ _) => apply replays_try; [|intros ?]
  | |- replays (match _ with _ => _ end) => case_match
  | |- replays _ => solve [eauto with replays]
  end.

(** ** The functions of the program *)

Lemma replays_for_attempts url retries delay attempts :
  replays (for_attempts url retries delay attempts).
Proof.
  induction attempts as [|a l IH]; cbn [for_attempts]; [solve_replays|].
  apply replays_bind; [|by intros [v|]; solve_replays].
  unfold attempt_body, try_get, on_request_exception. solve_replays.
Qed.

Lemma replays_makerequest_default url : replays (makerequest_default url).
Proof. apply replays_for_attempts. Qed.

#[export] Hint Resolve replays_makerequest_default : replays.

Lemma replays_retrieve_advisories : replays retrieve_advisories.
Proof. unfold retrieve_advisories. solve_replays. Qed.

Lemma replays_retrieve_advisory_info link :
  replays (retrieve_advisory_info link).
Proof. unfold retrieve_advisory_info. solve_replays. Qed.

#[export] Hint Resolve replays_retrieve_advisories
  replays_retrieve_advisory_info : replays.

Lemma replays_send client :
  replays (send_slack_message_for_no_new_zero_day client).
Proof. unfold send_slack_message_for_no_new_zero_day. solve_replays. Qed.

Lemma replays_iteration client advisory : replays (iteration client advisory).
Proof. unfold iteration, post_advisory, on_exception. solve_replays. Qed.

Lemma replays_for_advisories client advisories :
  replays (for_advisories client advisories).
Proof.
  induction advisories as [|a l IH]; cbn [for_advisories]; [solve_replays|].
  apply replays_bind; [apply replays_iteration|done].
Qed.

#[export] Hint Resolve replays_send replays_for_advisories : replays.

Lemma replays_main : replays main.
Proof. unfold main. solve_replays. Qed.

Lemma replays_run_module __name__ : replays (run_module __name__).
Proof.
  unfold run_module. case_decide; [apply replays_main|apply replays_ret].
Qed.

Lemma local_main : local main.
Proof. apply replays_local, replays_main. Qed.

#[export] Instance main_proper : Proper (same_inputs ==> (=) ==> (=)) main :=
  local_main.

#[export] Instance run_module_proper __name__ :
  Proper (same_inputs ==> (=) ==> (=)) (run_module __name__).
Proof. apply replays_local, replays_run_module. Qed.

(** What the module writes to [sys.stdout] is the same in environments with
    the same inputs. *)
Lemma stdout_same_inputs __name__ env env' w :
  same_inputs env env' →
  stdout __name__ w (run_module __name__ env w).2
  = stdout __name__ w (run_module __name__ env' w).2.
Proof. intros H. by rewrite H. Qed.

(** ** The theorems *)


(** A run of [main] in two environments with the same inputs is the same
    run. *)
Theorem main_same_inputs env env' w :
  same_inputs env env' → main env w = main env' w.
Proof. intros H. by rewrite H. Qed.

(** ** Examples *)


(** A run with [HOME] set is the run without it. *)
Lemma main_same_inputs_witness :
  let env := MainFixture.happy_env in
  let env' := setenv "HOME" "/home/zdi" env in
  environ env "HOME" ≠ environ env' "HOME" ∧
  main env Fixture.w0 = main env' Fixture.w0.
Proof.
  intros env env'. split; [done|].
  apply (main_same_inputs env env' Fixture.w0).
  apply same_inputs_setenv. by apply (bool_decide_unpack _).
Defined.

(** A run with another channel is another run. *)
Example main_other_channel :
  let env := MainFixture.happy_env in
  main env Fixture.w0 ≠ main (setenv "CHANNEL_ID" "C9999" env) Fixture.w0.
Proof. vm_compute. intros H. discriminate H. Qed.

(** A run that starts before the request is another run when the request
    is answered otherwise. *)
Example main_other_answer :
  let env := MainFixture.happy_env in
  main env Fixture.w0
  ≠ main (answered_before 1 (λ _ _, Raise Fixture.timed_out) env) Fixture.w0.
Proof. vm_compute. intros H. discriminate H. Qed.
